(** * Dht11: a bit-banged single-wire driver for the DHT11 sensor

    Shallow embedding of [src/Dht11.cpp].  The C++ object becomes a record,
    the board (clock, data pin, interrupt mask) an explicit world that is
    threaded through a small state monad, and every busy loop a fixpoint
    over fuel whose exhaustion is visible as [None]. *)

From Stdlib Require Import String.
From Stdlib Require Import ZArith List Bool Lia.
From Stdlib Require Import DecimalString.
From Stdlib Require Import QArith Qabs Qpower Lqa.
From Stdlib Require Import Floats.SpecFloat.
Import ListNotations.
Open Scope Z_scope.

(** ** Machine integers

    [uint32_t] and [uint8_t] values are integers in [Z]; every place where
    the C++ arithmetic wraps is written with [u32] or [u8]. *)
Module Word.

Definition u32 (z : Z) : Z := z mod 2 ^ 32.
Definition u8 (z : Z) : Z := z mod 2 ^ 8.

Definition is_u32 (z : Z) : Prop := 0 <= z < 2 ^ 32.
Definition is_u8 (z : Z) : Prop := 0 <= z < 2 ^ 8.

End Word.
Import Word.

(** ** IEEE 754 arithmetic

    [float] is binary32 and [double] binary64, both carried by
    [spec_float] and computed with the reference operations of
    [SpecFloat] (round to nearest, ties to even). *)
Module IEEE.

Definition float := spec_float.
Definition double := spec_float.

Definition float_of_Z (z : Z) : float := binary_normalize 24 128 z 0 false.
Definition double_of_Z (z : Z) : double := binary_normalize 53 1024 z 0 false.

(** Implicit conversions [float -> double] (exact) and [double -> float]
    (rounding). *)
Definition to_double (x : float) : double :=
  match x with
  | S754_finite s m e => binary_round 53 1024 s m e
  | _ => x
  end.

Definition to_float (x : double) : float :=
  match x with
  | S754_finite s m e => binary_round 24 128 s m e
  | _ => x
  end.

(** The decimal literal [n / 10^k] of type [double]: both operands are
    exact, so the correctly rounded quotient is the double nearest to the
    decimal value. *)
Definition lit (n k : Z) : double :=
  SFdiv 53 1024 (double_of_Z n) (double_of_Z (10 ^ k)).

Definition dadd : double -> double -> double := SFadd 53 1024.
Definition dsub : double -> double -> double := SFsub 53 1024.
Definition dmul : double -> double -> double := SFmul 53 1024.
Definition dopp : double -> double := SFopp.
Definition fsub : float -> float -> float := SFsub 24 128.

Definition flt : spec_float -> spec_float -> bool := SFltb.
Definition fle : spec_float -> spec_float -> bool := SFleb.
Definition fgt (x y : spec_float) : bool := SFltb y x.
Definition fge (x y : spec_float) : bool := SFleb y x.

(** *** Exact values

    The rational number a float stands for; infinities and NaN count as 0
    and are excluded wherever a value is used. *)
Definition F2Q (m e : Z) : Q := (inject_Z m * 2 ^ e)%Q.

Definition to_Q (x : spec_float) : Q :=
  match x with
  | S754_finite s m e => F2Q (cond_Zopp s (Zpos m)) e
  | _ => 0%Q
  end.

(** A zero of either sign, or positive and finite. *)
Definition nonneg_float (x : spec_float) : Prop :=
  match x with
  | S754_zero _ => True
  | S754_finite false _ _ => True
  | _ => False
  end.

(** The mantissa and exponent on which [binary_round_aux] settles. *)
Definition settled (prec emax : Z) (mx ex : Z) : Z * Z :=
  let '(mrs', e') := shr_fexp prec emax mx ex loc_Exact in
  let '(mrs'', e'') :=
    shr_fexp prec emax
      (round_nearest_even (shr_m mrs') (loc_of_shr_record mrs')) e' loc_Exact in
  (shr_m mrs'', e'').

(** One unit in the last place of the numbers below [2 ^ k]. *)
Definition ulp_below (prec emax k : Z) : Q :=
  (2 ^ Z.max (k - prec) (3 - emax - prec))%Q.

(** [|x - z| <= tol], on exact values. *)
Definition within (tol : Q) (x : spec_float) (z : Z) : bool :=
  Qle_bool (Qabs (to_Q x - inject_Z z)) tol.

End IEEE.
Import IEEE.

(** ** What the Arduino core and the C library supply

    None of these is defined in [Dht11.cpp]; the driver is parametric in
    them. *)
Class ArduinoCore := {
  (** [clockCyclesPerMicrosecond()], that is [F_CPU / 1000000]. *)
  clockCyclesPerMicrosecond : Z;
  (** [String(float)], the decimal rendering of a float. *)
  String_of_float : float -> string;
  (** [pow], [sqrt] and [abs] as applied to doubles. *)
  c_pow : double -> double -> double;
  c_sqrt : double -> double;
  c_abs : double -> double
}.

Definition microsecondsToClockCycles `{ArduinoCore} (a : Z) : Z :=
  a * clockCyclesPerMicrosecond.

(** ** The board *)

Definition HIGH : bool := true.
Definition LOW : bool := false.

Inductive PinMode := INPUT | OUTPUT | INPUT_PULLUP.

(** What the driver does to the outside world, apart from polling the pin
    and reading the clock.  All calls address the one data pin [PIN]. *)
Inductive Event :=
| EvPinMode (mode : PinMode)
| EvDigitalWrite (level : bool)
| EvDelay (ms : Z)
| EvDelayMicroseconds (us : Z)
| EvInterruptsOff
| EvInterruptsOn.

(** The environment is an oracle: [clock n] is what the [n]-th call of
    [millis()] returns and [pin n] the level the [n]-th [digitalRead] sees,
    whatever time the delays and the polling took.  [ticks] and [polls]
    count the calls made so far; [log] holds the events, newest first. *)
Record Board := mkBoard {
  clock : nat -> Z;
  ticks : nat;
  pin : nat -> bool;
  polls : nat;
  log : list Event
}.

(** ** The driver object

    Modelled from the spec: the class is declared in the header [Dht11.h],
    which is not part of the sources.  The spec gives the frame as exactly
    5 bytes; [Dht11.cpp] compares [_maxcycles] with a [uint32_t] counter
    and subtracts [_lastreadtime] from a [uint32_t] clock reading, so that
    the fields are [uint32_t _maxcycles, _lastreadtime], [bool _lastresult]
    and [uint8_t data[5]]. *)
Record Dht11 := mkDht11 {
  _maxcycles : Z;
  _lastreadtime : Z;
  _lastresult : bool;
  data : list Z
}.

Record Sys := mkSys { dev : Dht11; hw : Board }.

(** ** State monad with divergence *)

Definition M (A : Type) : Type := Sys -> option (A * Sys).

Definition ret {A} (a : A) : M A := fun s => Some (a, s).

Definition bind {A B} (m : M A) (k : A -> M B) : M B :=
  fun s => match m s with
           | Some (a, s') => k a s'
           | None => None
           end.

Definition diverge {A} : M A := fun _ => None.

Declare Scope dht_scope.
Delimit Scope dht_scope with dht.
Notation "x <- m ;; k" := (bind m (fun x => k))
  (at level 100, m at next level, right associativity) : dht_scope.
Notation "m ;; k" := (bind m (fun _ => k))
  (at level 100, right associativity) : dht_scope.
Open Scope dht_scope.

Definition gets {A} (f : Dht11 -> A) : M A := fun s => Some (f (dev s), s).

Definition modify_dev (f : Dht11 -> Dht11) : M unit :=
  fun s => Some (tt, mkSys (f (dev s)) (hw s)).

Definition set_lastreadtime (t : Z) : M unit :=
  modify_dev (fun d => mkDht11 (_maxcycles d) t (_lastresult d) (data d)).

Definition set_lastresult (r : bool) : M unit :=
  modify_dev (fun d => mkDht11 (_maxcycles d) (_lastreadtime d) r (data d)).

Definition set_maxcycles (c : Z) : M unit :=
  modify_dev (fun d => mkDht11 c (_lastreadtime d) (_lastresult d) (data d)).

Definition set_data (l : list Z) : M unit :=
  modify_dev (fun d => mkDht11 (_maxcycles d) (_lastreadtime d) (_lastresult d) l).

(** *** Arduino primitives *)

Definition emit (e : Event) : M unit :=
  fun s =>
    let b := hw s in
    Some (tt, mkSys (dev s) (mkBoard (clock b) (ticks b) (pin b) (polls b) (e :: log b))).

Definition pinMode (mode : PinMode) : M unit := emit (EvPinMode mode).
Definition digitalWrite (level : bool) : M unit := emit (EvDigitalWrite level).
Definition delay (ms : Z) : M unit := emit (EvDelay ms).
Definition delayMicroseconds (us : Z) : M unit := emit (EvDelayMicroseconds us).

(** [InterruptLock lock;] masks interrupts, and the destructor that runs
    when its scope is left restores them. *)
Definition InterruptLock : M unit := emit EvInterruptsOff.
Definition InterruptUnlock : M unit := emit EvInterruptsOn.

Definition millis : M Z :=
  fun s =>
    let b := hw s in
    Some (u32 (clock b (ticks b)),
          mkSys (dev s) (mkBoard (clock b) (S (ticks b)) (pin b) (polls b) (log b))).

Definition digitalRead : M bool :=
  fun s =>
    let b := hw s in
    Some (pin b (polls b),
          mkSys (dev s) (mkBoard (clock b) (ticks b) (pin b) (S (polls b)) (log b))).

(** ** Array cells *)

Fixpoint set_nth (i : nat) (v : Z) (l : list Z) : list Z :=
  match l, i with
  | [], _ => []
  | _ :: t, O => v :: t
  | h :: t, S j => h :: set_nth j v t
  end.

Definition cell (l : list Z) (i : Z) : Z := nth (Z.to_nat i) l 0.

(** ** [Dht11::expectPulse]

    [while (digitalRead(PIN) == level) { if (count++ >= _maxcycles) return 0; }
     return count;] *)
Fixpoint expectPulse_loop (fuel : nat) (level : bool) (count : Z) : M Z :=
  match fuel with
  | O => diverge
  | S fuel' =>
      v <- digitalRead;;
      if Bool.eqb v level then
        maxc <- gets _maxcycles;;
        if count >=? maxc then ret 0
        else expectPulse_loop fuel' level (u32 (count + 1))
      else ret count
  end.

Definition expectPulse (level : bool) : M Z :=
  maxc <- gets _maxcycles;;
  expectPulse_loop (S (Z.to_nat maxc)) level 0.

(** ** [Dht11::begin] and the constructor *)

(** Modelled from the spec: [MIN_INTERVAL] is a macro of the header
    [Dht11.h], which is not part of the sources; the spec gives "a fixed
    minimum interval (2000 ms)". *)
Definition MIN_INTERVAL : Z := 2000.

Definition begin : M unit :=
  pinMode INPUT_PULLUP;;
  set_lastreadtime (u32 (- MIN_INTERVAL)).

(** [Dht11::Dht11()].  [_lastresult] and [data] are not initialised: they
    keep whatever the object's storage held. *)
Definition Dht11_new `{ArduinoCore} : M unit :=
  set_maxcycles (u32 (microsecondsToClockCycles 1000));;
  begin.

(** ** [Dht11::_read] *)

(** [for (int i = 0; i < 80; i += 2) { cycles[i] = expectPulse(LOW);
    cycles[i + 1] = expectPulse(HIGH); }], [pairs] iterations left. *)
Fixpoint read_pulses (pairs : nat) : M (list Z) :=
  match pairs with
  | O => ret []
  | S pairs' =>
      lo <- expectPulse LOW;;
      hi <- expectPulse HIGH;;
      rest <- read_pulses pairs';;
      ret (lo :: hi :: rest)
  end.

(** The block guarded by [InterruptLock].  [inl r] means that the function
    returned [r] from inside the block, [inr cycles] that the block ran to
    its end; the lock's destructor runs on every way out. *)
Definition capture : M (bool + list Z) :=
  InterruptLock;;
  digitalWrite HIGH;;
  delayMicroseconds 40;;
  pinMode INPUT_PULLUP;;
  delayMicroseconds 10;;
  lo <- expectPulse LOW;;
  if lo =? 0 then
    set_lastresult false;;
    r <- gets _lastresult;;
    InterruptUnlock;;
    ret (inl r)
  else
    hi <- expectPulse HIGH;;
    if hi =? 0 then
      set_lastresult false;;
      r <- gets _lastresult;;
      InterruptUnlock;;
      ret (inl r)
    else
      cycles <- read_pulses 40;;
      InterruptUnlock;;
      ret (inr cycles).

(** [data[i / 8] <<= 1] and [data[i / 8] |= 1] on [uint8_t] cells. *)
Definition shift_cell (i : Z) : M unit :=
  d <- gets data;;
  set_data (set_nth (Z.to_nat (Z.quot i 8)) (u8 (Z.shiftl (cell d (Z.quot i 8)) 1)) d).

Definition or_cell (i : Z) : M unit :=
  d <- gets data;;
  set_data (set_nth (Z.to_nat (Z.quot i 8)) (Z.lor (cell d (Z.quot i 8)) 1) d).

(** [highCycles > lowCycles]: the pulse pair encodes a one. *)
Definition bit_of (lowCycles highCycles : Z) : bool := highCycles >? lowCycles.

(** [for (int i = 0; i < 40; ++i) { ... }] from index [i] with [n]
    iterations left.  [Some r] means that the function returned [r] from
    inside the loop, [None] that the loop ran to its end. *)
Fixpoint decode_loop (n : nat) (i : Z) (cycles : list Z) : M (option bool) :=
  match n with
  | O => ret None
  | S n' =>
      let lowCycles := cell cycles (2 * i) in
      let highCycles := cell cycles (2 * i + 1) in
      if (lowCycles =? 0) || (highCycles =? 0) then
        set_lastresult false;;
        r <- gets _lastresult;;
        ret (Some r)
      else
        shift_cell i;;
        (if bit_of lowCycles highCycles then or_cell i else ret tt);;
        decode_loop n' (i + 1) cycles
  end.

Definition _read : M bool :=
  currenttime <- millis;;
  lastreadtime <- gets _lastreadtime;;
  if u32 (currenttime - lastreadtime) <? 2000 then
    gets _lastresult
  else
    set_lastreadtime currenttime;;
    set_data [0; 0; 0; 0; 0];;
    digitalWrite HIGH;;
    delay 250;;
    pinMode OUTPUT;;
    digitalWrite LOW;;
    delay 20;;
    c <- capture;;
    match c with
    | inl r => ret r
    | inr cycles =>
        d <- decode_loop 40 0 cycles;;
        match d with
        | Some r => ret r
        | None =>
            b <- gets data;;
            if cell b 4 =? Z.land (cell b 0 + cell b 1 + cell b 2 + cell b 3) 255 then
              set_lastresult true;;
              gets _lastresult
            else
              set_lastresult false;;
              gets _lastresult
        end
    end.

(** ** Accessors and unit conversion *)

(** [return c * 1.8 + 32;] *)
Definition convertCtoF (c : float) : float :=
  to_float (dadd (dmul (to_double c) (lit 18 1)) (double_of_Z 32)).

(** [return (f - 32) * 0.55555;] *)
Definition convertFtoC (f : float) : float :=
  to_float (dmul (to_double (fsub f (float_of_Z 32))) (lit 55555 5)).

Definition readTemperature : M float :=
  d <- gets data;;
  ret (convertCtoF (float_of_Z (cell d 2))).

Definition readHumidity : M float :=
  d <- gets data;;
  ret (float_of_Z (cell d 0)).

(** ** [Dht11::computeHeatIndex] *)

(** [0.5 * (temperature + 61.0 + ((temperature - 68.0) * 1.2) +
    (percentHumidity * 0.094))], assigned to a [float]. *)
Definition heat_simple (temperature percentHumidity : float) : float :=
  let t := to_double temperature in
  let h := to_double percentHumidity in
  to_float
    (dmul (lit 5 1)
       (dadd (dadd (dadd t (lit 61 0)) (dmul (dsub t (lit 68 0)) (lit 12 1)))
          (dmul h (lit 94 3)))).

(** The nine-term regression, summed from the left, assigned to a [float]. *)
Definition heat_regression `{ArduinoCore} (temperature percentHumidity : float) : float :=
  let t := to_double temperature in
  let h := to_double percentHumidity in
  let two := double_of_Z 2 in
  to_float
    (dadd (dadd (dadd (dadd (dadd (dadd (dadd (dadd
       (dopp (lit 42379 3))
       (dmul (lit 204901523 8) t))
       (dmul (lit 1014333127 8) h))
       (dmul (dmul (dopp (lit 22475541 8)) t) h))
       (dmul (dopp (lit 683783 8)) (c_pow t two)))
       (dmul (dopp (lit 5481717 8)) (c_pow h two)))
       (dmul (dmul (lit 122874 8) (c_pow t two)) h))
       (dmul (dmul (lit 85282 8) t) (c_pow h two)))
       (dmul (dmul (dopp (lit 199 8)) (c_pow t two)) (c_pow h two))).

(** [(percentHumidity < 13) && (temperature >= 80.0) && (temperature <= 112.0)] *)
Definition low_humidity (temperature percentHumidity : float) : bool :=
  flt percentHumidity (float_of_Z 13)
  && fge (to_double temperature) (lit 800 1)
  && fle (to_double temperature) (lit 1120 1).

(** [(percentHumidity > 85.0) && (temperature >= 80.0) && (temperature <= 87.0)] *)
Definition high_humidity (temperature percentHumidity : float) : bool :=
  fgt (to_double percentHumidity) (lit 850 1)
  && fge (to_double temperature) (lit 800 1)
  && fle (to_double temperature) (lit 870 1).

(** [heatIndex -= ((13.0 - percentHumidity) * 0.25) *
    sqrt((17.0 - abs(temperature - 95.0)) * 0.05882);] *)
Definition low_humidity_adjust `{ArduinoCore}
    (heatIndex temperature percentHumidity : float) : float :=
  let t := to_double temperature in
  let h := to_double percentHumidity in
  to_float
    (dsub (to_double heatIndex)
       (dmul (dmul (dsub (lit 130 1) h) (lit 25 2))
          (c_sqrt (dmul (dsub (lit 170 1) (c_abs (dsub t (lit 950 1)))) (lit 5882 5))))).

(** [heatIndex += ((percentHumidity - 85.0) * 0.1) * ((87.0 - temperature) * 0.2);] *)
Definition high_humidity_adjust (heatIndex temperature percentHumidity : float) : float :=
  let t := to_double temperature in
  let h := to_double percentHumidity in
  to_float
    (dadd (to_double heatIndex)
       (dmul (dmul (dsub h (lit 850 1)) (lit 1 1))
          (dmul (dsub (lit 870 1) t) (lit 2 1)))).

Definition computeHeatIndex `{ArduinoCore} (temperature percentHumidity : float) : float :=
  let heatIndex := heat_simple temperature percentHumidity in
  if fgt heatIndex (float_of_Z 79) then
    let heatIndex := heat_regression temperature percentHumidity in
    if low_humidity temperature percentHumidity then
      low_humidity_adjust heatIndex temperature percentHumidity
    else if high_humidity temperature percentHumidity then
      high_humidity_adjust heatIndex temperature percentHumidity
    else heatIndex
  else heatIndex.

(** ** [Dht11::read] and [Dht11::readAll] *)

(** Modelled from the spec: the enumeration is declared in a header that
    is not part of the sources; these are the two values that [read] and
    [readAll] return, success and the error after the last retry. *)
Inductive DeviceErrorCode := DEVICE_OK | ERROR_READ.

(** [int count = 0; while (!_read()) { count++; delay(100);
    if (count > 10) return ERROR_READ; }], the loop both functions open
    with.  [Some e] means that the function returned [e] from inside the
    loop, [None] that the loop was left because [_read()] succeeded. *)
Fixpoint retry_loop (fuel : nat) (count : Z) : M (option DeviceErrorCode) :=
  match fuel with
  | O => diverge
  | S fuel' =>
      ok <- _read;;
      if negb ok then
        let count := count + 1 in
        delay 100;;
        if count >? 10 then ret (Some ERROR_READ)
        else retry_loop fuel' count
      else ret None
  end.

(** The result pairs the error code with the final value of the [String&]
    argument. *)
Definition read `{ArduinoCore} : M (DeviceErrorCode * string) :=
  let data := "Error reading"%string in
  r <- retry_loop 11 0;;
  match r with
  | Some e => ret (e, data)
  | None =>
      temp <- readTemperature;;
      humidity <- readHumidity;;
      ret (DEVICE_OK, String_of_float temp)
  end.

Definition readAll `{ArduinoCore} : M (DeviceErrorCode * string) :=
  let data := "Error reading"%string in
  r <- retry_loop 11 0;;
  match r with
  | Some e => ret (e, data)
  | None =>
      temp <- readTemperature;;
      humidity <- readHumidity;;
      ret (DEVICE_OK,
           ("Temp: " ++ String_of_float temp ++ "  Humidity: "
              ++ String_of_float humidity)%string)
  end.

(** ** Pulse samples, read off the pin oracle

    What the polling loops compute, as plain functions of the oracle:
    these state the theorems below and are proved equal to the loops. *)

(** First index [j < n] such that poll [start + j] is away from [level]. *)
Fixpoint first_off (pin : nat -> bool) (level : bool) (start n : nat) : option nat :=
  match n with
  | O => None
  | S n' =>
      if Bool.eqb (pin start) level
      then option_map S (first_off pin level (S start) n')
      else Some O
  end.

(** Count returned by one pulse wait begun at poll [p], and the index of
    the next poll. *)
Definition pulse (pin : nat -> bool) (maxc : Z) (level : bool) (p : nat) : Z * nat :=
  match first_off pin level p (S (Z.to_nat maxc)) with
  | Some j => (Z.of_nat j, (p + S j)%nat)
  | None => (0, (p + S (Z.to_nat maxc))%nat)
  end.

Fixpoint pulse_pairs (pin : nat -> bool) (maxc : Z) (p : nat) (pairs : nat) : list Z * nat :=
  match pairs with
  | O => ([], p)
  | S pairs' =>
      let (lo, p1) := pulse pin maxc LOW p in
      let (hi, p2) := pulse pin maxc HIGH p1 in
      let (rest, p3) := pulse_pairs pin maxc p2 pairs' in
      (lo :: hi :: rest, p3)
  end.

(** The pin stays at [level] for the whole budget of [_maxcycles + 1]
    polls that a pulse wait begun in [s] may spend. *)
Definition stuck_at (level : bool) (s : Sys) : bool :=
  forallb (fun i => Bool.eqb (pin (hw s) i) level)
    (seq (polls (hw s)) (S (Z.to_nat (_maxcycles (dev s))))).

(** Number of consecutive polls, from the next one on, that see [level]
    (looking at most [n] polls ahead). *)
Fixpoint run_length (pin : nat -> bool) (level : bool) (start n : nat) : nat :=
  match n with
  | O => O
  | S n' =>
      if Bool.eqb (pin start) level
      then S (run_length pin level (S start) n')
      else O
  end.

(** ** States *)

Definition upd (s : Sys) (d : Dht11) (t p : nat) (l : list Event) : Sys :=
  mkSys d (mkBoard (clock (hw s)) t (pin (hw s)) p l).

Definition set_polls (s : Sys) (p : nat) : Sys :=
  upd s (dev s) (ticks (hw s)) p (log (hw s)).

Definition wf_dev (d : Dht11) : Prop := is_u32 (_maxcycles d).


(** ** One hardware attempt, read off the oracle *)

(** Value of [millis()] at the next call. *)
Definition now (s : Sys) : Z := u32 (clock (hw s) (ticks (hw s))).

(** The rate limiter lets the next [_read()] through to the hardware. *)
Definition due (s : Sys) : bool :=
  negb (u32 (now s - _lastreadtime (dev s)) <? 2000).

(** The buffer after [data[i / 8] <<= 1] and, for a one, [data[i / 8] |= 1]. *)
Definition push_bit (i : Z) (b : bool) (d : list Z) : list Z :=
  let k := Z.quot i 8 in
  let d1 := set_nth (Z.to_nat k) (u8 (Z.shiftl (cell d k) 1)) d in
  if b then set_nth (Z.to_nat k) (Z.lor (cell d1 k) 1) d1 else d1.

(** The decode loop on the buffer alone: the buffer it leaves, and
    whether it ran to its end. *)
Fixpoint decode_pure (n : nat) (i : Z) (cycles d : list Z) : list Z * bool :=
  match n with
  | O => (d, true)
  | S n' =>
      let lowCycles := cell cycles (2 * i) in
      let highCycles := cell cycles (2 * i + 1) in
      if (lowCycles =? 0) || (highCycles =? 0) then (d, false)
      else decode_pure n' (i + 1) cycles (push_bit i (bit_of lowCycles highCycles) d)
  end.

Definition checksum_ok (d : list Z) : bool :=
  cell d 4 =? Z.land (cell d 0 + cell d 1 + cell d 2 + cell d 3) 255.

(** The 80 pulse samples of the attempt that starts in [s], when both
    pulses of the sensor's acknowledgement arrive. *)
Definition sampled (s : Sys) : option (list Z) :=
  let pn := pin (hw s) in
  let maxc := _maxcycles (dev s) in
  let (lo, p1) := pulse pn maxc LOW (polls (hw s)) in
  if lo =? 0 then None
  else
    let (hi, p2) := pulse pn maxc HIGH p1 in
    if hi =? 0 then None
    else Some (fst (pulse_pairs pn maxc p2 40)).

(** Result, buffer and next poll index of the attempt that starts in [s]. *)
Definition attempt (s : Sys) : bool * list Z * nat :=
  let pn := pin (hw s) in
  let maxc := _maxcycles (dev s) in
  let zeros := [0; 0; 0; 0; 0] in
  let (lo, p1) := pulse pn maxc LOW (polls (hw s)) in
  if lo =? 0 then (false, zeros, p1)
  else
    let (hi, p2) := pulse pn maxc HIGH p1 in
    if hi =? 0 then (false, zeros, p2)
    else
      let (cycles, p3) := pulse_pairs pn maxc p2 40 in
      let (d, complete) := decode_pure 40 0 cycles zeros in
      (complete && checksum_ok d, d, p3).

(** Events of one attempt, newest first. *)
Definition attempt_events : list Event :=
  [ EvInterruptsOn; EvDelayMicroseconds 10; EvPinMode INPUT_PULLUP;
    EvDelayMicroseconds 40; EvDigitalWrite HIGH; EvInterruptsOff;
    EvDelay 20; EvDigitalWrite LOW; EvPinMode OUTPUT;
    EvDelay 250; EvDigitalWrite HIGH ].

(** State in which an attempt begun in [s] ends. *)
Definition after_attempt (s : Sys) : Sys :=
  let '(r, d, p) := attempt s in
  upd s (mkDht11 (_maxcycles (dev s)) (now s) r d)
    (S (ticks (hw s))) p (attempt_events ++ log (hw s)).

(** State in which a call answered from the cache ends. *)
Definition after_cached (s : Sys) : Sys :=
  upd s (dev s) (S (ticks (hw s))) (polls (hw s)) (log (hw s)).

(** ** A concrete board for the examples *)

(** A data line that carries [trace] and then idles at the pull-up level. *)
Definition wire (trace : list bool) : nat -> bool := fun n => nth n trace HIGH.

Definition board (clk : nat -> Z) (trace : list bool) : Board :=
  mkBoard clk 0 (wire trace) 0 [].

(** A driver on an 80 MHz part: [_maxcycles = 80000]. *)
Definition dht (lastreadtime : Z) (lastresult : bool) (d : list Z) : Dht11 :=
  mkDht11 80000 lastreadtime lastresult d.

(** The line is already high when a low pulse is awaited, and falls one
    poll later. *)
Definition glitch : Sys :=
  mkSys (dht 0 false [0; 0; 0; 0; 0]) (board (fun _ => 0) [HIGH; LOW; LOW; LOW]).

(** The bit that pulse pair [t] of [cycles] encodes. *)
Definition bit_at (cycles : list Z) (t : Z) : bool :=
  bit_of (cell cycles (2 * t)) (cell cycles (2 * t + 1)).

(** *** The sensor's side of the wire *)

(** [c] polls at [level], then the poll at which the line has changed. *)
Definition pulse_trace (level : bool) (c : nat) : list bool :=
  repeat level c ++ [negb level].

(** A bit: a low pulse of 3 polls, then a high pulse of 2 polls for a zero
    and of 5 polls for a one. *)
Definition bit_trace (b : bool) : list bool :=
  pulse_trace LOW 3 ++ pulse_trace HIGH (if b then 5 else 2).

Definition byte_bits (z : Z) : list bool :=
  map (Z.testbit z) [7; 6; 5; 4; 3; 2; 1; 0].

(** The acknowledgement followed by the bits of [bytes], most significant
    bit of each byte first. *)
Definition frame_trace (bytes : list Z) : list bool :=
  pulse_trace LOW 4 ++ pulse_trace HIGH 4
    ++ flat_map bit_trace (flat_map byte_bits bytes).

(** *** The platform *)

Definition decimal (n : Z) : string :=
  NilZero.string_of_uint (N.to_uint (Z.to_N n)).

(** [|x| * 100], rounded to an integer. *)
Definition hundredths (x : float) : Z :=
  match x with
  | S754_finite _ m e =>
      if 0 <=? e then Zpos m * 100 * 2 ^ e
      else (Zpos m * 200 + 2 ^ (- e)) / 2 ^ (1 - e)
  | _ => 0
  end.

(** Two decimal places, as [String(float)] prints by default. *)
Definition two_places (x : float) : string :=
  match x with
  | S754_nan => "nan"
  | S754_infinity s => if s then "-inf" else "inf"
  | S754_zero _ => "0.00"
  | S754_finite s _ _ =>
      let n := hundredths x in
      ((if s then "-" else EmptyString) ++ decimal (n / 100) ++ "."
         ++ decimal (n mod 100 / 10) ++ decimal (n mod 10))%string
  end.

(** An 80 MHz part with a correctly rounded [sqrt]; [pow] is only ever
    called with exponent 2. *)
#[export] Instance bench : ArduinoCore := {
  clockCyclesPerMicrosecond := 80;
  String_of_float := two_places;
  c_pow := fun x y => if SFeqb y (double_of_Z 2) then dmul x x else S754_nan;
  c_sqrt := SFsqrt 53 1024;
  c_abs := SFabs
}.

(** *** Scenes *)

(** 40 % relative humidity at 25 degrees Celsius; the checksum is 65. *)
Definition good_frame : list Z := [40; 0; 25; 0; 65].

(** The same reading with a corrupted checksum byte. *)
Definition bad_frame : list Z := [40; 0; 25; 0; 64].

(** The clock of the scenes: 5000 ms at the first call of [millis()], 370 ms
    more at each further call. *)
Definition ticking (n : nat) : Z := 5000 + 370 * Z.of_nat n.

(** A freshly begun driver in front of a sensor that answers [frame]. *)
Definition sensor (frame : list Z) : Sys :=
  mkSys (dht (u32 (- MIN_INTERVAL)) false [0; 0; 0; 0; 0])
        (board ticking (frame_trace frame)).

Definition answering : Sys := sensor good_frame.

(** The same, but the frame arrives with a wrong checksum. *)
Definition garbled : Sys := sensor bad_frame.

(** The pulse samples that the bits of a frame produce. *)
Definition bit_cycles (b : bool) : list Z := [3; if b then 5 else 2].

(** A driver that holds a good reading from an earlier run, with the
    sensor now unplugged: the line idles high. *)
Definition unplugged : Sys :=
  mkSys (dht (u32 (- MIN_INTERVAL)) true good_frame) (board ticking []).

(** As [unplugged], last hardware attempt at 0 ms; the next two calls of
    [millis()] return 1500 and 2500. *)
Definition stale : Sys :=
  mkSys (dht 0 true good_frame)
        (board (fun n => 1500 + 1000 * Z.of_nat n) []).

(** Storage holding leftovers, about to be constructed while the
    millisecond clock is one tick short of wrapping around. *)
Definition at_wrap : Sys :=
  mkSys (mkDht11 0 0 true good_frame)
        (board (fun _ => 2 ^ 32 - 1) (frame_trace good_frame)).

(** ** Rounds of the retry loop *)

(** [k] calls of [_read()] in a row, each of which answers [false] and is
    followed by [delay(100)], and the state they lead to. *)
Fixpoint failing_rounds (k : nat) (s : Sys) : option Sys :=
  match k with
  | O => Some s
  | S k' =>
      match _read s with
      | Some (false, s1) =>
          match delay 100 s1 with
          | Some (_, s2) => failing_rounds k' s2
          | None => None
          end
      | _ => None
      end
  end.

(** Number of [delay(ms)] calls recorded in a log. *)
Fixpoint count_delays (ms : Z) (l : list Event) : nat :=
  match l with
  | [] => O
  | EvDelay d :: l' => if d =? ms then S (count_delays ms l') else count_delays ms l'
  | _ :: l' => count_delays ms l'
  end.

(** The 80 pulse samples that [answering] and [garbled] yield. *)
Definition answered : list Z :=
  Eval vm_compute in match sampled answering with Some c => c | None => [] end.

Definition garbled_cycles : list Z :=
  Eval vm_compute in match sampled garbled with Some c => c | None => [] end.

(** Where eleven failing rounds leave [unplugged]. *)
Definition given_up : Sys :=
  Eval vm_compute in
    match failing_rounds 11 unplugged with Some s => s | None => unplugged end.

(** ** [Dht11::createEmailMessage], [Dht11::getName], [Dht11::indexComponent] *)

(** Modelled from the spec: [DeviceMessageType] and the [Configuration]
    singleton are declared in headers that are not part of the sources.
    [Dht11.cpp] compares its argument with five enumerators, which are
    integers here as the values of a C++ enumeration are, and reads
    [Configuration::Instance()->deviceName]; nothing else of either is
    used. *)
Class Headers := {
  MAX_RANGE : Z;
  MIN_RANGE : Z;
  OFF_LINE : Z;
  ON_LINE : Z;
  DISCONNECTED : Z;
  deviceName : string
}.

(** The enumerators that [createEmailMessage] knows, in the order in which
    it tests them. *)
Definition listed `{Headers} : list Z :=
  [MAX_RANGE; MIN_RANGE; OFF_LINE; ON_LINE; DISCONNECTED].

(** The arguments [subject] and [message] are references: the function
    takes the strings they hold and the result is what they hold when it
    returns. *)
Definition createEmailMessage `{Headers}
    (subject message : string) (deviceMessageType : Z) : string * string :=
  let subject := deviceName in
  if deviceMessageType =? MAX_RANGE then
    ((subject ++ " MAX Temp Warning")%string,
     (deviceName ++ "  has triggered the maximum temperature range.")%string)
  else if deviceMessageType =? MIN_RANGE then
    ((subject ++ " MIN Temp Warning")%string,
     (deviceName ++ "  has triggered the minimum temperature range.")%string)
  else if deviceMessageType =? OFF_LINE then
    ((subject ++ " Offline Warning")%string,
     (deviceName ++ " is now offline.")%string)
  else if deviceMessageType =? ON_LINE then
    ((subject ++ " Online")%string,
     (deviceName ++ " is now online.")%string)
  else if deviceMessageType =? DISCONNECTED then
    ((subject ++ " Disconnected Warning")%string,
     (deviceName ++ " sensor is disconnected.")%string)
  else (subject, message).

Definition getName : string := "Dht11".

Definition indexComponent : string := EmptyString.

(** A greenhouse whose enumerators are numbered from 0. *)
Definition greenhouse : Headers := {|
  MAX_RANGE := 0;
  MIN_RANGE := 1;
  OFF_LINE := 2;
  ON_LINE := 3;
  DISCONNECTED := 4;
  deviceName := "Greenhouse"
|}.

(** ** A sensor with its own timing *)

(** One bit on the wire: a low pulse of [fst w] polls, then a high pulse
    of [snd w] polls. *)
Definition timed_bit (w : nat * nat) : list bool :=
  pulse_trace LOW (fst w) ++ pulse_trace HIGH (snd w).

(** The acknowledgement, with pulses of [fst ack] and [snd ack] polls,
    followed by the bits. *)
Definition timed_trace (ack : nat * nat) (widths : list (nat * nat)) : list bool :=
  pulse_trace LOW (fst ack) ++ pulse_trace HIGH (snd ack)
    ++ flat_map timed_bit widths.

(** The pulse samples that the widths produce. *)
Definition width_cycles (w : nat * nat) : list Z :=
  [Z.of_nat (fst w); Z.of_nat (snd w)].

(** Both pulses are seen, for no more polls than the timeout budget
    allows. *)
Definition seen (maxc : Z) (w : nat * nat) : Prop :=
  (1 <= fst w)%nat /\ Z.of_nat (fst w) <= maxc /\
  (1 <= snd w)%nat /\ Z.of_nat (snd w) <= maxc.

(** The sensor sends bit [b] with the widths [w]: the high pulse outlasts
    the low one exactly for a one. *)
Definition sends (maxc : Z) (b : bool) (w : nat * nat) : Prop :=
  seen maxc w /\ b = (fst w <? snd w)%nat.

(** A slow processor: 50 polls for the low pulse, 30 or 70 for the high
    one, after 1000 polls of earlier traffic on the line. *)
Definition leisurely (b : bool) : nat * nat := (50, if b then 70 else 30)%nat.

Definition earlier_traffic : list bool := repeat HIGH 1000.

Definition slow_sensor : Sys :=
  mkSys (dht (u32 (- MIN_INTERVAL)) false [9; 9; 9; 9; 9])
        (mkBoard ticking 0
           (wire (earlier_traffic
                    ++ timed_trace (80, 80)%nat
                         (map leisurely (flat_map byte_bits good_frame))))
           1000 []).

(** ** Further scenes *)

(** As [unplugged], on a clock that advances 100 ms from one call of
    [millis()] to the next. *)
Definition patient : Sys :=
  mkSys (dht (u32 (- MIN_INTERVAL)) true good_frame)
        (board (fun n => 5000 + 100 * Z.of_nat n) []).

(** The line is held low and never released. *)
Definition shorted : Sys :=
  mkSys (mkDht11 4 (u32 (- MIN_INTERVAL)) true good_frame)
        (mkBoard ticking 0 (fun _ => LOW) 0 []).

(** A high pulse that lasts a single poll, after a low pulse of two. *)
Definition blip : Sys :=
  mkSys (dht 0 false [0; 0; 0; 0; 0]) (board (fun _ => 0) [LOW; LOW; HIGH; LOW]).

(** A driver whose timeout budget is zero, in front of a sensor that
    answers a good frame. *)
Definition starved : Sys :=
  mkSys (mkDht11 0 (u32 (- MIN_INTERVAL)) true good_frame)
        (board ticking (frame_trace good_frame)).

(** The timing of [frame_trace]. *)
Definition brisk (b : bool) : nat * nat := (3, if b then 5 else 2)%nat.

(** Storage with leftovers in front of a sensor that answers [frame],
    before the constructor has run. *)
Definition boxed (leftovers : Dht11) (frame : list Z) : Sys :=
  mkSys leftovers (board ticking (frame_trace frame)).

(** ** Readings *)

(** The values of a byte, and those of a relative humidity in percent. *)
Definition bytes : list Z := map Z.of_nat (seq 0 256).
Definition percents : list Z := map Z.of_nat (seq 0 101).

(** The exact value of [c * 1.8 + 32]. *)
Definition fahrenheit (c : Z) : Q := (inject_Z c * (9 # 5) + 32)%Q.

(** The interrupt mask that a log leaves behind: that of the newest
    masking or unmasking, and unmasked if there is none. *)
Fixpoint masked (l : list Event) : bool :=
  match l with
  | [] => false
  | EvInterruptsOff :: _ => true
  | EvInterruptsOn :: _ => false
  | _ :: l' => masked l'
  end.

(** No [delay(ms)] is called while the log has interrupts masked; the
    log is read from its oldest event on. *)
Fixpoint no_delay_masked (l : list Event) : bool :=
  match l with
  | [] => true
  | EvDelay _ :: l' => negb (masked l') && no_delay_masked l'
  | _ :: l' => no_delay_masked l'
  end.

(** ** The heat index on exact numbers

    The formulas of [computeHeatIndex] as they are written, on rational
    numbers and without any rounding: what the floating-point results are
    compared with. *)

(** [0.5 * (temperature + 61.0 + ((temperature - 68.0) * 1.2) +
    (percentHumidity * 0.094))] *)
Definition exact_simple_average (t h : Q) : Q :=
  ((1 # 2) * (t + 61 + (t - 68) * (12 # 10) + h * (94 # 1000)))%Q.

(** The regression of nine terms, with [pow(x, 2)] as [x * x]. *)
Definition exact_regression (t h : Q) : Q :=
  (- (42379 # 1000)
   + (204901523 # 100000000) * t
   + (1014333127 # 100000000) * h
   + - (22475541 # 100000000) * t * h
   + - (683783 # 100000000) * (t * t)
   + - (5481717 # 100000000) * (h * h)
   + (122874 # 100000000) * (t * t) * h
   + (85282 # 100000000) * t * (h * h)
   + - (199 # 100000000) * (t * t) * (h * h))%Q.

(** [(17.0 - abs(temperature - 95.0)) * 0.05882], whose square root the
    low-humidity correction takes. *)
Definition exact_radicand (t : Q) : Q :=
  ((17 - Qabs (t - 95)) * (5882 # 100000))%Q.

(** [((13.0 - percentHumidity) * 0.25) * root], where [root] stands for
    the square root of [exact_radicand]. *)
Definition exact_low_correction (h root : Q) : Q :=
  (((13 - h) * (25 # 100)) * root)%Q.

(** [((percentHumidity - 85.0) * 0.1) * ((87.0 - temperature) * 0.2)] *)
Definition exact_high_correction (t h : Q) : Q :=
  (((h - 85) * (1 # 10)) * ((87 - t) * (2 # 10)))%Q.
(** * Theorems *)

(** Projections of a state that has been written out. *)
Ltac fields :=
  cbn [dev hw clock ticks pin polls log
       _maxcycles _lastreadtime _lastresult data set_polls upd fst snd].

(** Run the first action of a sequence. *)
Ltac step := unfold bind at 1; fields.

(** A driver of the bench has a 32-bit timeout budget. *)
Ltac bench_wf := unfold wf_dev, is_u32; cbn; lia.

(** ** The pulse wait *)

Lemma upd_id (s : Sys) : upd s (dev s) (ticks (hw s)) (polls (hw s)) (log (hw s)) = s.
Proof. destruct s as [d [c t pn p l]]; reflexivity. Qed.

Lemma u32_small (z : Z) : 0 <= z < 2 ^ 32 -> u32 z = z.
Proof. intros H; unfold u32; apply Z.mod_small; exact H. Qed.

Lemma u32_range (z : Z) : 0 <= u32 z < 2 ^ 32.
Proof. unfold u32; apply Z.mod_pos_bound; reflexivity. Qed.

Lemma expectPulse_loop_spec (fuel : nat) (level : bool) :
  forall (c : Z) (s : Sys),
    0 <= c <= _maxcycles (dev s) ->
    _maxcycles (dev s) < 2 ^ 32 ->
    (Z.to_nat (_maxcycles (dev s) - c) < fuel)%nat ->
    expectPulse_loop fuel level c s =
    Some (match first_off (pin (hw s)) level (polls (hw s))
                  (S (Z.to_nat (_maxcycles (dev s) - c))) with
          | Some j => (c + Z.of_nat j, set_polls s (polls (hw s) + S j))
          | None => (0, set_polls s (polls (hw s) + S (Z.to_nat (_maxcycles (dev s) - c))))
          end).
Proof.
  induction fuel as [|fuel IH]; intros c s Hc Hm Hf; [lia|].
  cbn [expectPulse_loop first_off].
  unfold bind at 1, digitalRead at 1.
  destruct (Bool.eqb (pin (hw s) (polls (hw s))) level) eqn:E.
  - unfold bind, gets; cbn [dev hw].
    rewrite Z.geb_leb.
    destruct (Z.leb_spec (_maxcycles (dev s)) c) as [G|G].
    + assert (c = _maxcycles (dev s)) as -> by lia.
      rewrite Z.sub_diag; cbn. unfold ret, set_polls, upd.
      rewrite Nat.add_1_r. reflexivity.
    + assert (Hlt : c < _maxcycles (dev s)) by lia.
      rewrite u32_small by lia.
      rewrite IH; cbn [dev hw polls pin _maxcycles]; try lia.
      replace (Z.to_nat (_maxcycles (dev s) - c))
        with (S (Z.to_nat (_maxcycles (dev s) - (c + 1)))) by lia.
      destruct (first_off (pin (hw s)) level (S (polls (hw s)))
                  (S (Z.to_nat (_maxcycles (dev s) - (c + 1))))) as [j|];
        cbn [option_map]; unfold set_polls, upd; cbn [dev hw clock ticks pin polls log];
        (apply f_equal, f_equal2; [lia | do 2 f_equal; lia]).
  - unfold ret, set_polls, upd. rewrite Z.add_0_r, Nat.add_1_r. reflexivity.
Qed.

(** The polling loop never runs out of fuel and computes [pulse]. *)
Lemma expectPulse_spec (level : bool) (s : Sys) :
  wf_dev (dev s) ->
  expectPulse level s =
  Some (fst (pulse (pin (hw s)) (_maxcycles (dev s)) level (polls (hw s))),
        set_polls s (snd (pulse (pin (hw s)) (_maxcycles (dev s)) level (polls (hw s))))).
Proof.
  intros [H0 H1]. unfold expectPulse, bind, gets.
  rewrite expectPulse_loop_spec by lia.
  rewrite Z.sub_0_r. unfold pulse.
  destruct (first_off _ _ _ _); reflexivity.
Qed.

Lemma read_pulses_spec (n : nat) :
  forall s : Sys,
    wf_dev (dev s) ->
    read_pulses n s =
    Some (fst (pulse_pairs (pin (hw s)) (_maxcycles (dev s)) (polls (hw s)) n),
          set_polls s (snd (pulse_pairs (pin (hw s)) (_maxcycles (dev s)) (polls (hw s)) n))).
Proof.
  induction n as [|n IH]; intros s Hwf.
  - cbn. unfold ret, set_polls. rewrite upd_id. reflexivity.
  - cbn [read_pulses pulse_pairs]. unfold bind at 1.
    rewrite expectPulse_spec by assumption.
    unfold bind at 1. rewrite expectPulse_spec by assumption.
    cbn [dev hw set_polls upd pin polls].
    destruct (pulse (pin (hw s)) (_maxcycles (dev s)) LOW (polls (hw s))) as [lo p1].
    cbn [fst snd].
    destruct (pulse (pin (hw s)) (_maxcycles (dev s)) HIGH p1) as [hi p2].
    cbn [fst snd].
    unfold bind at 1. rewrite IH by assumption.
    cbn [dev hw set_polls upd pin polls clock ticks log].
    destruct (pulse_pairs (pin (hw s)) (_maxcycles (dev s)) p2 n) as [rest p3].
    reflexivity.
Qed.

(** ** The decode loop *)

(** The loop in the monad does to the buffer what [decode_pure] does, and
    sets [_lastresult] only when it returns early. *)
Lemma decode_loop_spec (cycles : list Z) (n : nat) :
  forall (i : Z) (s : Sys),
    decode_loop n i cycles s =
    Some (let (d, complete) := decode_pure n i cycles (data (dev s)) in
          (if complete then None else Some false,
           mkSys (mkDht11 (_maxcycles (dev s)) (_lastreadtime (dev s))
                    (if complete then _lastresult (dev s) else false) d)
                 (hw s))).
Proof.
  induction n as [|n IH]; intros i s.
  - destruct s as [[mc lrt lr d] b]; reflexivity.
  - cbn [decode_loop decode_pure].
    destruct ((cell cycles (2 * i) =? 0) || (cell cycles (2 * i + 1) =? 0)).
    + destruct s as [[mc lrt lr d] b]; reflexivity.
    + unfold bind at 1, shift_cell, bind at 1, gets at 1, set_data, modify_dev.
      fields. unfold bind at 1. unfold push_bit.
      destruct (bit_of (cell cycles (2 * i)) (cell cycles (2 * i + 1))) eqn:B.
      * unfold or_cell, bind at 1, gets at 1, set_data, modify_dev.
        fields. rewrite IH. fields. reflexivity.
      * unfold ret at 1. rewrite IH. fields. reflexivity.
Qed.

(** ** The two paths of [_read] *)

(** Within the interval: the cached result, and only the clock was read. *)
Lemma _read_cached (s : Sys) :
  due s = false ->
  _read s = Some (_lastresult (dev s), after_cached s).
Proof.
  unfold due, now, _read. intros H.
  unfold bind at 1, millis at 1. unfold bind at 1, gets at 1.
  cbn [dev hw clock ticks].
  apply negb_false_iff in H. rewrite H.
  reflexivity.
Qed.

(** Past the interval: one hardware attempt, as [attempt] describes it. *)
Lemma _read_due (s : Sys) :
  wf_dev (dev s) ->
  due s = true ->
  _read s = Some (fst (fst (attempt s)), after_attempt s).
Proof.
  unfold due, now, _read. intros Hwf H.
  unfold bind at 1, millis at 1. unfold bind at 1, gets at 1.
  cbn [dev hw clock ticks].
  apply negb_true_iff in H. rewrite H.
  unfold after_attempt, attempt, now.
  unfold set_lastreadtime, set_data, modify_dev, digitalWrite, delay, pinMode, emit.
  do 7 step.
  unfold bind at 1, capture.
  unfold InterruptLock, InterruptUnlock, digitalWrite, delayMicroseconds, pinMode, emit.
  do 5 step.
  unfold bind at 1. rewrite expectPulse_spec by exact Hwf.
  fields.
  destruct (pulse (pin (hw s)) (_maxcycles (dev s)) LOW (polls (hw s))) as [lo p1].
  cbn [fst snd].
  destruct (lo =? 0).
  { reflexivity. }
  unfold bind at 1. rewrite expectPulse_spec by exact Hwf.
  fields.
  destruct (pulse (pin (hw s)) (_maxcycles (dev s)) HIGH p1) as [hi p2].
  cbn [fst snd].
  destruct (hi =? 0).
  { reflexivity. }
  unfold bind at 1. rewrite read_pulses_spec by exact Hwf.
  fields.
  destruct (pulse_pairs (pin (hw s)) (_maxcycles (dev s)) p2 40) as [cycles p3].
  cbn [fst snd].
  step.
  unfold ret at 1.
  unfold bind at 1. rewrite decode_loop_spec.
  cbn [dev hw clock ticks pin polls log _maxcycles _lastreadtime _lastresult data].
  destruct (decode_pure 40 0 cycles [0; 0; 0; 0; 0]) as [d complete].
  destruct complete.
  - unfold bind at 1, gets at 1.
    cbn [dev hw clock ticks pin polls log _maxcycles _lastreadtime _lastresult data].
    unfold checksum_ok.
    destruct (cell d 4 =? Z.land (cell d 0 + cell d 1 + cell d 2 + cell d 3) 255);
      reflexivity.
  - reflexivity.
Qed.

(** ** What a pulse wait returns *)

Lemma first_off_run (pn : nat -> bool) (level : bool) (n : nat) :
  forall p : nat,
    match first_off pn level p n with
    | Some j => run_length pn level p n = j /\ (j < n)%nat
    | None => run_length pn level p n = n
    end.
Proof.
  induction n as [|n IH]; intros p; cbn; [reflexivity|].
  destruct (Bool.eqb (pn p) level).
  - specialize (IH (S p)).
    destruct (first_off pn level (S p) n) as [j|]; cbn; lia.
  - lia.
Qed.

Lemma run_length_le (pn : nat -> bool) (level : bool) (n : nat) :
  forall p : nat, (run_length pn level p n <= n)%nat.
Proof.
  induction n as [|n IH]; intros p; cbn; [lia|].
  destruct (Bool.eqb (pn p) level); [specialize (IH (S p))|]; lia.
Qed.

Lemma run_length_full (pn : nat -> bool) (level : bool) (n : nat) :
  forall p : nat,
    run_length pn level p n = n <->
    forallb (fun i => Bool.eqb (pn i) level) (seq p n) = true.
Proof.
  induction n as [|n IH]; intros p; cbn [run_length seq forallb]; [tauto|].
  destruct (Bool.eqb (pn p) level); cbn [andb].
  - rewrite <- IH. lia.
  - split; [lia | discriminate].
Qed.

Lemma run_length_zero (pn : nat -> bool) (level : bool) (p n : nat) :
  run_length pn level p (S n) = O <-> pn p = negb level.
Proof.
  cbn. destruct (pn p), level; cbn; split; (discriminate || reflexivity || lia).
Qed.

Lemma pulse_run (pn : nat -> bool) (maxc : Z) (level : bool) (p : nat) :
  let r := run_length pn level p (S (Z.to_nat maxc)) in
  pulse pn maxc level p =
  if (r <=? Z.to_nat maxc)%nat
  then (Z.of_nat r, (p + S r)%nat)
  else (0, (p + S (Z.to_nat maxc))%nat).
Proof.
  cbv zeta. unfold pulse.
  pose proof (first_off_run pn level (S (Z.to_nat maxc)) p) as H.
  destruct (first_off pn level p (S (Z.to_nat maxc))) as [j|].
  - destruct H as [-> Hj].
    destruct (Nat.leb_spec j (Z.to_nat maxc)); [reflexivity | lia].
  - rewrite H.
    destruct (Nat.leb_spec (S (Z.to_nat maxc)) (Z.to_nat maxc)); [lia | reflexivity].
Qed.

(** C3, as the claim states it, fails: the wait for the end of a low
    pulse returns 0 although the line does not stay low for the timeout
    budget.  The line is high at the very first poll, so the loop body
    never runs and the count is still 0; the low pulse that follows, from
    poll 1 to poll 3, is never measured. *)
Lemma expectPulse_zero_without_timeout :
  exists s' : Sys,
    expectPulse LOW glitch = Some (0, s') /\
    stuck_at LOW glitch = false /\
    pin (hw glitch) 0 = HIGH /\
    pin (hw glitch) 1 = LOW /\
    pin (hw glitch) 4 = HIGH.
Proof.
  exists (set_polls glitch 1). repeat split; vm_compute; reflexivity.
Qed.

(** C3, amended: [expectPulse level] always returns; it returns 0 exactly
    when the pin is already away from [level] at the first poll or stays
    at [level] for all [_maxcycles + 1] polls of the budget; every other
    result is the number of consecutive polls that saw [level], which is
    strictly positive and at most [_maxcycles]. *)
Theorem expectPulse_zero_iff (level : bool) (s : Sys) :
  wf_dev (dev s) ->
  exists (n : Z) (s' : Sys),
    expectPulse level s = Some (n, s') /\
    (n = 0 <->
     pin (hw s) (polls (hw s)) = negb level \/ stuck_at level s = true) /\
    (n <> 0 ->
     0 < n <= _maxcycles (dev s) /\
     n = Z.of_nat (run_length (pin (hw s)) level (polls (hw s))
                     (S (Z.to_nat (_maxcycles (dev s)))))).
Proof.
  intros Hwf. rewrite (expectPulse_spec level s Hwf).
  destruct Hwf as [H0 H1].
  rewrite pulse_run. cbv zeta.
  set (m := Z.to_nat (_maxcycles (dev s))).
  set (r := run_length (pin (hw s)) level (polls (hw s)) (S m)).
  pose proof (run_length_le (pin (hw s)) level (S m) (polls (hw s))) as Hle.
  pose proof (run_length_zero (pin (hw s)) level (polls (hw s)) m) as Hz.
  pose proof (run_length_full (pin (hw s)) level (S m) (polls (hw s))) as Hf.
  fold r in Hle, Hz, Hf. unfold stuck_at. fold m.
  destruct (Nat.leb_spec r m) as [Hr|Hr]; cbn [fst snd].
  - eexists; eexists; split; [reflexivity|]. split.
    + split.
      * intros E. left. apply Hz. lia.
      * intros [E|E]; [apply Hz in E; lia | apply Hf in E; lia].
    + intros Hn. split; [|reflexivity]. subst m. lia.
  - eexists; eexists; split; [reflexivity|]. split.
    + split; [|reflexivity]. intros _. right. apply Hf. lia.
    + intros Hn. exfalso. apply Hn. reflexivity.
Qed.

Lemma expectPulse_zero_iff_witness :
  wf_dev (dev glitch) /\
  exists (n : Z) (s' : Sys),
    expectPulse LOW glitch = Some (n, s') /\
    (n = 0 <->
     pin (hw glitch) (polls (hw glitch)) = negb LOW \/ stuck_at LOW glitch = true) /\
    (n <> 0 ->
     0 < n <= _maxcycles (dev glitch) /\
     n = Z.of_nat (run_length (pin (hw glitch)) LOW (polls (hw glitch))
                     (S (Z.to_nat (_maxcycles (dev glitch)))))).
Proof.
  assert (H : wf_dev (dev glitch)) by bench_wf.
  split; [exact H | exact (expectPulse_zero_iff LOW glitch H)].
Defined.

(** ** Cells of the buffer *)

Lemma length_set_nth (v : Z) (l : list Z) :
  forall i : nat, length (set_nth i v l) = length l.
Proof.
  induction l as [|h t IH]; intros [|i]; cbn; try reflexivity.
  rewrite IH. reflexivity.
Qed.

Lemma nth_set_nth (v : Z) (l : list Z) :
  forall i j : nat,
    (i < length l)%nat ->
    nth j (set_nth i v l) 0 = if Nat.eqb j i then v else nth j l 0.
Proof.
  induction l as [|h t IH]; intros [|i] [|j] H; cbn in *; try lia; try reflexivity.
  apply IH. lia.
Qed.

Lemma cell_set_nth (v : Z) (l : list Z) (k j : Z) :
  0 <= k < Z.of_nat (length l) ->
  0 <= j ->
  cell (set_nth (Z.to_nat k) v l) j = if j =? k then v else cell l j.
Proof.
  intros Hk Hj. unfold cell. rewrite nth_set_nth by lia.
  destruct (Z.eqb_spec j k) as [->|N].
  - rewrite Nat.eqb_refl. reflexivity.
  - destruct (Nat.eqb_spec (Z.to_nat j) (Z.to_nat k)); [lia | reflexivity].
Qed.

Lemma testbit_one (p : Z) : Z.testbit 1 p = (p =? 0).
Proof.
  destruct p as [|p|p]; reflexivity.
Qed.

(** One shifted-in bit, seen bit by bit. *)
Lemma testbit_shift_in (c : Z) (b : bool) (p : Z) :
  0 <= p ->
  Z.testbit (if b then Z.lor (u8 (Z.shiftl c 1)) 1 else u8 (Z.shiftl c 1)) p =
  if p =? 0 then b else (p <? 8) && Z.testbit c (p - 1).
Proof.
  intros Hp.
  assert (S : Z.testbit (u8 (Z.shiftl c 1)) p =
              if p =? 0 then false else (p <? 8) && Z.testbit c (p - 1)).
  { unfold u8. destruct (Z.ltb_spec p 8) as [L|L].
    - rewrite Z.mod_pow2_bits_low by lia.
      rewrite Z.shiftl_spec by lia.
      destruct (Z.eqb_spec p 0) as [->|N]; [apply Z.testbit_neg_r; lia | reflexivity].
    - rewrite Z.mod_pow2_bits_high by lia.
      destruct (Z.eqb_spec p 0); [lia | reflexivity]. }
  destruct b.
  - rewrite Z.lor_spec, S, testbit_one.
    destruct (p =? 0); [reflexivity | apply orb_false_r].
  - rewrite S. reflexivity.
Qed.

Lemma shift_in_range (c : Z) (b : bool) :
  0 <= (if b then Z.lor (u8 (Z.shiftl c 1)) 1 else u8 (Z.shiftl c 1)) < 256.
Proof.
  assert (R : 0 <= u8 (Z.shiftl c 1) < 2 ^ 8) by (apply Z.mod_pos_bound; reflexivity).
  destruct b; [|exact R].
  split.
  - apply Z.lor_nonneg. lia.
  - change 256 with (2 ^ 8). 
    destruct (Z.eq_dec (Z.lor (u8 (Z.shiftl c 1)) 1) 0) as [->|N]; [reflexivity|].
    apply Z.log2_lt_pow2; [ pose proof (Z.lor_nonneg (u8 (Z.shiftl c 1)) 1); lia |].
    rewrite Z.log2_lor by lia.
    apply Z.max_lub_lt; [|cbn; lia].
    destruct (Z.eq_dec (u8 (Z.shiftl c 1)) 0) as [->|N']; [cbn; lia|].
    apply Z.log2_lt_pow2; lia.
Qed.

Lemma quot8 (i k : Z) : 8 * k <= i < 8 * k + 8 -> 0 <= i -> Z.quot i 8 = k.
Proof.
  intros H Hi. rewrite Z.quot_div_nonneg by lia.
  symmetry. apply (Z.div_unique i 8 k (i - 8 * k)); lia.
Qed.

Lemma push_bit_length (i : Z) (b : bool) (d : list Z) :
  length (push_bit i b d) = length d.
Proof.
  unfold push_bit. destruct b; repeat rewrite length_set_nth; reflexivity.
Qed.

Lemma push_bit_cell (i : Z) (b : bool) (d : list Z) (k : Z) :
  0 <= i < 40 -> length d = 5%nat -> 0 <= k ->
  cell (push_bit i b d) k =
  if k =? Z.quot i 8
  then (if b then Z.lor (u8 (Z.shiftl (cell d k) 1)) 1 else u8 (Z.shiftl (cell d k) 1))
  else cell d k.
Proof.
  intros Hi Hd Hk. unfold push_bit.
  assert (Hq : 0 <= Z.quot i 8 < 5).
  { rewrite Z.quot_div_nonneg by lia. split.
    - apply Z.div_pos; lia.
    - apply Z.div_lt_upper_bound; lia. }
  destruct b.
  - rewrite cell_set_nth by (rewrite ?length_set_nth, ?Hd; lia).
    rewrite !cell_set_nth by (rewrite ?length_set_nth, ?Hd; lia).
    rewrite Z.eqb_refl.
    destruct (Z.eqb_spec k (Z.quot i 8)) as [->|N]; reflexivity.
  - rewrite cell_set_nth by (rewrite ?length_set_nth, ?Hd; lia).
    destruct (Z.eqb_spec k (Z.quot i 8)) as [->|N]; reflexivity.
Qed.

(** Where every bit of the buffer comes from once the loop has run from
    index [i] to the end: from pulse pair [8 * k + 7 - b] if that pair was
    still to come, and from the buffer the loop started with otherwise. *)
Lemma decode_pure_bits (cycles : list Z) (n : nat) :
  forall (i : Z) (d : list Z),
    0 <= i ->
    i + Z.of_nat n = 40 ->
    length d = 5%nat ->
    (forall k, 0 <= k < 5 -> 0 <= cell d k < 256) ->
    (forall j, 2 * i <= j < 80 -> cell cycles j <> 0) ->
    snd (decode_pure n i cycles d) = true /\
    length (fst (decode_pure n i cycles d)) = 5%nat /\
    (forall k, 0 <= k < 5 -> 0 <= cell (fst (decode_pure n i cycles d)) k < 256) /\
    (forall k b, 0 <= k < 5 -> 0 <= b < 8 ->
       Z.testbit (cell (fst (decode_pure n i cycles d)) k) b =
       if i <=? 8 * k + 7 - b then bit_at cycles (8 * k + 7 - b)
       else if i <? 8 * k + 8 then Z.testbit (cell d k) (b - (8 * k + 8 - i))
       else Z.testbit (cell d k) b).
Proof.
  induction n as [|n IH]; intros i d Hi Hn Hlen Hrange Hnz.
  - cbn [decode_pure fst snd]. repeat split; try assumption; try apply Hrange; try assumption.
    intros k b Hk Hb.
    destruct (Z.leb_spec i (8 * k + 7 - b)); [lia|].
    destruct (Z.ltb_spec i (8 * k + 8)); [lia | reflexivity].
  - cbn [decode_pure].
    assert (Hlo : (cell cycles (2 * i) =? 0) = false) by (apply Z.eqb_neq, Hnz; lia).
    assert (Hhi : (cell cycles (2 * i + 1) =? 0) = false) by (apply Z.eqb_neq, Hnz; lia).
    rewrite Hlo, Hhi. cbn [orb].
    fold (bit_at cycles i).
    set (d1 := push_bit i (bit_at cycles i) d).
    assert (Hlen1 : length d1 = 5%nat) by (unfold d1; rewrite push_bit_length; exact Hlen).
    assert (Hcell : forall k, 0 <= k ->
              cell d1 k =
              if k =? Z.quot i 8
              then (if bit_at cycles i then Z.lor (u8 (Z.shiftl (cell d k) 1)) 1
                    else u8 (Z.shiftl (cell d k) 1))
              else cell d k).
    { intros k Hk. unfold d1. apply push_bit_cell; lia. }
    assert (Hrange1 : forall k, 0 <= k < 5 -> 0 <= cell d1 k < 256).
    { intros k Hk. rewrite Hcell by lia.
      destruct (k =? Z.quot i 8); [apply shift_in_range | apply Hrange, Hk]. }
    destruct (IH (i + 1) d1) as (C & L & R & B); try assumption; try lia.
    { intros j Hj. apply Hnz. lia. }
    repeat split; try assumption; try apply R; try assumption.
    intros k b Hk Hb. rewrite (B k b Hk Hb), Hcell by lia.
    destruct (Z.leb_spec (i + 1) (8 * k + 7 - b)) as [A1|A1];
      destruct (Z.leb_spec i (8 * k + 7 - b)) as [A2|A2]; try lia; try reflexivity.
    + (* pair [i] itself lands on this bit *)
      assert (E : i = 8 * k + 7 - b) by lia.
      rewrite (quot8 i k) by lia. rewrite Z.eqb_refl.
      destruct (Z.ltb_spec (i + 1) (8 * k + 8)) as [A3|A3].
      * rewrite testbit_shift_in by lia.
        replace (b - (8 * k + 8 - (i + 1))) with 0 by lia.
        cbn [Z.eqb]. rewrite E. reflexivity.
      * assert (b = 0) by lia. subst b.
        rewrite testbit_shift_in by lia.
        cbn [Z.eqb]. rewrite E. reflexivity.
    + (* the bit was in the buffer before pair [i] *)
      destruct (Z.ltb_spec i (8 * k + 8)) as [A3|A3].
      * rewrite (quot8 i k) by lia. rewrite Z.eqb_refl.
        destruct (Z.ltb_spec (i + 1) (8 * k + 8)) as [A4|A4].
        -- rewrite testbit_shift_in by lia.
           destruct (Z.eqb_spec (b - (8 * k + 8 - (i + 1))) 0); [lia|].
           destruct (Z.ltb_spec (b - (8 * k + 8 - (i + 1))) 8); [|lia].
           cbn [andb]. f_equal. lia.
        -- rewrite testbit_shift_in by lia.
           destruct (Z.eqb_spec b 0); [lia|].
           destruct (Z.ltb_spec b 8); [|lia].
           cbn [andb]. f_equal. lia.
      * destruct (Z.ltb_spec (i + 1) (8 * k + 8)) as [A4|A4]; [lia|].
        destruct (Z.eqb_spec k (Z.quot i 8)) as [Q|Q]; [|reflexivity].
        exfalso. rewrite Z.quot_div_nonneg in Q by lia.
        assert (k + 1 <= i / 8) by (apply Z.div_le_lower_bound; lia). lia.
Qed.

(** ** One attempt *)

Lemma pulse_pairs_length (pn : nat -> bool) (maxc : Z) (n : nat) :
  forall p : nat, length (fst (pulse_pairs pn maxc p n)) = (2 * n)%nat.
Proof.
  induction n as [|n IH]; intros p; cbn [pulse_pairs]; [reflexivity|].
  destruct (pulse pn maxc LOW p) as [lo p1].
  destruct (pulse pn maxc HIGH p1) as [hi p2].
  specialize (IH p2).
  destruct (pulse_pairs pn maxc p2 n) as [rest p3].
  cbn [fst length] in *. lia.
Qed.

Lemma sampled_length (s : Sys) (cycles : list Z) :
  sampled s = Some cycles -> length cycles = 80%nat.
Proof.
  unfold sampled.
  destruct (pulse (pin (hw s)) (_maxcycles (dev s)) LOW (polls (hw s))) as [lo p1].
  destruct (lo =? 0); [discriminate|].
  destruct (pulse (pin (hw s)) (_maxcycles (dev s)) HIGH p1) as [hi p2].
  destruct (hi =? 0); [discriminate|].
  intros [= <-]. apply (pulse_pairs_length _ _ 40).
Qed.

Lemma attempt_sampled (s : Sys) (cycles : list Z) :
  sampled s = Some cycles ->
  fst (attempt s) =
  (snd (decode_pure 40 0 cycles [0; 0; 0; 0; 0])
     && checksum_ok (fst (decode_pure 40 0 cycles [0; 0; 0; 0; 0])),
   fst (decode_pure 40 0 cycles [0; 0; 0; 0; 0])).
Proof.
  unfold sampled, attempt.
  destruct (pulse (pin (hw s)) (_maxcycles (dev s)) LOW (polls (hw s))) as [lo p1].
  destruct (lo =? 0); [discriminate|].
  destruct (pulse (pin (hw s)) (_maxcycles (dev s)) HIGH p1) as [hi p2].
  destruct (hi =? 0); [discriminate|].
  destruct (pulse_pairs (pin (hw s)) (_maxcycles (dev s)) p2 40) as [c p3].
  cbn [fst]. intros [= ->].
  destruct (decode_pure 40 0 cycles [0; 0; 0; 0; 0]) as [d complete].
  reflexivity.
Qed.

Lemma attempt_unsampled (s : Sys) :
  sampled s = None ->
  fst (attempt s) = (false, [0; 0; 0; 0; 0]).
Proof.
  unfold sampled, attempt.
  destruct (pulse (pin (hw s)) (_maxcycles (dev s)) LOW (polls (hw s))) as [lo p1].
  destruct (lo =? 0); [reflexivity|].
  destruct (pulse (pin (hw s)) (_maxcycles (dev s)) HIGH p1) as [hi p2].
  destruct (hi =? 0); [reflexivity|].
  discriminate.
Qed.

Lemma after_attempt_dev (s : Sys) :
  dev (after_attempt s) =
  mkDht11 (_maxcycles (dev s)) (now s) (fst (fst (attempt s))) (snd (fst (attempt s))).
Proof.
  unfold after_attempt. destruct (attempt s) as [[r d] p]. reflexivity.
Qed.

Lemma after_attempt_ticks (s : Sys) :
  ticks (hw (after_attempt s)) = S (ticks (hw s)).
Proof.
  unfold after_attempt. destruct (attempt s) as [[r d] p]. reflexivity.
Qed.

Lemma after_attempt_log (s : Sys) :
  log (hw (after_attempt s)) = attempt_events ++ log (hw s).
Proof.
  unfold after_attempt. destruct (attempt s) as [[r d] p]. reflexivity.
Qed.

(** [_read] always returns. *)
Lemma _read_total (s : Sys) :
  wf_dev (dev s) ->
  exists (r : bool) (s' : Sys), _read s = Some (r, s').
Proof.
  intros Hwf. destruct (due s) eqn:D.
  - rewrite (_read_due s Hwf D). eauto.
  - rewrite (_read_cached s D). eauto.
Qed.

Lemma _read_step (s s' : Sys) (r : bool) :
  wf_dev (dev s) ->
  _read s = Some (r, s') ->
  wf_dev (dev s') /\ ticks (hw s') = S (ticks (hw s)) /\ _lastresult (dev s') = r.
Proof.
  intros Hwf. destruct (due s) eqn:D.
  - rewrite (_read_due s Hwf D). intros [= <- <-].
    rewrite after_attempt_dev, after_attempt_ticks. auto.
  - rewrite (_read_cached s D). intros [= <- <-]. auto.
Qed.

Lemma land_255 (z : Z) : Z.land z 255 = z mod 256.
Proof. change 255 with (Z.ones 8). rewrite Z.land_ones by lia. reflexivity. Qed.

Lemma nonzero_cells (cycles : list Z) (n : nat) :
  length cycles = n ->
  Forall (fun c => c <> 0) cycles ->
  forall j, 0 <= j < Z.of_nat n -> cell cycles j <> 0.
Proof.
  intros Hlen HF j Hj. unfold cell.
  apply (proj1 (Forall_nth _ cycles) HF). lia.
Qed.

Lemma decode_zeros (cycles : list Z) :
  length cycles = 80%nat ->
  Forall (fun c => c <> 0) cycles ->
  let d := fst (decode_pure 40 0 cycles [0; 0; 0; 0; 0]) in
  snd (decode_pure 40 0 cycles [0; 0; 0; 0; 0]) = true /\
  length d = 5%nat /\
  (forall k, 0 <= k < 5 -> 0 <= cell d k < 256) /\
  (forall i, 0 <= i < 40 ->
     Z.testbit (cell d (i / 8)) (7 - i mod 8) = bit_at cycles i).
Proof.
  intros Hlen HF d.
  destruct (decode_pure_bits cycles 40 0 [0; 0; 0; 0; 0]) as (C & L & R & B);
    try lia; try reflexivity.
  { intros k Hk.
    assert (k = 0 \/ k = 1 \/ k = 2 \/ k = 3 \/ k = 4) as [->|[->|[->|[->| ->]]]] by lia;
      (vm_compute; split; [discriminate | reflexivity]). }
  { intros j Hj. apply (nonzero_cells cycles 80 Hlen HF). lia. }
  subst d. repeat split; try assumption; try apply R; try assumption.
  intros i Hi.
  assert (Hq : 0 <= i / 8 < 5).
  { split; [apply Z.div_pos; lia | apply Z.div_lt_upper_bound; lia]. }
  pose proof (Z.mod_pos_bound i 8 ltac:(lia)) as Hm.
  pose proof (Z.div_mod i 8 ltac:(lia)) as Hdm.
  rewrite B by lia.
  destruct (Z.leb_spec 0 (8 * (i / 8) + 7 - (7 - i mod 8))); [|lia].
  f_equal. lia.
Qed.

(** ** Scenes with a sensor *)

(** A good frame is accepted and a frame with a wrong checksum byte is
    refused, with the received bytes left in the buffer. *)
Example read_answering :
  exists s', _read answering = Some (true, s') /\ data (dev s') = good_frame.
Proof. exists (after_attempt answering). split; vm_compute; reflexivity. Qed.

Example read_garbled :
  exists s', _read garbled = Some (false, s') /\ data (dev s') = bad_frame.
Proof. exists (after_attempt garbled). split; vm_compute; reflexivity. Qed.

(** ** Bit decoding *)

(** C4: a pulse pair decodes to 1 exactly when its high count exceeds its
    low count; (50, 30) gives 0 and (50, 70) gives 1; scaling both counts
    by a positive factor changes nothing; and in an attempt with 80
    non-zero samples the bit of pair [i] ends up in byte [i / 8] at bit
    position [7 - i mod 8], most significant bit first. *)
Theorem bit_decode_rule (s : Sys) (cycles : list Z) (i k lo hi : Z) :
  wf_dev (dev s) ->
  due s = true ->
  sampled s = Some cycles ->
  Forall (fun c => c <> 0) cycles ->
  0 <= i < 40 ->
  0 < k ->
  bit_of 50 30 = false /\
  bit_of 50 70 = true /\
  (bit_of lo hi = true <-> hi > lo) /\
  bit_of (k * lo) (k * hi) = bit_of lo hi /\
  exists (r : bool) (s' : Sys),
    _read s = Some (r, s') /\
    0 <= cell (data (dev s')) (i / 8) < 256 /\
    Z.testbit (cell (data (dev s')) (i / 8)) (7 - i mod 8) =
    bit_of (cell cycles (2 * i)) (cell cycles (2 * i + 1)).
Proof.
  intros Hwf Hdue Hs HF Hi Hk.
  split; [reflexivity|]. split; [reflexivity|].
  split; [unfold bit_of; rewrite Z.gtb_ltb, Z.ltb_lt; lia|].
  split.
  { unfold bit_of. rewrite !Z.gtb_ltb.
    destruct (Z.ltb_spec lo hi); destruct (Z.ltb_spec (k * lo) (k * hi)); nia. }
  rewrite (_read_due s Hwf Hdue).
  eexists; eexists; split; [reflexivity|].
  rewrite after_attempt_dev, (attempt_sampled s cycles Hs).
  cbn [fst snd data].
  destruct (decode_zeros cycles (sampled_length s cycles Hs) HF) as (_ & _ & R & B).
  split.
  - apply R. split; [apply Z.div_pos; lia | apply Z.div_lt_upper_bound; lia].
  - apply B. exact Hi.
Qed.

Lemma bit_decode_rule_witness :
  wf_dev (dev answering) /\
  due answering = true /\
  sampled answering = Some answered /\
  Forall (fun c => c <> 0) answered /\
  0 <= 2 < 40 /\
  0 < 1000 /\
  bit_of 50 30 = false /\
  bit_of 50 70 = true /\
  (bit_of 3 5 = true <-> 5 > 3) /\
  bit_of (1000 * 3) (1000 * 5) = bit_of 3 5 /\
  exists (r : bool) (s' : Sys),
    _read answering = Some (r, s') /\
    0 <= cell (data (dev s')) (2 / 8) < 256 /\
    Z.testbit (cell (data (dev s')) (2 / 8)) (7 - 2 mod 8) =
    bit_of (cell answered (2 * 2)) (cell answered (2 * 2 + 1)).
Proof.
  assert (H1 : wf_dev (dev answering)) by bench_wf.
  assert (H2 : due answering = true) by (vm_compute; reflexivity).
  assert (H3 : sampled answering = Some answered) by (vm_compute; reflexivity).
  assert (H4 : Forall (fun c => c <> 0) answered)
    by (unfold answered; repeat (constructor; [discriminate|]); constructor).
  assert (H5 : 0 <= 2 < 40) by lia.
  assert (H6 : 0 < 1000) by lia.
  exact (conj H1 (conj H2 (conj H3 (conj H4 (conj H5 (conj H6
           (bit_decode_rule answering answered 2 1000 3 5 H1 H2 H3 H4 H5 H6))))))).
Defined.

(** ** The rate limiter *)

Lemma u32_elapsed (t elapsed : Z) :
  0 <= elapsed < 2 ^ 32 ->
  u32 (u32 (t + elapsed) - t) = elapsed.
Proof.
  intros H. unfold u32.
  rewrite Zminus_mod_idemp_l.
  replace (t + elapsed - t) with elapsed by lia.
  apply Z.mod_small. exact H.
Qed.

(** C2, as the claim states it, fails: the two calls are 1000 ms apart,
    the first is answered from the cache, and the second runs a hardware
    attempt, since 2500 ms have passed since the last attempt; it returns
    another result and clears the frame. *)
Lemma second_read_after_cached_read_hits_hardware :
  exists s1 s2 : Sys,
    now stale = 1500 /\
    _read stale = Some (true, s1) /\
    log (hw s1) = [] /\
    now s1 = 2500 /\
    _read s1 = Some (false, s2) /\
    log (hw s2) = attempt_events /\
    polls (hw s2) = 1%nat /\
    _lastreadtime (dev s2) = 2500 /\
    data (dev s1) = good_frame /\
    data (dev s2) = [0; 0; 0; 0; 0].
Proof.
  exists (after_cached stale), (after_attempt (after_cached stale)).
  repeat split; vm_compute; reflexivity.
Qed.

(** C2, amended: after a call of [_read] that took the hardware path,
    every call made on the same driver less than 2000 ms of (wrapping)
    clock time later performs no hardware interaction, returns the result
    of that first call, which is the cached [_lastresult], and leaves
    the frame and the timestamp unchanged. *)
Theorem read_within_interval_is_cached (s s1 s2 : Sys) (r1 : bool) (elapsed : Z) :
  wf_dev (dev s) ->
  due s = true ->
  _read s = Some (r1, s1) ->
  dev s2 = dev s1 ->
  0 <= elapsed < 2000 ->
  now s2 = u32 (now s + elapsed) ->
  exists s3 : Sys,
    _read s2 = Some (r1, s3) /\
    r1 = _lastresult (dev s1) /\
    dev s3 = dev s1 /\
    polls (hw s3) = polls (hw s2) /\
    log (hw s3) = log (hw s2).
Proof.
  intros Hwf Hdue Hread Hdev Hel Hnow.
  rewrite (_read_due s Hwf Hdue) in Hread.
  injection Hread as Hr Hs1.
  assert (Hd : dev s1 = mkDht11 (_maxcycles (dev s)) (now s) r1 (snd (fst (attempt s)))).
  { rewrite <- Hs1, after_attempt_dev, Hr. reflexivity. }
  assert (Hc : due s2 = false).
  { unfold due. rewrite Hdev, Hd. cbn [_lastreadtime]. rewrite Hnow.
    rewrite u32_elapsed by lia.
    apply negb_false_iff, Z.ltb_lt. lia. }
  rewrite (_read_cached s2 Hc).
  exists (after_cached s2).
  split; [rewrite Hdev, Hd; reflexivity|].
  split; [rewrite Hd; reflexivity|].
  split; [exact Hdev|].
  split; reflexivity.
Qed.

Lemma read_within_interval_is_cached_witness :
  wf_dev (dev answering) /\
  due answering = true /\
  _read answering = Some (true, after_attempt answering) /\
  dev (after_attempt answering) = dev (after_attempt answering) /\
  0 <= 370 < 2000 /\
  now (after_attempt answering) = u32 (now answering + 370) /\
  exists s3 : Sys,
    _read (after_attempt answering) = Some (true, s3) /\
    true = _lastresult (dev (after_attempt answering)) /\
    dev s3 = dev (after_attempt answering) /\
    polls (hw s3) = polls (hw (after_attempt answering)) /\
    log (hw s3) = log (hw (after_attempt answering)).
Proof.
  assert (H1 : wf_dev (dev answering)) by bench_wf.
  assert (H2 : due answering = true) by (vm_compute; reflexivity).
  assert (H3 : _read answering = Some (true, after_attempt answering))
    by (rewrite (_read_due answering H1 H2); vm_compute; reflexivity).
  assert (H4 : dev (after_attempt answering) = dev (after_attempt answering))
    by reflexivity.
  assert (H5 : 0 <= 370 < 2000) by lia.
  assert (H6 : now (after_attempt answering) = u32 (now answering + 370))
    by (vm_compute; reflexivity).
  exact (conj H1 (conj H2 (conj H3 (conj H4 (conj H5 (conj H6
           (read_within_interval_is_cached answering (after_attempt answering)
              (after_attempt answering) true 370 H1 H2 H3 H4 H5 H6))))))).
Defined.

(** ** Failed attempts *)

(** C6, as the claim states it, fails for the frame: the attempt ends in
    a pulse timeout, and the good frame of the earlier run is gone. *)
Lemma failed_attempt_clears_stale_frame :
  exists s' : Sys,
    data (dev unplugged) = [40; 0; 25; 0; 65] /\
    _read unplugged = Some (false, s') /\
    _lastresult (dev s') = false /\
    data (dev s') = [0; 0; 0; 0; 0].
Proof.
  exists (after_attempt unplugged). repeat split; vm_compute; reflexivity.
Qed.

(** C6, amended: a hardware attempt that ends in failure sets
    [_lastresult] to failure, and the buffer then holds what this attempt
    wrote into the zeroed buffer: nothing when the acknowledgement timed
    out, else the bits shifted in before the first missing pulse, which is
    the whole received frame on a checksum mismatch.  The bytes of an
    earlier run are not kept. *)
Theorem failed_attempt_rewrites_frame (s s' : Sys) :
  wf_dev (dev s) ->
  due s = true ->
  _read s = Some (false, s') ->
  _lastresult (dev s') = false /\
  data (dev s') =
  match sampled s with
  | Some cycles => fst (decode_pure 40 0 cycles [0; 0; 0; 0; 0])
  | None => [0; 0; 0; 0; 0]
  end.
Proof.
  intros Hwf Hdue. rewrite (_read_due s Hwf Hdue).
  intros [= Hr <-]. rewrite after_attempt_dev. cbn [_lastresult data].
  split; [exact Hr|].
  destruct (sampled s) as [cycles|] eqn:E.
  - rewrite (attempt_sampled s cycles E). reflexivity.
  - rewrite (attempt_unsampled s E). reflexivity.
Qed.

Lemma failed_attempt_rewrites_frame_witness :
  wf_dev (dev garbled) /\
  due garbled = true /\
  _read garbled = Some (false, after_attempt garbled) /\
  _lastresult (dev (after_attempt garbled)) = false /\
  data (dev (after_attempt garbled)) =
  match sampled garbled with
  | Some cycles => fst (decode_pure 40 0 cycles [0; 0; 0; 0; 0])
  | None => [0; 0; 0; 0; 0]
  end.
Proof.
  assert (H1 : wf_dev (dev garbled)) by bench_wf.
  assert (H2 : due garbled = true) by (vm_compute; reflexivity).
  assert (H3 : _read garbled = Some (false, after_attempt garbled))
    by (rewrite (_read_due garbled H1 H2); vm_compute; reflexivity).
  exact (conj H1 (conj H2 (conj H3
           (failed_attempt_rewrites_frame garbled (after_attempt garbled) H1 H2 H3)))).
Defined.

(** A call answered from the cache, in contrast, changes nothing in the
    driver. *)
Lemma cached_read_keeps_driver (s : Sys) :
  due s = false ->
  exists s' : Sys,
    _read s = Some (_lastresult (dev s), s') /\ dev s' = dev s /\
    polls (hw s') = polls (hw s) /\ log (hw s') = log (hw s).
Proof.
  intros H. rewrite (_read_cached s H). exists (after_cached s).
  repeat split; reflexivity.
Qed.

(** ** The retry loop *)

Lemma count_delays_app (ms : Z) (l1 l2 : list Event) :
  count_delays ms (l1 ++ l2) = (count_delays ms l1 + count_delays ms l2)%nat.
Proof.
  induction l1 as [|e l1 IH]; [reflexivity|].
  destruct e; cbn; try exact IH.
  destruct (ms0 =? ms); cbn; rewrite IH; reflexivity.
Qed.

Lemma _read_delays (s s' : Sys) (r : bool) :
  wf_dev (dev s) ->
  _read s = Some (r, s') ->
  count_delays 100 (log (hw s')) = count_delays 100 (log (hw s)).
Proof.
  intros Hwf. destruct (due s) eqn:D.
  - rewrite (_read_due s Hwf D). intros [= _ <-].
    rewrite after_attempt_log, count_delays_app. reflexivity.
  - rewrite (_read_cached s D). intros [= _ <-]. reflexivity.
Qed.

Lemma failing_rounds_count (k : nat) :
  forall s s' : Sys,
    wf_dev (dev s) ->
    failing_rounds k s = Some s' ->
    ticks (hw s') = (k + ticks (hw s))%nat /\
    count_delays 100 (log (hw s')) = (k + count_delays 100 (log (hw s)))%nat.
Proof.
  induction k as [|k IH]; intros s s' Hwf; cbn [failing_rounds].
  - intros [= <-]. split; reflexivity.
  - destruct (_read s) as [[[|] s1]|] eqn:E; try discriminate.
    destruct (_read_step s s1 false Hwf E) as (Hwf1 & Ht & _).
    pose proof (_read_delays s s1 false Hwf E) as Hd.
    cbn [delay emit]. intros Hk.
    apply IH in Hk; [|exact Hwf1].
    cbn [hw dev ticks log count_delays] in Hk.
    change (100 =? 100) with true in Hk. cbv iota in Hk.
    rewrite Ht, Hd in Hk. lia.
Qed.

Lemma retry_loop_failing (k : nat) :
  forall (fuel : nat) (count : Z) (s s' : Sys),
    (S k <= fuel)%nat ->
    count + Z.of_nat (S k) = 11 ->
    failing_rounds (S k) s = Some s' ->
    retry_loop fuel count s = Some (Some ERROR_READ, s').
Proof.
  induction k as [|k IH]; intros [|fuel] count s s' Hf Hc; try lia;
    cbn [failing_rounds retry_loop]; unfold bind at 1;
    destruct (_read s) as [[[|] s1]|]; try discriminate;
    cbn [negb delay emit]; unfold bind at 1; cbn [delay emit].
  - intros [= <-]. replace (count + 1) with 11 by lia. reflexivity.
  - intros Hk.
    destruct (Z.gtb_spec (count + 1) 10) as [G|G]; [lia|].
    apply IH; [lia | lia | exact Hk].
Qed.

(** Ten failures do not end the loop: an eleventh call is made, and its
    success is the wrapper's success. *)
Lemma retry_loop_eleventh (s s10 s11 : Sys) :
  failing_rounds 10 s = Some s10 ->
  _read s10 = Some (true, s11) ->
  retry_loop 11 0 s = Some (None, s11).
Proof.
  assert (G : forall (k : nat) (fuel : nat) (count : Z) (a b : Sys),
             (k < fuel)%nat -> count + Z.of_nat k <= 10 ->
             failing_rounds k a = Some b -> _read b = Some (true, s11) ->
             retry_loop fuel count a = Some (None, s11)).
  { induction k as [|k IH]; intros [|fuel] count a b Hf Hc; try lia;
      cbn [failing_rounds retry_loop]; unfold bind at 1.
    - intros [= <-] ->. reflexivity.
    - destruct (_read a) as [[[|] a1]|]; try discriminate.
      cbn [negb delay emit]; unfold bind at 1; cbn [delay emit].
      intros Hk Hb.
      destruct (Z.gtb_spec (count + 1) 10) as [G|G]; [lia|].
      apply (IH fuel (count + 1) _ b); [lia | lia | exact Hk | exact Hb]. }
  intros H10 H11. apply (G 10%nat 11%nat 0 s s10); [lia | lia | exact H10 | exact H11].
Qed.

(** C5, as the claim states it, fails: against an unplugged sensor every
    call of [_read] fails, and the wrapper gives up after 11 calls and 11
    delays of 100 ms, not after 10. *)
Lemma read_unplugged_makes_11_attempts :
  failing_rounds 11 unplugged = Some given_up /\
  read unplugged = Some ((ERROR_READ, "Error reading"%string), given_up) /\
  ticks (hw unplugged) = 0%nat /\
  ticks (hw given_up) = 11%nat /\
  count_delays 100 (log (hw given_up)) = 11%nat.
Proof.
  assert (E : failing_rounds 11 unplugged = Some given_up)
    by (vm_compute; reflexivity).
  split; [exact E|]. split.
  - unfold read. unfold bind at 1.
    rewrite (retry_loop_failing 10 11 0 unplugged given_up);
      [reflexivity | lia | lia | exact E].
  - repeat split; vm_compute; reflexivity.
Qed.

(** C5, amended: when [_read] fails at each of its calls, [read] and
    [readAll] call it exactly 11 times, wait 100 ms after each of the 11
    failures, and then return [ERROR_READ], leaving "Error reading" in the
    string. *)
Theorem read_gives_up_after_11 `{ArduinoCore} (s s' : Sys) :
  wf_dev (dev s) ->
  failing_rounds 11 s = Some s' ->
  read s = Some ((ERROR_READ, "Error reading"%string), s') /\
  readAll s = Some ((ERROR_READ, "Error reading"%string), s') /\
  ticks (hw s') = (11 + ticks (hw s))%nat /\
  count_delays 100 (log (hw s')) = (11 + count_delays 100 (log (hw s)))%nat.
Proof.
  intros Hwf E.
  assert (L : retry_loop 11 0 s = Some (Some ERROR_READ, s'))
    by (apply (retry_loop_failing 10); [lia | lia | exact E]).
  split; [unfold read, bind; rewrite L; reflexivity|].
  split; [unfold readAll, bind; rewrite L; reflexivity|].
  exact (failing_rounds_count 11 s s' Hwf E).
Qed.

Lemma read_gives_up_after_11_witness :
  wf_dev (dev unplugged) /\
  failing_rounds 11 unplugged = Some given_up /\
  read unplugged = Some ((ERROR_READ, "Error reading"%string), given_up) /\
  readAll unplugged = Some ((ERROR_READ, "Error reading"%string), given_up) /\
  ticks (hw given_up) = (11 + ticks (hw unplugged))%nat /\
  count_delays 100 (log (hw given_up)) =
  (11 + count_delays 100 (log (hw unplugged)))%nat.
Proof.
  assert (H1 : wf_dev (dev unplugged)) by bench_wf.
  assert (H2 : failing_rounds 11 unplugged = Some given_up)
    by (vm_compute; reflexivity).
  exact (conj H1 (conj H2 (read_gives_up_after_11 unplugged given_up H1 H2))).
Defined.

(** ** The first call after [begin] *)

(** The constructor leaves a well-formed driver whose timestamp is
    [MIN_INTERVAL] before 0, modulo [2 ^ 32]. *)
Lemma Dht11_new_spec `{ArduinoCore} (s : Sys) :
  exists s1 : Sys,
    Dht11_new s = Some (tt, s1) /\
    wf_dev (dev s1) /\
    _lastreadtime (dev s1) = 2 ^ 32 - MIN_INTERVAL /\
    _lastresult (dev s1) = _lastresult (dev s) /\
    data (dev s1) = data (dev s).
Proof.
  eexists. split; [reflexivity|]. fields.
  split; [apply u32_range|]. repeat split; reflexivity.
Qed.

(** After [begin], the rate limiter lets a call through exactly when the
    clock is not within its last [MIN_INTERVAL] milliseconds before
    wrapping around. *)
Lemma due_after_begin (s s1 : Sys) :
  begin s = Some (tt, s1) ->
  due s1 = (now s1 <? 2 ^ 32 - MIN_INTERVAL).
Proof.
  unfold begin, bind, pinMode, emit, set_lastreadtime, modify_dev.
  intros [= <-]. unfold due, now. fields.
  pose proof (u32_range (clock (hw s) (ticks (hw s)))) as R.
  set (t := u32 (clock (hw s) (ticks (hw s)))) in *.
  change MIN_INTERVAL with 2000. unfold u32.
  change (- 2000 mod 2 ^ 32) with (2 ^ 32 - 2000).
  destruct (Z.ltb_spec t (2 ^ 32 - 2000)) as [L|L].
  - rewrite <- (Z.mod_unique_pos (t - (2 ^ 32 - 2000)) (2 ^ 32) (-1) (t + 2000)) by lia.
    apply negb_true_iff, Z.ltb_ge. lia.
  - rewrite Z.mod_small by lia.
    apply negb_false_iff, Z.ltb_lt. lia.
Qed.

(** C7 fails on the code: constructed while [millis()] is 4294967295, one
    tick before it wraps, the driver answers its very first [_read] from
    the cache.  The wrapping difference is 1999, no pin is written or
    polled, and the call reports as a success the uninitialised
    [_lastresult] and frame that the storage held. *)
Lemma first_read_at_clock_wrap_is_cached :
  exists s1 s2 : Sys,
    Dht11_new at_wrap = Some (tt, s1) /\
    _lastreadtime (dev s1) = 2 ^ 32 - 2000 /\
    now s1 = 2 ^ 32 - 1 /\
    u32 (now s1 - _lastreadtime (dev s1)) = 1999 /\
    due s1 = false /\
    _read s1 = Some (_lastresult (dev at_wrap), s2) /\
    polls (hw s2) = 0%nat /\
    log (hw s2) = [EvPinMode INPUT_PULLUP] /\
    data (dev s2) = data (dev at_wrap).
Proof.
  pose (s1 := upd at_wrap (mkDht11 80000 (2 ^ 32 - 2000) true good_frame)
                0 0 [EvPinMode INPUT_PULLUP]).
  exists s1, (after_cached s1).
  repeat split; vm_compute; reflexivity.
Qed.

(** No initial timestamp could do better: whatever [_lastreadtime] holds,
    a call made when the clock shows that very value is answered from the
    cache. *)
Lemma no_timestamp_forces_attempt (s : Sys) :
  is_u32 (_lastreadtime (dev s)) ->
  now s = _lastreadtime (dev s) ->
  due s = false.
Proof.
  intros _ E. unfold due. rewrite E, Z.sub_diag. reflexivity.
Qed.

(** Away from the wrap the first call does run a hardware attempt. *)
Lemma first_read_after_begin_is_due (s s1 : Sys) :
  begin s = Some (tt, s1) ->
  now s1 < 2 ^ 32 - MIN_INTERVAL ->
  due s1 = true.
Proof.
  intros Hb Ht. rewrite (due_after_begin s s1 Hb). apply Z.ltb_lt. exact Ht.
Qed.

(** ** Accessors *)

Lemma nth_set_nth_other (v : Z) (l : list Z) :
  forall i j : nat, i <> j -> nth j (set_nth i v l) 0 = nth j l 0.
Proof.
  induction l as [|h t IH]; intros [|i] [|j] H; cbn; try reflexivity; try lia.
  apply IH. lia.
Qed.

(** Every byte, and every whole percentage, is in its list. *)
Lemma in_range (n : nat) (z : Z) :
  0 <= z < Z.of_nat n -> In z (map Z.of_nat (seq 0 n)).
Proof.
  intros H. rewrite <- (Z2Nat.id z) by lia.
  apply in_map, in_seq. lia.
Qed.

Lemma for_bytes (P : Z -> bool) :
  forallb P bytes = true -> forall c : Z, 0 <= c <= 255 -> P c = true.
Proof.
  intros H c Hc. apply (proj1 (forallb_forall P bytes) H).
  apply (in_range 256). lia.
Qed.

Lemma for_percents (P : Z -> bool) :
  forallb P percents = true -> forall h : Z, 0 <= h <= 100 -> P h = true.
Proof.
  intros H h Hh. apply (proj1 (forallb_forall P percents) H).
  apply (in_range 101). lia.
Qed.

Lemma accessor_bytes :
  forallb (fun c =>
    Qle_bool (Qabs (to_Q (convertCtoF (float_of_Z c)) - (inject_Z c * (18 # 10) + 32)))
      (1 # 65536)
    && Qeq_bool (to_Q (float_of_Z c)) (inject_Z c)) bytes = true.
Proof. vm_compute. reflexivity. Qed.

(** C10: [readTemperature] returns [convertCtoF] of byte 2 of the frame,
    which is that byte converted to degrees Fahrenheit: a float within
    [2 ^ -16] of [data[2] * 1.8 + 32] on exact numbers; [readHumidity]
    returns byte 0, as the float of exactly that value.  Neither changes
    the state, and neither result depends on the fraction bytes 1 and
    3. *)
Theorem accessors_use_integer_bytes (s : Sys) (f1 f3 : Z) :
  is_u8 (cell (data (dev s)) 2) ->
  is_u8 (cell (data (dev s)) 0) ->
  (exists t h : float,
     readTemperature s = Some (t, s) /\
     readHumidity s = Some (h, s) /\
     (Qabs (to_Q t - (inject_Z (cell (data (dev s)) 2) * (18 # 10) + 32)) <= 1 # 65536)%Q /\
     (to_Q h == inject_Z (cell (data (dev s)) 0))%Q) /\
  readTemperature s = Some (convertCtoF (float_of_Z (cell (data (dev s)) 2)), s) /\
  readHumidity s = Some (float_of_Z (cell (data (dev s)) 0), s) /\
  let d := dev s in
  let s' := mkSys (mkDht11 (_maxcycles d) (_lastreadtime d) (_lastresult d)
                     (set_nth 3 f3 (set_nth 1 f1 (data d)))) (hw s) in
  option_map fst (readTemperature s') = option_map fst (readTemperature s) /\
  option_map fst (readHumidity s') = option_map fst (readHumidity s).
Proof.
  intros H2 H0. unfold is_u8 in H2, H0.
  split.
  { exists (convertCtoF (float_of_Z (cell (data (dev s)) 2))),
           (float_of_Z (cell (data (dev s)) 0)).
    split; [reflexivity|]. split; [reflexivity|].
    pose proof (for_bytes _ accessor_bytes (cell (data (dev s)) 2) ltac:(lia)) as B2.
    pose proof (for_bytes _ accessor_bytes (cell (data (dev s)) 0) ltac:(lia)) as B0.
    cbv beta in B2, B0.
    apply andb_true_iff in B2 as [B2 _]. apply andb_true_iff in B0 as [_ B0].
    split; [apply Qle_bool_iff; exact B2 | apply Qeq_bool_iff; exact B0]. }
  split; [reflexivity|]. split; [reflexivity|].
  cbv zeta. unfold readTemperature, readHumidity, bind, gets, ret.
  cbn [dev data option_map fst]. unfold cell.
  rewrite !nth_set_nth_other by (cbn; lia).
  split; reflexivity.
Qed.

Lemma accessors_use_integer_bytes_witness :
  is_u8 (cell (data (dev stale)) 2) /\
  is_u8 (cell (data (dev stale)) 0) /\
  (exists t h : float,
     readTemperature stale = Some (t, stale) /\
     readHumidity stale = Some (h, stale) /\
     (Qabs (to_Q t - (inject_Z (cell (data (dev stale)) 2) * (18 # 10) + 32))
      <= 1 # 65536)%Q /\
     (to_Q h == inject_Z (cell (data (dev stale)) 0))%Q) /\
  readTemperature stale =
    Some (convertCtoF (float_of_Z (cell (data (dev stale)) 2)), stale) /\
  readHumidity stale = Some (float_of_Z (cell (data (dev stale)) 0), stale) /\
  let d := dev stale in
  let s' := mkSys (mkDht11 (_maxcycles d) (_lastreadtime d) (_lastresult d)
                     (set_nth 3 99 (set_nth 1 98 (data d)))) (hw stale) in
  option_map fst (readTemperature s') = option_map fst (readTemperature stale) /\
  option_map fst (readHumidity s') = option_map fst (readHumidity stale).
Proof.
  assert (H1 : is_u8 (cell (data (dev stale)) 2))
    by (vm_compute; split; discriminate || reflexivity).
  assert (H2 : is_u8 (cell (data (dev stale)) 0))
    by (vm_compute; split; discriminate || reflexivity).
  exact (conj H1 (conj H2 (accessors_use_integer_bytes stale 98 99 H1 H2))).
Defined.

Example readTemperature_answering :
  exists s', _read answering = Some (true, s') /\
    readTemperature s' = Some (float_of_Z 77, s') /\
    readHumidity s' = Some (float_of_Z 40, s').
Proof.
  exists (after_attempt answering). repeat split; vm_compute; reflexivity.
Qed.

(** ** Every frame can arrive

    The scenes are not special: a sensor that sends any five bytes makes
    [_read] see them. *)

Lemma wire_app (pre : list bool) (x : bool) (post : list bool) :
  wire (pre ++ x :: post) (length pre) = x.
Proof. unfold wire. rewrite nth_middle. reflexivity. Qed.

Lemma first_off_pulse_trace (level : bool) (c : nat) :
  forall (pre post : list bool) (n : nat),
    (c < n)%nat ->
    first_off (wire (pre ++ pulse_trace level c ++ post)) level (length pre) n = Some c.
Proof.
  unfold pulse_trace.
  induction c as [|c IH]; intros pre post [|n] Hn; try lia.
  - cbn [repeat app first_off]. rewrite wire_app.
    destruct level; reflexivity.
  - cbn [repeat app first_off]. rewrite wire_app, eqb_reflx.
    replace (pre ++ level :: (repeat level c ++ [negb level]) ++ post)
      with ((pre ++ [level]) ++ (repeat level c ++ [negb level]) ++ post)
      by (rewrite <- app_assoc; reflexivity).
    replace (S (length pre)) with (length (pre ++ [level]))
      by (rewrite length_app; cbn; lia).
    rewrite IH by lia. reflexivity.
Qed.

Lemma pulse_on_trace (level : bool) (c : nat) (maxc : Z) (pre post : list bool) :
  Z.of_nat c <= maxc ->
  pulse (wire (pre ++ pulse_trace level c ++ post)) maxc level (length pre) =
  (Z.of_nat c, length (pre ++ pulse_trace level c)).
Proof.
  intros H. unfold pulse. rewrite first_off_pulse_trace by lia.
  f_equal. unfold pulse_trace. rewrite !length_app, repeat_length. cbn. lia.
Qed.

Lemma pulse_pairs_on_trace (maxc : Z) (bits : list bool) :
  5 <= maxc ->
  forall pre post : list bool,
    pulse_pairs (wire (pre ++ flat_map bit_trace bits ++ post)) maxc
      (length pre) (length bits) =
    (flat_map bit_cycles bits, length (pre ++ flat_map bit_trace bits)).
Proof.
  intros Hm. induction bits as [|b bits IH]; intros pre post.
  - cbn. rewrite app_nil_r. reflexivity.
  - set (l := pre ++ flat_map bit_trace (b :: bits) ++ post).
    set (k := (if b then 5 else 2)%nat).
    set (pre1 := pre ++ pulse_trace LOW 3).
    set (pre2 := pre1 ++ pulse_trace HIGH k).
    assert (E1 : l = pre ++ pulse_trace LOW 3 ++
                       (pulse_trace HIGH k ++ flat_map bit_trace bits ++ post)).
    { unfold l, bit_trace, k. cbn [flat_map]. unfold bit_trace.
      rewrite <- !app_assoc. reflexivity. }
    assert (E2 : l = pre1 ++ pulse_trace HIGH k ++ (flat_map bit_trace bits ++ post))
      by (rewrite E1; unfold pre1; rewrite <- !app_assoc; reflexivity).
    assert (E3 : l = pre2 ++ flat_map bit_trace bits ++ post)
      by (rewrite E2; unfold pre2; rewrite <- !app_assoc; reflexivity).
    assert (P1 : pulse (wire l) maxc LOW (length pre) = (3, length pre1))
      by (rewrite E1; apply (pulse_on_trace LOW 3); lia).
    assert (P2 : pulse (wire l) maxc HIGH (length pre1) = (Z.of_nat k, length pre2))
      by (rewrite E2; apply pulse_on_trace; unfold k; destruct b; lia).
    assert (P3 : pulse_pairs (wire l) maxc (length pre2) (length bits) =
                 (flat_map bit_cycles bits, length (pre2 ++ flat_map bit_trace bits)))
      by (rewrite E3; apply IH).
    cbn [length pulse_pairs]. rewrite P1, P2, P3.
    cbn [flat_map bit_cycles app]. f_equal.
    + unfold k. destruct b; reflexivity.
    + unfold pre2, pre1, bit_trace, k. rewrite <- !app_assoc. reflexivity.
Qed.

Lemma sampled_sensor (frame : list Z) :
  length frame = 5%nat ->
  sampled (sensor frame) = Some (flat_map bit_cycles (flat_map byte_bits frame)).
Proof.
  intros Hlen. unfold sampled, sensor, board, dht. fields.
  set (bits := flat_map byte_bits frame).
  assert (L : length bits = 40%nat).
  { unfold bits.
    destruct frame as [|b0 [|b1 [|b2 [|b3 [|b4 [|]]]]]]; try discriminate Hlen.
    reflexivity. }
  set (l := frame_trace frame).
  set (pre1 := [] ++ pulse_trace LOW 4).
  set (pre2 := pre1 ++ pulse_trace HIGH 4).
  assert (E1 : l = [] ++ pulse_trace LOW 4 ++
                     (pulse_trace HIGH 4 ++ flat_map bit_trace bits))
    by reflexivity.
  assert (E2 : l = pre1 ++ pulse_trace HIGH 4 ++ flat_map bit_trace bits)
    by reflexivity.
  assert (E3 : l = pre2 ++ flat_map bit_trace bits ++ [])
    by (rewrite app_nil_r, E2; unfold pre2; rewrite <- !app_assoc; reflexivity).
  assert (P1 : pulse (wire l) 80000 LOW 0 = (4, length pre1))
    by (rewrite E1; apply (pulse_on_trace LOW 4 80000 []); lia).
  assert (P2 : pulse (wire l) 80000 HIGH (length pre1) = (4, length pre2))
    by (rewrite E2; apply (pulse_on_trace HIGH 4); lia).
  assert (P3 : pulse_pairs (wire l) 80000 (length pre2) 40 =
               (flat_map bit_cycles bits, length (pre2 ++ flat_map bit_trace bits)))
    by (rewrite E3, <- L; apply pulse_pairs_on_trace; lia).
  rewrite P1. cbn [Z.eqb]. rewrite P2. cbn [Z.eqb]. rewrite P3. reflexivity.
Qed.

Lemma bit_cycles_nth (bits : list bool) :
  forall i : nat,
    (i < length bits)%nat ->
    nth (2 * i) (flat_map bit_cycles bits) 0 = 3 /\
    nth (2 * i + 1) (flat_map bit_cycles bits) 0 = (if nth i bits false then 5 else 2).
Proof.
  induction bits as [|b bits IH]; intros [|i] Hi; cbn [length] in Hi; try lia.
  - split; reflexivity.
  - replace (2 * S i)%nat with (S (S (2 * i))) by lia.
    replace (S (S (2 * i)) + 1)%nat with (S (S (2 * i + 1))) by lia.
    cbn [flat_map bit_cycles app nth]. apply IH. lia.
Qed.

Lemma bit_cycles_nonzero (bits : list bool) :
  Forall (fun c => c <> 0) (flat_map bit_cycles bits).
Proof.
  induction bits as [|b bits IH]; [constructor|].
  cbn [flat_map bit_cycles app].
  constructor; [discriminate|]. constructor; [destruct b; discriminate | exact IH].
Qed.

Lemma bit_at_cycles (bits : list bool) (i : Z) :
  0 <= i < Z.of_nat (length bits) ->
  bit_at (flat_map bit_cycles bits) i = nth (Z.to_nat i) bits false.
Proof.
  intros Hi. unfold bit_at, cell.
  destruct (bit_cycles_nth bits (Z.to_nat i) ltac:(lia)) as [E1 E2].
  replace (Z.to_nat (2 * i)) with (2 * Z.to_nat i)%nat by lia.
  replace (Z.to_nat (2 * i + 1)) with (2 * Z.to_nat i + 1)%nat by lia.
  rewrite E1, E2. destruct (nth (Z.to_nat i) bits false); reflexivity.
Qed.

Lemma frame_bits (b0 b1 b2 b3 b4 : Z) (k n : Z) :
  0 <= k < 5 -> 0 <= n < 8 ->
  nth (Z.to_nat (8 * k + 7 - n)) (flat_map byte_bits [b0; b1; b2; b3; b4]) false =
  Z.testbit (cell [b0; b1; b2; b3; b4] k) n.
Proof.
  intros Hk Hn.
  assert (Ck : k = 0 \/ k = 1 \/ k = 2 \/ k = 3 \/ k = 4) by lia.
  assert (Cn : n = 0 \/ n = 1 \/ n = 2 \/ n = 3 \/ n = 4 \/ n = 5 \/ n = 6 \/ n = 7) by lia.
  destruct Ck as [->|[->|[->|[->| ->]]]];
    destruct Cn as [->|[->|[->|[->|[->|[->|[->| ->]]]]]]]; reflexivity.
Qed.

Lemma byte_high_bits (a n : Z) : 0 <= a < 256 -> 8 <= n -> Z.testbit a n = false.
Proof.
  intros Ha Hn. rewrite <- (Z.mod_small a (2 ^ 8)) by exact Ha.
  apply Z.mod_pow2_bits_high. lia.
Qed.

(** Whatever five bytes the sensor sends, [_read] leaves exactly them in
    the buffer and accepts them exactly when the checksum byte fits. *)
Theorem every_frame_decodes (frame : list Z) :
  length frame = 5%nat ->
  Forall is_u8 frame ->
  exists s' : Sys,
    _read (sensor frame) = Some (checksum_ok frame, s') /\
    data (dev s') = frame /\
    _lastresult (dev s') = checksum_ok frame.
Proof.
  intros Hlen Hu8.
  assert (Hwf : wf_dev (dev (sensor frame))) by bench_wf.
  assert (Hdue : due (sensor frame) = true) by reflexivity.
  pose proof (sampled_sensor frame Hlen) as Hs.
  set (cycles := flat_map bit_cycles (flat_map byte_bits frame)) in *.
  pose proof (bit_cycles_nonzero (flat_map byte_bits frame)) as HF. fold cycles in HF.
  destruct (decode_zeros cycles (sampled_length _ _ Hs) HF) as (C & L & R & B).
  assert (E : fst (decode_pure 40 0 cycles [0; 0; 0; 0; 0]) = frame).
  { set (d := fst (decode_pure 40 0 cycles [0; 0; 0; 0; 0])) in *.
    apply (nth_ext _ _ 0 0); [congruence|].
    intros j Hj. rewrite L in Hj.
    assert (Hk : 0 <= Z.of_nat j < 5) by lia.
    assert (Rf : 0 <= nth j frame 0 < 256).
    { apply (proj1 (Forall_nth is_u8 frame) Hu8). lia. }
    specialize (R (Z.of_nat j) Hk). unfold cell in R. rewrite Nat2Z.id in R.
    apply Z.bits_inj'. intros n Hn.
    destruct (Z_lt_le_dec n 8) as [Hn8|Hn8].
    - specialize (B (8 * Z.of_nat j + 7 - n) ltac:(lia)).
      replace ((8 * Z.of_nat j + 7 - n) / 8) with (Z.of_nat j) in B
        by (apply (Z.div_unique _ 8 _ (7 - n)); lia).
      replace ((8 * Z.of_nat j + 7 - n) mod 8) with (7 - n) in B
        by (apply (Z.mod_unique _ 8 (Z.of_nat j)); lia).
      replace (7 - (7 - n)) with n in B by lia.
      unfold cell in B. rewrite Nat2Z.id in B. rewrite B.
      unfold cycles. rewrite bit_at_cycles.
      + destruct frame as [|b0 [|b1 [|b2 [|b3 [|b4 [|]]]]]]; try discriminate Hlen.
        rewrite (frame_bits b0 b1 b2 b3 b4 (Z.of_nat j) n) by lia.
        unfold cell. rewrite Nat2Z.id. reflexivity.
      + destruct frame as [|b0 [|b1 [|b2 [|b3 [|b4 [|]]]]]]; try discriminate Hlen.
        cbn [flat_map byte_bits map app length]. lia.
    - rewrite !byte_high_bits by lia. reflexivity. }
  exists (after_attempt (sensor frame)).
  rewrite (_read_due _ Hwf Hdue), after_attempt_dev, (attempt_sampled _ _ Hs).
  cbn [fst snd data _lastresult]. rewrite C, E. cbn [andb].
  repeat split; reflexivity.
Qed.

(** ** Checksum *)

(** C1: in an attempt whose 80 pulse samples are all non-zero, [_read]
    returns, stores its result in [_lastresult], and succeeds exactly when
    byte 4 of the decoded frame equals the sum of bytes 0 to 3 modulo 256;
    on a mismatch the result is the checksum failure, [false].  Every
    frame of five bytes is decoded this way when a sensor sends it. *)
Theorem read_succeeds_iff_checksum (s : Sys) (cycles frame : list Z) :
  wf_dev (dev s) ->
  due s = true ->
  sampled s = Some cycles ->
  Forall (fun c => c <> 0) cycles ->
  length frame = 5%nat ->
  Forall is_u8 frame ->
  (exists (r : bool) (s' : Sys),
     _read s = Some (r, s') /\
     _lastresult (dev s') = r /\
     let b := data (dev s') in
     (r = true <-> cell b 4 = (cell b 0 + cell b 1 + cell b 2 + cell b 3) mod 256)) /\
  (exists (r : bool) (s' : Sys),
     _read (sensor frame) = Some (r, s') /\
     _lastresult (dev s') = r /\
     data (dev s') = frame /\
     (r = true <->
      cell frame 4 = (cell frame 0 + cell frame 1 + cell frame 2 + cell frame 3) mod 256)).
Proof.
  intros Hwf Hdue Hs HF Hlen Hu8.
  assert (K : forall d : list Z,
             checksum_ok d = true <->
             cell d 4 = (cell d 0 + cell d 1 + cell d 2 + cell d 3) mod 256).
  { intros d. unfold checksum_ok. rewrite land_255. apply Z.eqb_eq. }
  split.
  - rewrite (_read_due s Hwf Hdue).
    eexists; eexists; split; [reflexivity|].
    rewrite after_attempt_dev, (attempt_sampled s cycles Hs).
    cbn [fst snd _lastresult data].
    destruct (decode_zeros cycles (sampled_length s cycles Hs) HF) as (C & _).
    rewrite C. cbn [andb]. split; [reflexivity|]. apply K.
  - destruct (every_frame_decodes frame Hlen Hu8) as (s' & R & D & L).
    exists (checksum_ok frame), s'.
    split; [exact R|]. split; [exact L|]. split; [exact D|]. apply K.
Qed.

Lemma read_succeeds_iff_checksum_witness :
  wf_dev (dev garbled) /\
  due garbled = true /\
  sampled garbled = Some garbled_cycles /\
  Forall (fun c => c <> 0) garbled_cycles /\
  length good_frame = 5%nat /\
  Forall is_u8 good_frame /\
  (exists (r : bool) (s' : Sys),
     _read garbled = Some (r, s') /\
     _lastresult (dev s') = r /\
     let b := data (dev s') in
     (r = true <-> cell b 4 = (cell b 0 + cell b 1 + cell b 2 + cell b 3) mod 256)) /\
  (exists (r : bool) (s' : Sys),
     _read (sensor good_frame) = Some (r, s') /\
     _lastresult (dev s') = r /\
     data (dev s') = good_frame /\
     (r = true <->
      cell good_frame 4 =
      (cell good_frame 0 + cell good_frame 1 + cell good_frame 2 + cell good_frame 3)
        mod 256)).
Proof.
  assert (H1 : wf_dev (dev garbled)) by bench_wf.
  assert (H2 : due garbled = true) by (vm_compute; reflexivity).
  assert (H3 : sampled garbled = Some garbled_cycles) by (vm_compute; reflexivity).
  assert (H4 : Forall (fun c => c <> 0) garbled_cycles)
    by (unfold garbled_cycles; repeat (constructor; [discriminate|]); constructor).
  assert (H5 : length good_frame = 5%nat) by reflexivity.
  assert (H6 : Forall is_u8 good_frame)
    by (unfold good_frame, is_u8; repeat (constructor; [lia|]); constructor).
  exact (conj H1 (conj H2 (conj H3 (conj H4 (conj H5 (conj H6
           (read_succeeds_iff_checksum garbled garbled_cycles good_frame
              H1 H2 H3 H4 H5 H6))))))).
Defined.
(** ** Rounding

    What round-to-nearest can do to a non-negative value: it moves it by
    at most one unit in the last place.  The upper bounds come first, the
    bounds on both sides after them. *)
Module Rounding.

Lemma pow2_pos (e : Z) : (0 < 2 ^ e)%Q.
Proof. apply Qpower_0_lt. reflexivity. Qed.

Lemma pow2_add (a b : Z) : (2 ^ (a + b) == 2 ^ a * 2 ^ b)%Q.
Proof. apply Qpower_plus. discriminate. Qed.

Lemma pow2_le (a b : Z) : a <= b -> (2 ^ a <= 2 ^ b)%Q.
Proof. intros H. apply Qpower_le_compat_l; [exact H | discriminate]. Qed.

Lemma pow2_lt_inv (a b : Z) : (2 ^ a < 2 ^ b)%Q -> a < b.
Proof. intros H. apply (Qpower_lt_compat_l_inv 2); [exact H | reflexivity]. Qed.

Lemma pow2_inject (n : Z) : 0 <= n -> (inject_Z (2 ^ n) == 2 ^ n)%Q.
Proof. intros H. rewrite Zpower_Qpower by exact H. reflexivity. Qed.

Lemma F2Q_nonneg (m e : Z) : 0 <= m -> (0 <= F2Q m e)%Q.
Proof.
  intros H. unfold F2Q. apply Qmult_le_0_compat.
  - rewrite Zle_Qle in H. exact H.
  - apply Qlt_le_weak, pow2_pos.
Qed.

Lemma F2Q_le (m m' e : Z) : m <= m' -> (F2Q m e <= F2Q m' e)%Q.
Proof.
  intros H. unfold F2Q. apply Qmult_le_compat_r.
  - rewrite Zle_Qle in H. exact H.
  - apply Qlt_le_weak, pow2_pos.
Qed.

Lemma F2Q_shift (m e k : Z) : 0 <= k -> (F2Q (m * 2 ^ k) (e - k) == F2Q m e)%Q.
Proof.
  intros H. unfold F2Q.
  rewrite inject_Z_mult, pow2_inject by exact H.
  replace e with ((e - k) + k) at 2 by lia.
  rewrite pow2_add. ring.
Qed.

Lemma F2Q_add (a b e : Z) : (F2Q (a + b) e == F2Q a e + F2Q b e)%Q.
Proof. unfold F2Q. rewrite inject_Z_plus. ring. Qed.

Lemma F2Q_mul (a b e f : Z) : (F2Q (a * b) (e + f) == F2Q a e * F2Q b f)%Q.
Proof. unfold F2Q. rewrite inject_Z_mult, pow2_add. ring. Qed.

(** Number of binary digits *)
Lemma digits2_size (m : positive) : digits2_pos m = Pos.size m.
Proof. induction m; cbn; congruence. Qed.

Lemma digits2_bounds (m : positive) :
  2 ^ (Zpos (digits2_pos m) - 1) <= Zpos m < 2 ^ Zpos (digits2_pos m).
Proof.
  rewrite digits2_size. split.
  - pose proof (Pos.size_le m) as H.
    assert (E : 2 ^ Zpos (Pos.size m) = 2 * 2 ^ (Zpos (Pos.size m) - 1)).
    { rewrite <- Z.pow_succ_r by lia. f_equal. lia. }
    assert (G : 2 ^ Zpos (Pos.size m) <= 2 * Zpos m).
    { change 2 with (Zpos 2) at 1. rewrite <- Pos2Z.inj_pow.
      change (Zpos 2 * Zpos m) with (Zpos m~0). exact H. }
    lia.
  - pose proof (Pos.size_gt m) as H.
    change 2 with (Zpos 2). rewrite <- Pos2Z.inj_pow. exact H.
Qed.

Lemma Zdigits2_nonneg (m : Z) : 0 <= Zdigits2 m.
Proof. destruct m; cbn; lia. Qed.

(** A value below [2 ^ k] has at most [k] digits above its exponent. *)
Lemma digits_le (m : positive) (e k : Z) :
  (F2Q (Zpos m) e < 2 ^ k)%Q -> Zpos (digits2_pos m) + e <= k.
Proof.
  intros H.
  assert (L : (2 ^ (Zpos (digits2_pos m) - 1 + e) <= F2Q (Zpos m) e)%Q).
  { rewrite pow2_add. unfold F2Q. apply Qmult_le_compat_r.
    - rewrite <- pow2_inject by lia. rewrite <- Zle_Qle.
      apply digits2_bounds.
    - apply Qlt_le_weak, pow2_pos. }
  assert (G : (2 ^ (Zpos (digits2_pos m) - 1 + e) < 2 ^ k)%Q)
    by (eapply Qle_lt_trans; eassumption).
  apply pow2_lt_inv in G. lia.
Qed.

(** Shifting right *)
Lemma shr_1_m (mrs : shr_record) :
  0 <= shr_m mrs -> shr_m (shr_1 mrs) = shr_m mrs / 2.
Proof.
  destruct mrs as [m r s]. cbn [shr_m]. intros H.
  rewrite <- Z.div2_div.
  destruct m as [|[p|p|]|p]; try reflexivity; lia.
Qed.

Lemma iter_shr_m (p : positive) :
  forall mrs : shr_record,
    0 <= shr_m mrs ->
    shr_m (iter_pos shr_1 p mrs) = shr_m mrs / 2 ^ Zpos p.
Proof.
  assert (P : forall k, 0 < 2 ^ Zpos k) by (intros k; apply Z.pow_pos_nonneg; lia).
  induction p as [p IH|p IH|]; intros mrs H; cbn [iter_pos].
  - assert (H1 : 0 <= shr_m (shr_1 mrs))
      by (rewrite shr_1_m by exact H; apply Z.div_pos; lia).
    assert (H2 : 0 <= shr_m (iter_pos shr_1 p (shr_1 mrs)))
      by (rewrite IH by exact H1; apply Z.div_pos; [exact H1 | apply P]).
    rewrite IH by exact H2. rewrite IH by exact H1. rewrite shr_1_m by exact H.
    rewrite !Z.div_div by (try apply P; pose proof (P p); nia).
    f_equal. change (Zpos p~1) with (2 * Zpos p + 1).
    replace (2 * Zpos p + 1) with (1 + Zpos p + Zpos p) by lia.
    rewrite !Z.pow_add_r by lia. change (2 ^ 1) with 2. ring.
  - assert (H1 : 0 <= shr_m (iter_pos shr_1 p mrs))
      by (rewrite IH by exact H; apply Z.div_pos; [exact H | apply P]).
    rewrite IH by exact H1. rewrite IH by exact H.
    rewrite Z.div_div by (try apply P; pose proof (P p); nia).
    f_equal. change (Zpos p~0) with (2 * Zpos p).
    replace (2 * Zpos p) with (Zpos p + Zpos p) by lia.
    rewrite Z.pow_add_r by lia. reflexivity.
  - apply shr_1_m. exact H.
Qed.

Lemma shr_record_of_loc_m (m : Z) (l : location) :
  shr_m (shr_record_of_loc m l) = m.
Proof. destruct l as [|[| |]]; reflexivity. Qed.

Lemma round_nearest_even_bounds (m : Z) (l : location) :
  m <= round_nearest_even m l <= m + 1.
Proof.
  destruct l as [|[| |]]; cbn; try lia. destruct (Z.even m); lia.
Qed.

(** Dividing the mantissa down never raises the value. *)
Lemma F2Q_div (m e n : Z) :
  0 <= m -> 0 <= n -> (F2Q (m / 2 ^ n) (e + n) <= F2Q m e)%Q.
Proof.
  intros Hm Hn.
  rewrite <- (F2Q_shift (m / 2 ^ n) (e + n) n Hn).
  replace (e + n - n) with e by lia.
  apply F2Q_le. rewrite Z.mul_comm. apply Z.mul_div_le.
  apply Z.pow_pos_nonneg; lia.
Qed.

Lemma F2Q_one (e : Z) : (F2Q 1 e == 2 ^ e)%Q.
Proof. unfold F2Q. ring. Qed.

Lemma F2Q_ge_pow (m : positive) (e : Z) : (2 ^ e <= F2Q (Zpos m) e)%Q.
Proof. rewrite <- F2Q_one. apply F2Q_le. lia. Qed.

Lemma iter_xO (m d : positive) : Zpos (Pos.iter xO m d) = Zpos m * 2 ^ Zpos d.
Proof.
  induction d as [|d IH] using Pos.peano_ind.
  - cbn. lia.
  - rewrite Pos.iter_succ, Pos2Z.inj_succ, Z.pow_succ_r by lia.
    change (Zpos (Pos.iter xO m d)~0) with (2 * Zpos (Pos.iter xO m d)).
    rewrite IH. ring.
Qed.

(** Aligning to a lower exponent keeps the value. *)
Lemma shl_align_value (mx : positive) (ex ex' : Z) :
  (F2Q (Zpos (fst (shl_align mx ex ex'))) (snd (shl_align mx ex ex')) ==
   F2Q (Zpos mx) ex)%Q /\
  snd (shl_align mx ex ex') = Z.min ex ex'.
Proof.
  unfold shl_align. destruct (ex' - ex) as [|p|p] eqn:E; cbn [fst snd].
  - split; [reflexivity | lia].
  - split; [reflexivity | lia].
  - rewrite iter_xO. split; [|lia].
    replace ex' with (ex - Zpos p) by lia. apply F2Q_shift. lia.
Qed.

Lemma to_Q_nonneg (x : spec_float) : nonneg_float x -> (0 <= to_Q x)%Q.
Proof.
  destruct x as [s|s| |[|] m e]; cbn; try tauto; intros _; try lra.
  apply F2Q_nonneg. lia.
Qed.

(** *** A format

    [prec] bits of mantissa and exponents below [emax].  In the bounds, [k]
    limits the magnitude: the exact value plus one unit in the last place
    stays below [2 ^ k]. *)
Section Format.

Variables prec emax : Z.
Hypothesis prec_pos : 0 < prec.

(** The mantissa and exponent that [shr_fexp] leaves: nothing moves when
    the exponent is already at or above the canonical one, else the
    mantissa is divided down to it. *)
Lemma shr_fexp_m (m e : Z) (l : location) :
  0 <= m ->
  let n := fexp prec emax (Zdigits2 m + e) - e in
  let r := shr_fexp prec emax m e l in
  (n <= 0 -> fst r = shr_record_of_loc m l /\ snd r = e) /\
  (0 < n -> shr_m (fst r) = m / 2 ^ n /\ snd r = e + n).
Proof.
  intros H n r. subst r. unfold shr_fexp. fold n. unfold shr.
  destruct n as [|p|p] eqn:E; cbn [fst snd].
  - split; [intros _|lia]. split; reflexivity.
  - split; [lia|intros _]. rewrite iter_shr_m.
    + rewrite shr_record_of_loc_m. split; reflexivity.
    + rewrite shr_record_of_loc_m. exact H.
  - split; [intros _|lia]. split; reflexivity.
Qed.


Lemma binary_round_aux_settled (sx : bool) (mx ex : Z) :
  binary_round_aux prec emax sx mx ex loc_Exact =
  match fst (settled prec emax mx ex) with
  | Z0 => S754_zero sx
  | Zpos m =>
      if snd (settled prec emax mx ex) <=? emax - prec
      then S754_finite sx m (snd (settled prec emax mx ex))
      else S754_infinity sx
  | Zneg _ => S754_nan
  end.
Proof.
  unfold binary_round_aux, settled.
  destruct (shr_fexp prec emax mx ex loc_Exact) as [mrs' e'].
  destruct (shr_fexp prec emax _ e' loc_Exact) as [mrs'' e''].
  reflexivity.
Qed.


Lemma settled_bound (mx : positive) (ex : Z) :
  let d := fexp prec emax (Zpos (digits2_pos mx) + ex) in
  let m := fst (settled prec emax (Zpos mx) ex) in
  let e := snd (settled prec emax (Zpos mx) ex) in
  0 <= m /\
  (F2Q m e <= F2Q (Zpos mx) ex + 2 ^ d)%Q /\
  (0 < m -> e <= Z.max ex d \/ (2 ^ (prec - 1 + e) <= F2Q m e)%Q).
Proof.
  intros d m e. pose proof prec_pos as Hprec. subst m e. unfold settled.
  assert (Hd : 3 - emax - prec <= d) by (unfold d, fexp, emin; lia).
  pose proof (pow2_pos d) as Pd.
  destruct (shr_fexp_m (Zpos mx) ex loc_Exact ltac:(lia)) as [N1 S1].
  cbn [Zdigits2] in N1, S1. fold d in N1, S1.
  destruct (shr_fexp prec emax (Zpos mx) ex loc_Exact) as [mrs' e'].
  cbn [fst snd] in N1, S1.
  destruct (Z_le_gt_dec (d - ex) 0) as [C1|C1].
  - (* no shift *)
    destruct (N1 C1) as [-> ->]. cbn [shr_record_of_loc shr_m loc_of_shr_record round_nearest_even].
    destruct (shr_fexp_m (Zpos mx) ex loc_Exact ltac:(lia)) as [N2 _].
    cbn [Zdigits2] in N2. fold d in N2.
    destruct (shr_fexp prec emax (Zpos mx) ex loc_Exact) as [mrs'' e''].
    cbn [fst snd] in *. destruct (N2 C1) as [-> ->]. cbn [shr_record_of_loc shr_m].
    split; [lia|]. split; [lra|]. intros _. left. lia.
  - (* the mantissa is divided by [2 ^ (d - ex)] *)
    destruct (S1 ltac:(lia)) as [Eq Ee]. clear N1 S1.
    pose proof (round_nearest_even_bounds (shr_m mrs') (loc_of_shr_record mrs')) as Hr.
    set (m1 := round_nearest_even (shr_m mrs') (loc_of_shr_record mrs')) in *.
    assert (Hq : 0 <= shr_m mrs')
      by (rewrite Eq; apply Z.div_pos; [lia | apply Z.pow_pos_nonneg; lia]).
    assert (Hm1 : 0 <= m1) by lia.
    assert (He' : e' = d) by lia. clear Ee. subst e'.
    assert (V1 : (F2Q m1 d <= F2Q (Zpos mx) ex + 2 ^ d)%Q).
    { apply Qle_trans with (F2Q (shr_m mrs' + 1) d); [apply F2Q_le; lia|].
      rewrite F2Q_add, F2Q_one. apply Qplus_le_l.
      rewrite Eq. replace d with (ex + (d - ex)) at 2 by lia.
      apply F2Q_div; lia. }
    destruct (shr_fexp_m m1 d loc_Exact Hm1) as [N2 S2].
    destruct (shr_fexp prec emax m1 d loc_Exact) as [mrs'' e''].
    cbn [fst snd] in *.
    destruct (Z_le_gt_dec (fexp prec emax (Zdigits2 m1 + d) - d) 0) as [C2|C2].
    + destruct (N2 C2) as [-> ->]. cbn [shr_record_of_loc shr_m].
      split; [exact Hm1|]. split; [exact V1|]. intros _. left. lia.
    + destruct (S2 ltac:(lia)) as [Em Ee2]. clear N2 S2.
      set (n2 := fexp prec emax (Zdigits2 m1 + d) - d) in *.
      assert (Hm'' : 0 <= shr_m mrs'')
        by (rewrite Em; apply Z.div_pos; [lia | apply Z.pow_pos_nonneg; lia]).
      split; [exact Hm''|]. split.
      * eapply Qle_trans; [|exact V1]. rewrite Em, Ee2. apply F2Q_div; lia.
      * intros Hpos. right.
        destruct m1 as [|p1|p1]; [rewrite Z.div_0_l in Em by (apply Z.pow_nonzero; lia); lia | | lia].
        cbn [Zdigits2] in *.
        assert (En2 : n2 = Zpos (digits2_pos p1) - prec)
          by (unfold n2, fexp, emin in *; lia).
        pose proof (digits2_bounds p1) as [Hlo _].
        assert (Hge : 2 ^ (prec - 1) <= shr_m mrs'').
        { rewrite Em. apply Z.div_le_lower_bound; [apply Z.pow_pos_nonneg; lia|].
          rewrite <- Z.pow_add_r by lia.
          replace (n2 + (prec - 1)) with (Zpos (digits2_pos p1) - 1) by lia.
          exact Hlo. }
        rewrite pow2_add. unfold F2Q. apply Qmult_le_compat_r.
        -- rewrite <- pow2_inject by lia. rewrite <- Zle_Qle. exact Hge.
        -- apply Qlt_le_weak, pow2_pos.
Qed.


Lemma round_aux_upper (mx : positive) (ex k : Z) (B : Q) :
  k <= emax - prec ->
  (F2Q (Zpos mx) ex <= B)%Q ->
  (B + ulp_below prec emax k < 2 ^ k)%Q ->
  let r := binary_round_aux prec emax false (Zpos mx) ex loc_Exact in
  nonneg_float r /\
  (to_Q r <= B + ulp_below prec emax k)%Q /\
  (forall m e, r = S754_finite false m e ->
     e <= Z.max ex (Z.max (k - prec) (3 - emax - prec))).
Proof.
  intros Hk HB Hlt r. pose proof prec_pos as Hprec. subst r. unfold ulp_below in *.
  set (u := Z.max (k - prec) (3 - emax - prec)) in *.
  pose proof (pow2_pos u) as Pu.
  pose proof (F2Q_nonneg (Zpos mx) ex ltac:(lia)) as Hx.
  assert (Hd : fexp prec emax (Zpos (digits2_pos mx) + ex) <= u).
  { assert (D : Zpos (digits2_pos mx) + ex <= k) by (apply digits_le; lra).
    unfold fexp, emin, u. lia. }
  destruct (settled_bound mx ex) as (Hm & Hv & He).
  rewrite binary_round_aux_settled.
  set (m := fst (settled prec emax (Zpos mx) ex)) in *.
  set (e := snd (settled prec emax (Zpos mx) ex)) in *.
  pose proof (pow2_le _ _ Hd) as Hd'.
  destruct m as [|p|p]; [| |lia].
  - cbn. split; [exact I|]. split; [lra | discriminate].
  - pose proof (F2Q_ge_pow p e) as Hp.
    assert (Hek : e < k) by (apply pow2_lt_inv; lra).
    destruct (Z.leb_spec e (emax - prec)) as [L|L]; [|lia].
    cbn [nonneg_float to_Q cond_Zopp]. split; [exact I|]. split; [lra|].
    intros m' e' [= <- <-].
    destruct (He ltac:(lia)) as [C|C].
    + fold u. lia.
    + assert (prec - 1 + e < k) by (apply pow2_lt_inv; lra). lia.
Qed.


Lemma binary_round_upper (mx : positive) (ex k : Z) (B : Q) :
  k <= emax - prec ->
  (F2Q (Zpos mx) ex <= B)%Q ->
  (B + ulp_below prec emax k < 2 ^ k)%Q ->
  let r := binary_round prec emax false mx ex in
  nonneg_float r /\
  (to_Q r <= B + ulp_below prec emax k)%Q /\
  (forall m e, r = S754_finite false m e ->
     e <= Z.max (k - prec) (3 - emax - prec)).
Proof.
  intros Hk HB Hlt r. pose proof prec_pos as Hprec. subst r. unfold binary_round.
  pose proof (shl_align_value mx ex (fexp prec emax (Zpos (digits2_pos mx) + ex)))
    as [Hv He].
  destruct (shl_align mx ex (fexp prec emax (Zpos (digits2_pos mx) + ex)))
    as [mz ez]. cbn [fst snd] in Hv, He.
  assert (Hz : (F2Q (Zpos mz) ez <= B)%Q) by (rewrite Hv; exact HB).
  destruct (round_aux_upper mz ez k B Hk Hz Hlt) as (N & V & E).
  split; [exact N|]. split; [exact V|].
  intros m e Hr. specialize (E m e Hr).
  assert (D : Zpos (digits2_pos mx) + ex <= k).
  { apply digits_le. unfold ulp_below in Hlt.
    pose proof (pow2_pos (Z.max (k - prec) (3 - emax - prec))). lra. }
  unfold fexp, emin in He. lia.
Qed.


Lemma mul_upper (x y : spec_float) (k : Z) (Bx By : Q) :
  k <= emax - prec ->
  nonneg_float x -> nonneg_float y ->
  (to_Q x <= Bx)%Q -> (to_Q y <= By)%Q ->
  (Bx * By + ulp_below prec emax k < 2 ^ k)%Q ->
  nonneg_float (SFmul prec emax x y) /\
  (to_Q (SFmul prec emax x y) <= Bx * By + ulp_below prec emax k)%Q.
Proof.
  intros Hk Nx Ny Hx Hy Hlt.
  pose proof (to_Q_nonneg x Nx) as Px. pose proof (to_Q_nonneg y Ny) as Py.
  assert (Pu : (0 < ulp_below prec emax k)%Q) by apply pow2_pos.
  assert (Pxy : (0 <= Bx * By)%Q) by (apply Qmult_le_0_compat; lra).
  destruct x as [sx|sx| |[|] mx ex]; try (cbn in Nx; tauto);
    destruct y as [sy|sy| |[|] my ey]; try (cbn in Ny; tauto);
    try (cbn; split; [exact I | lra]).
  cbn [SFmul xorb]. cbn [to_Q cond_Zopp] in Hx, Hy, Px, Py.
  assert (Hv : (F2Q (Zpos (mx * my)) (ex + ey) <= Bx * By)%Q).
  { rewrite Pos2Z.inj_mul, F2Q_mul.
    apply Qle_trans with (F2Q (Zpos mx) ex * By)%Q.
    - rewrite !(Qmult_comm (F2Q (Zpos mx) ex)). apply Qmult_le_compat_r; assumption.
    - apply Qmult_le_compat_r; [assumption | lra]. }
  destruct (round_aux_upper (mx * my) (ex + ey) k (Bx * By) Hk Hv Hlt) as (N & V & _).
  split; [exact N | exact V].
Qed.


Lemma add_upper (x y : spec_float) (k : Z) (Bx By : Q) :
  k <= emax - prec ->
  nonneg_float x -> nonneg_float y ->
  (to_Q x <= Bx)%Q -> (to_Q y <= By)%Q ->
  (Bx + By + ulp_below prec emax k < 2 ^ k)%Q ->
  nonneg_float (SFadd prec emax x y) /\
  (to_Q (SFadd prec emax x y) <= Bx + By + ulp_below prec emax k)%Q.
Proof.
  intros Hk Nx Ny Hx Hy Hlt.
  pose proof (to_Q_nonneg x Nx) as Px. pose proof (to_Q_nonneg y Ny) as Py.
  assert (Pu : (0 < ulp_below prec emax k)%Q) by apply pow2_pos.
  destruct x as [sx|sx| |[|] mx ex]; try (cbn in Nx; tauto);
    destruct y as [sy|sy| |[|] my ey]; try (cbn in Ny; tauto).
  - destruct sx, sy; cbn; (split; [exact I | lra]).
  - cbn [SFadd nonneg_float]. split; [exact I | lra].
  - cbn [SFadd nonneg_float]. split; [exact I | lra].
  - cbn [SFadd cond_Zopp]. cbn [to_Q cond_Zopp] in Hx, Hy, Px, Py.
    pose proof (shl_align_value mx ex (Z.min ex ey)) as [Vx Ex].
    pose proof (shl_align_value my ey (Z.min ex ey)) as [Vy Ey].
    rewrite Ex in Vx. rewrite Ey in Vy.
    replace (Z.min ex (Z.min ex ey)) with (Z.min ex ey) in Vx by lia.
    replace (Z.min ey (Z.min ex ey)) with (Z.min ex ey) in Vy by lia.
    set (a := fst (shl_align mx ex (Z.min ex ey))) in *.
    set (b := fst (shl_align my ey (Z.min ex ey))) in *.
    change (Zpos a + Zpos b) with (Zpos (a + b)). cbn [binary_normalize].
    assert (Hv : (F2Q (Zpos (a + b)) (Z.min ex ey) <= Bx + By)%Q).
    { rewrite Pos2Z.inj_add, F2Q_add, Vx, Vy. lra. }
    destruct (binary_round_upper (a + b) (Z.min ex ey) k (Bx + By) Hk Hv Hlt) as (N & V & _).
    split; [exact N | exact V].
Qed.

End Format.

(** *** Both sides

    Rounding to nearest never moves a value by more than one unit in the
    last place, in either direction. *)
Section Near.

Variables prec emax : Z.
Hypothesis prec_pos : 0 < prec.

(** The quotient that the first shift leaves has at most [prec] digits. *)
Lemma quotient_small (mx : positive) (ex : Z) :
  let d := fexp prec emax (Zpos (digits2_pos mx) + ex) in
  0 < d - ex ->
  Zpos mx / 2 ^ (d - ex) < 2 ^ prec.
Proof.
  intros d Hn. pose proof prec_pos as Hprec.
  pose proof (digits2_bounds mx) as [_ Hm].
  assert (Hd : Zpos (digits2_pos mx) <= d - ex + prec)
    by (unfold d, fexp; lia).
  apply Z.div_lt_upper_bound; [apply Z.pow_pos_nonneg; lia|].
  rewrite <- Z.pow_add_r by lia.
  apply Z.lt_le_trans with (1 := Hm).
  apply Z.pow_le_mono_r; lia.
Qed.

Lemma digits_small (m : Z) : 0 <= m < 2 ^ prec -> Zdigits2 m <= prec.
Proof.
  intros [H0 H1]. pose proof prec_pos as Hprec.
  destruct m as [|p|p]; cbn [Zdigits2]; try lia.
  pose proof (digits2_bounds p) as [Hlo _].
  assert (L : 2 ^ (Zpos (digits2_pos p) - 1) < 2 ^ prec) by lia.
  apply Z.pow_lt_mono_r_iff in L; lia.
Qed.

Lemma digits_pow : Zdigits2 (2 ^ prec) = prec + 1.
Proof.
  pose proof prec_pos as Hprec.
  assert (P : 0 < 2 ^ prec) by (apply Z.pow_pos_nonneg; lia).
  destruct (2 ^ prec) as [|p|p] eqn:E; try lia. cbn [Zdigits2].
  pose proof (digits2_bounds p) as [Hlo Hhi]. rewrite <- E in Hlo, Hhi.
  apply Z.pow_le_mono_r_iff in Hlo; [|lia|lia].
  apply Z.pow_lt_mono_r_iff in Hhi; lia.
Qed.

(** The value on which rounding settles: the exact one when the exponent
    is canonical already, else the truncated mantissa or its successor at
    the canonical exponent. *)
Lemma settled_value (mx : positive) (ex : Z) :
  let d := fexp prec emax (Zpos (digits2_pos mx) + ex) in
  let m := fst (settled prec emax (Zpos mx) ex) in
  let e := snd (settled prec emax (Zpos mx) ex) in
  (d <= ex -> m = Zpos mx /\ e = ex) /\
  (ex < d ->
   exists m1 : Z,
     Zpos mx / 2 ^ (d - ex) <= m1 <= Zpos mx / 2 ^ (d - ex) + 1 /\
     (F2Q m e == F2Q m1 d)%Q).
Proof.
  intros d m e. pose proof prec_pos as Hprec. subst m e. unfold settled.
  assert (Hd : 3 - emax - prec <= d) by (unfold d, fexp, emin; lia).
  destruct (shr_fexp_m prec emax (Zpos mx) ex loc_Exact ltac:(lia)) as [N1 S1].
  cbn [Zdigits2] in N1, S1. fold d in N1, S1.
  destruct (shr_fexp prec emax (Zpos mx) ex loc_Exact) as [mrs' e'].
  cbn [fst snd] in N1, S1.
  split.
  - intros C1. destruct (N1 ltac:(lia)) as [-> ->].
    cbn [shr_record_of_loc shr_m loc_of_shr_record round_nearest_even].
    destruct (shr_fexp_m prec emax (Zpos mx) ex loc_Exact ltac:(lia)) as [N2 _].
    cbn [Zdigits2] in N2. fold d in N2.
    destruct (shr_fexp prec emax (Zpos mx) ex loc_Exact) as [mrs'' e''].
    cbn [fst snd] in *. destruct (N2 ltac:(lia)) as [-> ->].
    split; reflexivity.
  - intros C1. destruct (S1 ltac:(lia)) as [Eq Ee]. clear N1 S1.
    pose proof (round_nearest_even_bounds (shr_m mrs') (loc_of_shr_record mrs')) as Hr.
    set (m1 := round_nearest_even (shr_m mrs') (loc_of_shr_record mrs')) in *.
    pose proof (quotient_small mx ex ltac:(fold d; lia)) as Hq. fold d in Hq.
    assert (Hq0 : 0 <= Zpos mx / 2 ^ (d - ex))
      by (apply Z.div_pos; [lia | apply Z.pow_pos_nonneg; lia]).
    rewrite Eq in Hr.
    assert (He' : e' = d) by lia. clear Ee. subst e'.
    exists m1. split; [exact Hr|].
    assert (Hm1 : 0 <= m1) by lia.
    destruct (shr_fexp_m prec emax m1 d loc_Exact Hm1) as [N2 S2].
    destruct (shr_fexp prec emax m1 d loc_Exact) as [mrs'' e''].
    cbn [fst snd] in *.
    destruct (Z_lt_le_dec m1 (2 ^ prec)) as [Lt|Ge].
    + pose proof (digits_small m1 ltac:(lia)) as Dg.
      destruct (N2 ltac:(unfold fexp, emin in *; lia)) as [-> ->].
      rewrite shr_record_of_loc_m. reflexivity.
    + assert (E1 : m1 = 2 ^ prec) by lia.
      assert (Dg : Zdigits2 m1 = prec + 1) by (rewrite E1; apply digits_pow).
      assert (En : fexp prec emax (Zdigits2 m1 + d) - d = 1)
        by (unfold fexp, emin in *; lia).
      destruct (S2 ltac:(lia)) as [Em Ee]. rewrite En in Em, Ee.
      rewrite Em, Ee, E1.
      replace (2 ^ prec) with (2 ^ (prec - 1) * 2 ^ 1)
        by (rewrite <- Z.pow_add_r by lia; f_equal; lia).
      rewrite Z.div_mul by discriminate.
      replace d with (d + 1 - 1) at 2 by lia.
      symmetry. apply F2Q_shift. lia.
Qed.

(** Rounding takes away less than one unit in the last place. *)
Lemma settled_lower (mx : positive) (ex : Z) :
  let d := fexp prec emax (Zpos (digits2_pos mx) + ex) in
  let m := fst (settled prec emax (Zpos mx) ex) in
  let e := snd (settled prec emax (Zpos mx) ex) in
  (F2Q (Zpos mx) ex - 2 ^ d <= F2Q m e)%Q.
Proof.
  intros d m e. pose proof (pow2_pos d) as Pd.
  destruct (settled_value mx ex) as [V1 V2]. fold d m e in V1, V2.
  destruct (Z_le_gt_dec d ex) as [C|C].
  - destruct (V1 C) as [-> ->]. lra.
  - destruct (V2 ltac:(lia)) as (m1 & [Hlo _] & ->).
    set (n := d - ex) in *.
    assert (Pn : 0 < 2 ^ n) by (apply Z.pow_pos_nonneg; lia).
    pose proof (Z.div_mod (Zpos mx) (2 ^ n) ltac:(lia)) as Hdm.
    pose proof (Z.mod_pos_bound (Zpos mx) (2 ^ n) Pn) as Hmod.
    assert (G : (F2Q (Zpos mx) ex <= F2Q (Zpos mx / 2 ^ n + 1) d)%Q).
    { rewrite <- (F2Q_shift (Zpos mx / 2 ^ n + 1) d n) by lia.
      replace (d - n) with ex by lia. apply F2Q_le. nia. }
    rewrite F2Q_add, F2Q_one in G.
    assert (L : (F2Q (Zpos mx / 2 ^ n) d <= F2Q m1 d)%Q) by (apply F2Q_le; exact Hlo).
    lra.
Qed.

(** Both sides: rounding moves a value by at most one unit in the last
    place of the numbers below [2 ^ k]. *)
Lemma round_aux_near (mx : positive) (ex k : Z) (L B : Q) :
  k <= emax - prec ->
  (L <= F2Q (Zpos mx) ex)%Q ->
  (F2Q (Zpos mx) ex <= B)%Q ->
  (B + ulp_below prec emax k < 2 ^ k)%Q ->
  let r := binary_round_aux prec emax false (Zpos mx) ex loc_Exact in
  nonneg_float r /\
  (L - ulp_below prec emax k <= to_Q r)%Q /\
  (to_Q r <= B + ulp_below prec emax k)%Q.
Proof.
  intros Hk HL HB Hlt r. pose proof prec_pos as Hprec.
  destruct (round_aux_upper prec emax prec_pos mx ex k B Hk HB Hlt) as (N & V & _).
  fold r in N, V. split; [exact N|]. split; [|exact V].
  unfold ulp_below in *.
  set (u := Z.max (k - prec) (3 - emax - prec)) in *.
  pose proof (pow2_pos u) as Pu.
  assert (Hd : fexp prec emax (Zpos (digits2_pos mx) + ex) <= u).
  { assert (D : Zpos (digits2_pos mx) + ex <= k) by (apply digits_le; lra).
    unfold fexp, emin, u. lia. }
  pose proof (pow2_le _ _ Hd) as Hd'.
  pose proof (settled_lower mx ex) as Hs. cbv zeta in Hs.
  subst r. rewrite binary_round_aux_settled in N |- *.
  set (m := fst (settled prec emax (Zpos mx) ex)) in *.
  set (e := snd (settled prec emax (Zpos mx) ex)) in *.
  destruct m as [|p|p].
  - assert (Z0 : (F2Q 0 e == 0)%Q)
      by (unfold F2Q; change (inject_Z 0) with 0%Q; ring).
    cbn [to_Q]. lra.
  - destruct (e <=? emax - prec); [|exfalso; exact N].
    cbn [to_Q cond_Zopp]. lra.
  - exfalso; exact N.
Qed.

Lemma binary_round_near (mx : positive) (ex k : Z) (L B : Q) :
  k <= emax - prec ->
  (L <= F2Q (Zpos mx) ex)%Q ->
  (F2Q (Zpos mx) ex <= B)%Q ->
  (B + ulp_below prec emax k < 2 ^ k)%Q ->
  let r := binary_round prec emax false mx ex in
  nonneg_float r /\
  (L - ulp_below prec emax k <= to_Q r)%Q /\
  (to_Q r <= B + ulp_below prec emax k)%Q.
Proof.
  intros Hk HL HB Hlt r. subst r. unfold binary_round.
  pose proof (shl_align_value mx ex (fexp prec emax (Zpos (digits2_pos mx) + ex)))
    as [Hv _].
  destruct (shl_align mx ex (fexp prec emax (Zpos (digits2_pos mx) + ex)))
    as [mz ez]. cbn [fst snd] in Hv.
  apply round_aux_near; try assumption; rewrite Hv; assumption.
Qed.

(** A product of non-negative numbers. *)
Lemma mul_near (x y : spec_float) (k : Z) (Lx Bx Ly By : Q) :
  k <= emax - prec ->
  nonneg_float x -> nonneg_float y ->
  (Lx <= to_Q x)%Q -> (to_Q x <= Bx)%Q ->
  (0 <= Ly)%Q -> (Ly <= to_Q y)%Q -> (to_Q y <= By)%Q ->
  (Bx * By + ulp_below prec emax k < 2 ^ k)%Q ->
  nonneg_float (SFmul prec emax x y) /\
  (Lx * Ly - ulp_below prec emax k <= to_Q (SFmul prec emax x y))%Q /\
  (to_Q (SFmul prec emax x y) <= Bx * By + ulp_below prec emax k)%Q.
Proof.
  intros Hk Nx Ny HLx HBx HLy0 HLy HBy Hlt.
  pose proof (to_Q_nonneg x Nx) as Px. pose proof (to_Q_nonneg y Ny) as Py.
  assert (Pu : (0 < ulp_below prec emax k)%Q) by apply pow2_pos.
  destruct (mul_upper prec emax prec_pos x y k Bx By Hk Nx Ny HBx HBy Hlt) as [N V].
  split; [exact N|]. split; [|exact V].
  assert (Lo : (Lx * Ly <= to_Q x * to_Q y)%Q).
  { apply Qle_trans with (to_Q x * Ly)%Q.
    - apply Qmult_le_compat_r; assumption.
    - rewrite !(Qmult_comm (to_Q x)). apply Qmult_le_compat_r; assumption. }
  destruct x as [sx|sx| |[|] mx ex]; try (cbn in Nx; tauto);
    destruct y as [sy|sy| |[|] my ey]; try (cbn in Ny; tauto);
    try (cbn [SFmul to_Q] in *; lra).
  cbn [SFmul xorb]. cbn [to_Q cond_Zopp] in *.
  assert (Hv : (F2Q (Zpos (mx * my)) (ex + ey) == F2Q (Zpos mx) ex * F2Q (Zpos my) ey)%Q)
    by (rewrite Pos2Z.inj_mul; apply F2Q_mul).
  assert (Hb : (F2Q (Zpos (mx * my)) (ex + ey) <= Bx * By)%Q).
  { rewrite Hv. apply Qle_trans with (F2Q (Zpos mx) ex * By)%Q.
    - rewrite !(Qmult_comm (F2Q (Zpos mx) ex)). apply Qmult_le_compat_r; assumption.
    - apply Qmult_le_compat_r; [assumption | lra]. }
  assert (Hl : (Lx * Ly <= F2Q (Zpos (mx * my)) (ex + ey))%Q) by (rewrite Hv; exact Lo).
  destruct (round_aux_near (mx * my) (ex + ey) k (Lx * Ly) (Bx * By) Hk Hl Hb Hlt)
    as (_ & W & _).
  exact W.
Qed.

(** A sum of non-negative numbers. *)
Lemma add_near (x y : spec_float) (k : Z) (Lx Bx Ly By : Q) :
  k <= emax - prec ->
  nonneg_float x -> nonneg_float y ->
  (Lx <= to_Q x)%Q -> (to_Q x <= Bx)%Q ->
  (Ly <= to_Q y)%Q -> (to_Q y <= By)%Q ->
  (Bx + By + ulp_below prec emax k < 2 ^ k)%Q ->
  nonneg_float (SFadd prec emax x y) /\
  (Lx + Ly - ulp_below prec emax k <= to_Q (SFadd prec emax x y))%Q /\
  (to_Q (SFadd prec emax x y) <= Bx + By + ulp_below prec emax k)%Q.
Proof.
  intros Hk Nx Ny HLx HBx HLy HBy Hlt.
  pose proof (to_Q_nonneg x Nx) as Px. pose proof (to_Q_nonneg y Ny) as Py.
  assert (Pu : (0 < ulp_below prec emax k)%Q) by apply pow2_pos.
  destruct (add_upper prec emax prec_pos x y k Bx By Hk Nx Ny HBx HBy Hlt) as [N V].
  split; [exact N|]. split; [|exact V].
  destruct x as [sx|sx| |[|] mx ex]; try (cbn in Nx; tauto);
    destruct y as [sy|sy| |[|] my ey]; try (cbn in Ny; tauto).
  - destruct sx, sy; cbn in *; lra.
  - cbn [SFadd to_Q cond_Zopp] in *. lra.
  - cbn [SFadd to_Q cond_Zopp] in *. lra.
  - cbn [SFadd cond_Zopp]. cbn [to_Q cond_Zopp] in *.
    pose proof (shl_align_value mx ex (Z.min ex ey)) as [Vx Ex].
    pose proof (shl_align_value my ey (Z.min ex ey)) as [Vy Ey].
    rewrite Ex in Vx. rewrite Ey in Vy.
    replace (Z.min ex (Z.min ex ey)) with (Z.min ex ey) in Vx by lia.
    replace (Z.min ey (Z.min ex ey)) with (Z.min ex ey) in Vy by lia.
    set (a := fst (shl_align mx ex (Z.min ex ey))) in *.
    set (b := fst (shl_align my ey (Z.min ex ey))) in *.
    change (Zpos a + Zpos b) with (Zpos (a + b)). cbn [binary_normalize].
    assert (Hv : (F2Q (Zpos (a + b)) (Z.min ex ey) ==
                  F2Q (Zpos mx) ex + F2Q (Zpos my) ey)%Q)
      by (rewrite Pos2Z.inj_add, F2Q_add, Vx, Vy; reflexivity).
    assert (Hb : (F2Q (Zpos (a + b)) (Z.min ex ey) <= Bx + By)%Q) by (rewrite Hv; lra).
    assert (Hl : (Lx + Ly <= F2Q (Zpos (a + b)) (Z.min ex ey))%Q) by (rewrite Hv; lra).
    destruct (binary_round_near (a + b) (Z.min ex ey) k (Lx + Ly) (Bx + By) Hk Hl Hb Hlt)
      as (_ & W & _).
    exact W.
Qed.

End Near.

End Rounding.

(** ** The heat index *)

Import Rounding.

Lemma to_double_upper (x : float) (k : Z) (B : Q) :
  k <= 971 ->
  nonneg_float x ->
  (to_Q x <= B)%Q ->
  (B + ulp_below 53 1024 k < 2 ^ k)%Q ->
  nonneg_float (to_double x) /\
  (to_Q (to_double x) <= B + ulp_below 53 1024 k)%Q.
Proof.
  intros Hk Nx Hx Hlt.
  pose proof (to_Q_nonneg x Nx) as Px.
  assert (Pu : (0 < ulp_below 53 1024 k)%Q) by apply pow2_pos.
  destruct x as [s|s| |[|] m e]; try (cbn in Nx; tauto).
  - cbn. split; [exact I | lra].
  - cbn [to_double]. cbn [to_Q cond_Zopp] in Hx.
    destruct (binary_round_upper 53 1024 ltac:(lia) m e k B ltac:(lia) Hx Hlt)
      as (N & V & _).
    split; [exact N | exact V].
Qed.

Lemma to_float_upper (x : double) (k : Z) (B : Q) :
  k <= 104 ->
  nonneg_float x ->
  (to_Q x <= B)%Q ->
  (B + ulp_below 24 128 k < 2 ^ k)%Q ->
  nonneg_float (to_float x) /\
  (to_Q (to_float x) <= B + ulp_below 24 128 k)%Q /\
  (forall m e, to_float x = S754_finite false m e -> e <= Z.max (k - 24) (-149)).
Proof.
  intros Hk Nx Hx Hlt.
  pose proof (to_Q_nonneg x Nx) as Px.
  assert (Pu : (0 < ulp_below 24 128 k)%Q) by apply pow2_pos.
  destruct x as [s|s| |[|] m e]; try (cbn in Nx; tauto).
  - cbn. split; [exact I|]. split; [lra | discriminate].
  - cbn [to_float]. cbn [to_Q cond_Zopp] in Hx.
    exact (binary_round_upper 24 128 ltac:(lia) m e k B ltac:(lia) Hx Hlt).
Qed.

(** A [float] between 0 and 100 is a zero or a positive finite number of
    value at most 100. *)
Lemma percent_value (h : float) :
  valid_binary 24 128 h = true ->
  fle (float_of_Z 0) h = true ->
  fle h (float_of_Z 100) = true ->
  nonneg_float h /\ (to_Q h <= 100)%Q.
Proof.
  intros Hv H0 H100.
  change (float_of_Z 0) with (S754_zero false) in H0.
  change (float_of_Z 100) with (S754_finite false 13107200 (-17)) in H100.
  destruct h as [s|s| |s m e].
  - cbn. split; [exact I | lra].
  - destruct s; [discriminate H0 | discriminate H100].
  - discriminate H0.
  - destruct s; [discriminate H0|].
    split; [exact I|]. cbn [to_Q cond_Zopp].
    cbn [valid_binary] in Hv. unfold bounded, canonical_mantissa in Hv.
    apply andb_prop in Hv. destruct Hv as [Hc _].
    apply Z.eqb_eq in Hc. unfold fexp, emin in Hc.
    pose proof (digits2_bounds m) as [_ Hm].
    assert (Hd : Zpos (digits2_pos m) <= 24) by lia.
    assert (Hm24 : Zpos m <= 2 ^ 24).
    { apply Z.lt_le_incl, Z.lt_le_trans with (1 := Hm).
      apply Z.pow_le_mono_r; lia. }
    assert (Hle : e < -17 \/ e = -17 /\ (m <= 13107200)%positive).
    { unfold fle, SFleb, SFcompare in H100.
      destruct (Z.compare_spec e (-17)) as [E|E|E]; [| |discriminate H100].
      - right. split; [exact E|].
        rewrite Pos.compare_cont_spec in H100. cbn [Pos.switch_Eq] in H100.
        destruct (Pos.compare_spec m 13107200) as [C|C|C];
          [rewrite C; apply Pos.le_refl
          | apply Pos.lt_le_incl; exact C
          | discriminate H100].
      - left. exact E. }
    clear H100.
    destruct Hle as [E|[-> E]].
    + apply Qle_trans with (F2Q (2 ^ 24) e); [apply F2Q_le; exact Hm24|].
      unfold F2Q. rewrite pow2_inject by lia. rewrite <- pow2_add.
      apply Qle_trans with (2 ^ 6)%Q; [apply pow2_le; lia|].
      vm_compute. discriminate.
    + assert (G : (F2Q (Zpos m) (-17) <= F2Q (Zpos 13107200) (-17))%Q)
        by (apply F2Q_le, Pos2Z.pos_le_pos; exact E).
      eapply Qle_trans; [exact G|]. vm_compute. discriminate.
Qed.

(** With a temperature of 70 and a humidity between 0 and 100 the simple
    formula stays below 74, whatever the five roundings add. *)
Lemma heat_simple_70_upper (h : float) :
  valid_binary 24 128 h = true ->
  fle (float_of_Z 0) h = true ->
  fle h (float_of_Z 100) = true ->
  let r := heat_simple (float_of_Z 70) h in
  nonneg_float r /\
  (to_Q r <= 74)%Q /\
  (forall m e, r = S754_finite false m e -> e <= -17).
Proof.
  intros Hv H0 H100 r. subst r.
  destruct (percent_value h Hv H0 H100) as [Nh Vh].
  unfold heat_simple.
  set (base := dadd (dadd (to_double (float_of_Z 70)) (lit 61 0))
                 (dmul (dsub (to_double (float_of_Z 70)) (lit 68 0)) (lit 12 1))).
  assert (Eb : base = S754_finite false 4693595236650189 (-45))
    by (vm_compute; reflexivity).
  (* the humidity as a double *)
  destruct (to_double_upper h 7 100 ltac:(lia) Nh Vh ltac:(vm_compute; reflexivity))
    as [N1 V1].
  assert (V1' : (to_Q (to_double h) <= 101)%Q).
  { eapply Qle_trans; [exact V1|]. vm_compute. discriminate. }
  (* [percentHumidity * 0.094] *)
  destruct (mul_upper 53 1024 ltac:(lia) (to_double h) (lit 94 3) 4 101 (95 # 1000)
              ltac:(lia) N1 ltac:(vm_compute; exact I) V1'
              ltac:(vm_compute; discriminate) ltac:(vm_compute; reflexivity))
    as [N2 V2].
  assert (V2' : (to_Q (dmul (to_double h) (lit 94 3)) <= 10)%Q).
  { eapply Qle_trans; [exact V2|]. vm_compute. discriminate. }
  (* the sum *)
  destruct (add_upper 53 1024 ltac:(lia) base (dmul (to_double h) (lit 94 3)) 8 134 10
              ltac:(lia) ltac:(rewrite Eb; exact I) N2
              ltac:(rewrite Eb; vm_compute; discriminate) V2'
              ltac:(vm_compute; reflexivity))
    as [N3 V3].
  assert (V3' : (to_Q (dadd base (dmul (to_double h) (lit 94 3))) <= 145)%Q).
  { eapply Qle_trans; [exact V3|]. vm_compute. discriminate. }
  (* the half *)
  destruct (mul_upper 53 1024 ltac:(lia) (lit 5 1)
              (dadd base (dmul (to_double h) (lit 94 3))) 7 (1 # 2) 145
              ltac:(lia) ltac:(vm_compute; exact I) N3
              ltac:(vm_compute; discriminate) V3'
              ltac:(vm_compute; reflexivity))
    as [N4 V4].
  assert (V4' : (to_Q (dmul (lit 5 1) (dadd base (dmul (to_double h) (lit 94 3))))
                 <= 73)%Q).
  { eapply Qle_trans; [exact V4|]. vm_compute. discriminate. }
  (* the assignment to a [float] *)
  destruct (to_float_upper (dmul (lit 5 1) (dadd base (dmul (to_double h) (lit 94 3))))
              7 73 ltac:(lia) N4 V4' ltac:(vm_compute; reflexivity))
    as (N5 & V5 & E5).
  split; [exact N5|]. split.
  - eapply Qle_trans; [exact V5|]. vm_compute. discriminate.
  - intros m e Hr. specialize (E5 m e Hr). lia.
Qed.

Lemma heat_simple_70_not_above_79 (h : float) :
  valid_binary 24 128 h = true ->
  fle (float_of_Z 0) h = true ->
  fle h (float_of_Z 100) = true ->
  fgt (heat_simple (float_of_Z 70) h) (float_of_Z 79) = false.
Proof.
  intros Hv H0 H100.
  destruct (heat_simple_70_upper h Hv H0 H100) as (N & V & E).
  change (float_of_Z 79) with (S754_finite false 10354688 (-17)).
  destruct (heat_simple (float_of_Z 70) h) as [s|s| |[|] m e];
    try (exfalso; exact N); [reflexivity|].
  specialize (E m e eq_refl). cbn [to_Q cond_Zopp] in V.
  unfold fgt, SFltb, SFcompare.
  destruct (Z.compare_spec (-17) e) as [C|C|C]; [|lia|reflexivity].
  subst e.
  change (Pos.compare_cont Eq 10354688 m) with (10354688 ?= m)%positive.
  destruct (Pos.compare_spec 10354688 m) as [C|C|C]; try reflexivity.
  exfalso.
  assert (G : (F2Q (Zpos 10354688) (-17) <= F2Q (Zpos m) (-17))%Q)
    by (apply F2Q_le, Z.lt_le_incl, Pos2Z.pos_lt_pos; exact C).
  assert (K : (74 < F2Q (Zpos 10354688) (-17))%Q) by (vm_compute; reflexivity).
  lra.
Qed.

Lemma to_double_near (x : float) (k : Z) (L B : Q) :
  k <= 971 ->
  nonneg_float x ->
  (L <= to_Q x)%Q -> (to_Q x <= B)%Q ->
  (B + ulp_below 53 1024 k < 2 ^ k)%Q ->
  nonneg_float (to_double x) /\
  (L - ulp_below 53 1024 k <= to_Q (to_double x))%Q /\
  (to_Q (to_double x) <= B + ulp_below 53 1024 k)%Q.
Proof.
  intros Hk Nx HL HB Hlt.
  assert (Pu : (0 < ulp_below 53 1024 k)%Q) by apply pow2_pos.
  destruct x as [s|s| |[|] m e]; try (cbn in Nx; tauto).
  - cbn [to_double to_Q nonneg_float] in *. split; [exact I | lra].
  - cbn [to_double]. cbn [to_Q cond_Zopp] in HL, HB.
    exact (binary_round_near 53 1024 ltac:(lia) m e k L B ltac:(lia) HL HB Hlt).
Qed.

Lemma to_float_near (x : double) (k : Z) (L B : Q) :
  k <= 104 ->
  nonneg_float x ->
  (L <= to_Q x)%Q -> (to_Q x <= B)%Q ->
  (B + ulp_below 24 128 k < 2 ^ k)%Q ->
  nonneg_float (to_float x) /\
  (L - ulp_below 24 128 k <= to_Q (to_float x))%Q /\
  (to_Q (to_float x) <= B + ulp_below 24 128 k)%Q.
Proof.
  intros Hk Nx HL HB Hlt.
  assert (Pu : (0 < ulp_below 24 128 k)%Q) by apply pow2_pos.
  destruct x as [s|s| |[|] m e]; try (cbn in Nx; tauto).
  - cbn [to_float to_Q nonneg_float] in *. split; [exact I | lra].
  - cbn [to_float]. cbn [to_Q cond_Zopp] in HL, HB.
    exact (binary_round_near 24 128 ltac:(lia) m e k L B ltac:(lia) HL HB Hlt).
Qed.

(** With a temperature of 70 and a humidity between 0 and 100, what the
    simple formula gives in floating point is within 0.00001 of what it
    gives on exact numbers: the five roundings move it by less. *)
Lemma heat_simple_70_value (h : float) :
  valid_binary 24 128 h = true ->
  fle (float_of_Z 0) h = true ->
  fle h (float_of_Z 100) = true ->
  (Qabs (to_Q (heat_simple (float_of_Z 70) h) - exact_simple_average 70 (to_Q h))
   <= 1 # 100000)%Q.
Proof.
  intros Hv H0 H100.
  destruct (percent_value h Hv H0 H100) as [Nh Vh].
  pose proof (to_Q_nonneg h Nh) as Ph.
  unfold heat_simple.
  set (base := dadd (dadd (to_double (float_of_Z 70)) (lit 61 0))
                 (dmul (dsub (to_double (float_of_Z 70)) (lit 68 0)) (lit 12 1))).
  unfold dmul at 1 2, dadd at 1.
  assert (Eb : base = S754_finite false 4693595236650189 (-45))
    by (vm_compute; reflexivity).
  assert (Nb : nonneg_float base) by (rewrite Eb; exact I).
  assert (Vb : (to_Q base == 4693595236650189 # 35184372088832)%Q)
    by (rewrite Eb; vm_compute; reflexivity).
  assert (Vc : (to_Q (lit 94 3) == 6773413839565226 # 72057594037927936)%Q)
    by (vm_compute; reflexivity).
  assert (Nc : nonneg_float (lit 94 3)) by (vm_compute; exact I).
  assert (Vd : (to_Q (lit 5 1) == 1 # 2)%Q) by (vm_compute; reflexivity).
  assert (Nd : nonneg_float (lit 5 1)) by (vm_compute; exact I).
  assert (U7 : (ulp_below 53 1024 7 == 1 # 70368744177664)%Q)
    by (vm_compute; reflexivity).
  assert (U4 : (ulp_below 53 1024 4 == 1 # 562949953421312)%Q)
    by (vm_compute; reflexivity).
  assert (U8 : (ulp_below 53 1024 8 == 1 # 35184372088832)%Q)
    by (vm_compute; reflexivity).
  assert (F7 : (ulp_below 24 128 7 == 1 # 131072)%Q)
    by (vm_compute; reflexivity).
  assert (P4 : (2 ^ 4 == 16)%Q) by reflexivity.
  assert (P7 : (2 ^ 7 == 128)%Q) by reflexivity.
  assert (P8 : (2 ^ 8 == 256)%Q) by reflexivity.
  (* the humidity as a double *)
  destruct (to_double_near h 7 (to_Q h) (to_Q h) ltac:(lia) Nh ltac:(lra) ltac:(lra) ltac:(lra))
    as (N1 & L1 & V1).
  (* [percentHumidity * 0.094] *)
  destruct (mul_near 53 1024 ltac:(lia) (to_double h) (lit 94 3) 4
              ((to_Q h) - (1 # 70368744177664)) ((to_Q h) + (1 # 70368744177664))
              (6773413839565226 # 72057594037927936)
              (6773413839565226 # 72057594037927936)
              ltac:(lia) N1 Nc ltac:(lra) ltac:(lra) ltac:(lra) ltac:(lra) ltac:(lra)
              ltac:(lra))
    as (N2 & L2 & V2).
  (* the sum *)
  destruct (add_near 53 1024 ltac:(lia) base (SFmul 53 1024 (to_double h) (lit 94 3)) 8
              (4693595236650189 # 35184372088832) (4693595236650189 # 35184372088832)
              (((to_Q h) - (1 # 70368744177664)) * (6773413839565226 # 72057594037927936)
               - (1 # 562949953421312))
              (((to_Q h) + (1 # 70368744177664)) * (6773413839565226 # 72057594037927936)
               + (1 # 562949953421312))
              ltac:(lia) Nb N2 ltac:(lra) ltac:(lra) ltac:(lra) ltac:(lra) ltac:(lra))
    as (N3 & L3 & V3).
  set (s := SFadd 53 1024 base (SFmul 53 1024 (to_double h) (lit 94 3))) in *.
  (* the half *)
  destruct (mul_near 53 1024 ltac:(lia) (lit 5 1) s 7
              (1 # 2) (1 # 2)
              (133 + (to_Q h) * (93 # 1000)) (134 + (to_Q h) * (95 # 1000))
              ltac:(lia) Nd N3 ltac:(lra) ltac:(lra) ltac:(lra) ltac:(lra) ltac:(lra)
              ltac:(lra))
    as (N4 & _ & _).
  destruct (mul_near 53 1024 ltac:(lia) (lit 5 1) s 7
              (1 # 2) (1 # 2)
              (to_Q s) (to_Q s)
              ltac:(lia) Nd N3 ltac:(lra) ltac:(lra) ltac:(lra) ltac:(lra) ltac:(lra)
              ltac:(lra))
    as (_ & L4 & V4).
  set (r := SFmul 53 1024 (lit 5 1) s) in *.
  (* the assignment to a [float] *)
  destruct (to_float_near r 7 (to_Q r) (to_Q r) ltac:(lia) N4
              ltac:(lra) ltac:(lra) ltac:(lra))
    as (_ & L5 & V5).
  apply Qabs_Qle_condition. unfold exact_simple_average. split; lra.
Qed.

Lemma heat_index_on_the_bench :
  Qle_bool
    (Qabs (to_Q (@computeHeatIndex bench (float_of_Z 81) (float_of_Z 10))
           - (exact_regression 81 10 - exact_low_correction 10 (42007 # 100000))))
    (1 # 10000)
  && Qle_bool
       (Qabs (to_Q (@computeHeatIndex bench (float_of_Z 85) (float_of_Z 90))
              - (exact_regression 85 90 + exact_high_correction 85 90)))
       (1 # 10000) = true.
Proof. vm_compute. reflexivity. Qed.

(** C8: at 81 degrees and 10 % the simple formula exceeds 79 and the
    low-humidity correction is applied to the regression; at 85 degrees
    and 90 % the high-humidity correction is applied; at 70 degrees, for
    every humidity between 0 and 100, the simple formula does not exceed
    79 and is the result.  [pow], [sqrt] and [abs] may be any functions.

    The values, against the formulas on exact numbers: at 70 degrees the
    result is within 0.00001 of [0.5 * (70 + 61 + (70 - 68) * 1.2 +
    humidity * 0.094)], for every humidity between 0 and 100 and every
    platform; on the bench platform the result at 81 degrees and 10 % is
    within 0.0001 of the regression less [(13 - 10) * 0.25] times the
    square root of [(17 - |81 - 95|) * 0.05882], which is 0.42007 to five
    places, and the result at 85 degrees and 90 % is within 0.0001 of the
    regression plus [(90 - 85) * 0.1 * ((87 - 85) * 0.2)]. *)
Theorem heat_index_branches `{ArduinoCore} (h : float) :
  valid_binary 24 128 h = true ->
  fle (float_of_Z 0) h = true ->
  fle h (float_of_Z 100) = true ->
  let f := float_of_Z in
  let root := (42007 # 100000)%Q in
  (fgt (heat_simple (f 81) (f 10)) (f 79) = true /\
   low_humidity (f 81) (f 10) = true /\
   computeHeatIndex (f 81) (f 10) =
   low_humidity_adjust (heat_regression (f 81) (f 10)) (f 81) (f 10)) /\
  (fgt (heat_simple (f 85) (f 90)) (f 79) = true /\
   low_humidity (f 85) (f 90) = false /\
   high_humidity (f 85) (f 90) = true /\
   computeHeatIndex (f 85) (f 90) =
   high_humidity_adjust (heat_regression (f 85) (f 90)) (f 85) (f 90)) /\
  (fgt (heat_simple (f 70) h) (f 79) = false /\
   computeHeatIndex (f 70) h = heat_simple (f 70) h) /\
  (Qabs (to_Q (computeHeatIndex (f 70%Z) h) - exact_simple_average 70 (to_Q h))
   <= 1 # 100000)%Q /\
  (root * root <= exact_radicand 81)%Q /\
  (exact_radicand 81 <= (root + (1 # 100000)) * (root + (1 # 100000)))%Q /\
  (Qabs (to_Q (@computeHeatIndex bench (f 81%Z) (f 10%Z))
         - (exact_regression 81 10 - exact_low_correction 10 root))
   <= 1 # 10000)%Q /\
  (Qabs (to_Q (@computeHeatIndex bench (f 85%Z) (f 90%Z))
         - (exact_regression 85 90 + exact_high_correction 85 90))
   <= 1 # 10000)%Q.
Proof.
  intros Hv H0 H100 f root. subst f root.
  assert (A1 : fgt (heat_simple (float_of_Z 81) (float_of_Z 10)) (float_of_Z 79) = true)
    by (vm_compute; reflexivity).
  assert (A2 : low_humidity (float_of_Z 81) (float_of_Z 10) = true)
    by (vm_compute; reflexivity).
  assert (B1 : fgt (heat_simple (float_of_Z 85) (float_of_Z 90)) (float_of_Z 79) = true)
    by (vm_compute; reflexivity).
  assert (B2 : low_humidity (float_of_Z 85) (float_of_Z 90) = false)
    by (vm_compute; reflexivity).
  assert (B3 : high_humidity (float_of_Z 85) (float_of_Z 90) = true)
    by (vm_compute; reflexivity).
  pose proof (heat_simple_70_not_above_79 h Hv H0 H100) as C1.
  assert (C2 : computeHeatIndex (float_of_Z 70) h = heat_simple (float_of_Z 70) h)
    by (unfold computeHeatIndex; rewrite C1; reflexivity).
  pose proof heat_index_on_the_bench as D.
  apply andb_true_iff in D as [D1 D2]. apply Qle_bool_iff in D1, D2.
  split; [|split; [|split; [|split; [|split; [|split; [|split]]]]]].
  - split; [exact A1|]. split; [exact A2|].
    unfold computeHeatIndex. rewrite A1, A2. reflexivity.
  - split; [exact B1|]. split; [exact B2|]. split; [exact B3|].
    unfold computeHeatIndex. rewrite B1, B2, B3. reflexivity.
  - split; [exact C1 | exact C2].
  - rewrite C2. exact (heat_simple_70_value h Hv H0 H100).
  - vm_compute. discriminate.
  - vm_compute. discriminate.
  - exact D1.
  - exact D2.
Qed.

Lemma heat_index_branches_witness :
  valid_binary 24 128 (float_of_Z 50) = true /\
  fle (float_of_Z 0) (float_of_Z 50) = true /\
  fle (float_of_Z 50) (float_of_Z 100) = true /\
  let f := float_of_Z in
  let root := (42007 # 100000)%Q in
  (fgt (heat_simple (f 81) (f 10)) (f 79) = true /\
   low_humidity (f 81) (f 10) = true /\
   computeHeatIndex (f 81) (f 10) =
   low_humidity_adjust (heat_regression (f 81) (f 10)) (f 81) (f 10)) /\
  (fgt (heat_simple (f 85) (f 90)) (f 79) = true /\
   low_humidity (f 85) (f 90) = false /\
   high_humidity (f 85) (f 90) = true /\
   computeHeatIndex (f 85) (f 90) =
   high_humidity_adjust (heat_regression (f 85) (f 90)) (f 85) (f 90)) /\
  (fgt (heat_simple (f 70) (f 50)) (f 79) = false /\
   computeHeatIndex (f 70) (f 50) = heat_simple (f 70) (f 50)) /\
  (Qabs (to_Q (computeHeatIndex (f 70%Z) (f 50%Z))
         - exact_simple_average 70 (to_Q (f 50%Z)))
   <= 1 # 100000)%Q /\
  (root * root <= exact_radicand 81)%Q /\
  (exact_radicand 81 <= (root + (1 # 100000)) * (root + (1 # 100000)))%Q /\
  (Qabs (to_Q (@computeHeatIndex bench (f 81%Z) (f 10%Z))
         - (exact_regression 81 10 - exact_low_correction 10 root))
   <= 1 # 10000)%Q /\
  (Qabs (to_Q (@computeHeatIndex bench (f 85%Z) (f 90%Z))
         - (exact_regression 85 90 + exact_high_correction 85 90))
   <= 1 # 10000)%Q.
Proof.
  assert (H1 : valid_binary 24 128 (float_of_Z 50) = true) by (vm_compute; reflexivity).
  assert (H2 : fle (float_of_Z 0) (float_of_Z 50) = true) by (vm_compute; reflexivity).
  assert (H3 : fle (float_of_Z 50) (float_of_Z 100) = true) by (vm_compute; reflexivity).
  exact (conj H1 (conj H2 (conj H3 (heat_index_branches (float_of_Z 50) H1 H2 H3)))).
Defined.

(** The three cases on the bench platform, to two decimal places. *)
Example heat_index_samples :
  two_places (computeHeatIndex (float_of_Z 81) (float_of_Z 10)) = "78.53"%string /\
  two_places (computeHeatIndex (float_of_Z 85) (float_of_Z 90)) = "101.78"%string /\
  two_places (computeHeatIndex (float_of_Z 70) (float_of_Z 50)) = "69.05"%string.
Proof. repeat split; vm_compute; reflexivity. Qed.

(** ** Celsius and Fahrenheit *)

Lemma round_trip_bytes :
  forallb (fun x => within (1 # 250) (convertFtoC (convertCtoF (float_of_Z x))) x)
    (map Z.of_nat (seq 0 256)) = true.
Proof. vm_compute. reflexivity. Qed.

(** C9: 20 degrees Celsius convert to exactly 68 degrees Fahrenheit, and
    68 back to 19.9998 (the float [10485655 * 2^-19]), within 0.00025 of
    20; for every whole number of degrees that a byte can hold the round
    trip stays within 0.004 of where it started.  The gap comes from the
    constant 0.55555, not from rounding. *)
Theorem celsius_round_trip (x : Z) :
  0 <= x <= 255 ->
  convertCtoF (float_of_Z 20) = float_of_Z 68 /\
  convertFtoC (float_of_Z 68) = S754_finite false 10485655 (-19) /\
  (Qabs (to_Q (convertFtoC (convertCtoF (float_of_Z 20))) - 20) <= 1 # 4000)%Q /\
  (Qabs (to_Q (convertFtoC (convertCtoF (float_of_Z x))) - inject_Z x) <= 1 # 250)%Q.
Proof.
  intros Hx.
  split; [vm_compute; reflexivity|].
  split; [vm_compute; reflexivity|].
  split; [vm_compute; discriminate|].
  pose proof round_trip_bytes as H.
  rewrite forallb_forall in H.
  specialize (H x). unfold within in H. apply Qle_bool_iff, H.
  apply in_map_iff. exists (Z.to_nat x). split; [lia|].
  apply in_seq. lia.
Qed.

Lemma celsius_round_trip_witness :
  0 <= 25 <= 255 /\
  convertCtoF (float_of_Z 20) = float_of_Z 68 /\
  convertFtoC (float_of_Z 68) = S754_finite false 10485655 (-19) /\
  (Qabs (to_Q (convertFtoC (convertCtoF (float_of_Z 20))) - 20) <= 1 # 4000)%Q /\
  (Qabs (to_Q (convertFtoC (convertCtoF (float_of_Z 25))) - inject_Z 25) <= 1 # 250)%Q.
Proof.
  assert (H : 0 <= 25 <= 255) by lia.
  exact (conj H (celsius_round_trip 25 H)).
Defined.

(** * Further properties of the driver *)

(** ** Polls spent *)

Lemma pulse_next (pn : nat -> bool) (maxc : Z) (level : bool) (p : nat) :
  (p < snd (pulse pn maxc level p) <= p + S (Z.to_nat maxc))%nat.
Proof.
  unfold pulse.
  pose proof (first_off_run pn level (S (Z.to_nat maxc)) p) as H.
  destruct (first_off pn level p (S (Z.to_nat maxc))) as [j|]; cbn [snd]; lia.
Qed.

Lemma pulse_pairs_next (pn : nat -> bool) (maxc : Z) (n : nat) :
  forall p : nat,
    (p <= snd (pulse_pairs pn maxc p n) <= p + 2 * n * S (Z.to_nat maxc))%nat.
Proof.
  induction n as [|n IH]; intros p; cbn [pulse_pairs snd]; [lia|].
  pose proof (pulse_next pn maxc LOW p) as H1.
  destruct (pulse pn maxc LOW p) as [lo p1]. cbn [snd] in H1.
  pose proof (pulse_next pn maxc HIGH p1) as H2.
  destruct (pulse pn maxc HIGH p1) as [hi p2]. cbn [snd] in H2.
  specialize (IH p2).
  destruct (pulse_pairs pn maxc p2 n) as [rest p3]. cbn [snd] in *. lia.
Qed.

Lemma attempt_next (s : Sys) :
  (polls (hw s) < snd (attempt s)
   <= polls (hw s) + 82 * S (Z.to_nat (_maxcycles (dev s))))%nat.
Proof.
  unfold attempt.
  pose proof (pulse_next (pin (hw s)) (_maxcycles (dev s)) LOW (polls (hw s))) as H1.
  destruct (pulse (pin (hw s)) (_maxcycles (dev s)) LOW (polls (hw s))) as [lo p1].
  cbn [snd] in H1.
  destruct (lo =? 0); [cbn [snd]; lia|].
  pose proof (pulse_next (pin (hw s)) (_maxcycles (dev s)) HIGH p1) as H2.
  destruct (pulse (pin (hw s)) (_maxcycles (dev s)) HIGH p1) as [hi p2].
  cbn [snd] in H2.
  destruct (hi =? 0); [cbn [snd]; lia|].
  pose proof (pulse_pairs_next (pin (hw s)) (_maxcycles (dev s)) 40 p2) as H3.
  destruct (pulse_pairs (pin (hw s)) (_maxcycles (dev s)) p2 40) as [cycles p3].
  cbn [snd] in H3.
  destruct (decode_pure 40 0 cycles [0; 0; 0; 0; 0]) as [d complete].
  cbn [snd]. lia.
Qed.

Lemma after_attempt_polls (s : Sys) :
  polls (hw (after_attempt s)) = snd (attempt s).
Proof.
  unfold after_attempt. destruct (attempt s) as [[r d] p]. reflexivity.
Qed.

(** ** The rate limiter across the wrap of the clock *)

Lemma due_elapsed (s : Sys) (elapsed : Z) :
  now s = u32 (_lastreadtime (dev s) + elapsed) ->
  due s = (2000 <=? elapsed mod 2 ^ 32).
Proof.
  intros E. unfold due. rewrite E. unfold u32.
  rewrite Zminus_mod_idemp_l.
  replace (_lastreadtime (dev s) + elapsed - _lastreadtime (dev s)) with elapsed by lia.
  destruct (Z.ltb_spec (elapsed mod 2 ^ 32) 2000);
    destruct (Z.leb_spec 2000 (elapsed mod 2 ^ 32)); (reflexivity || lia).
Qed.

(** X1: whatever the clock and the timestamp hold, and also when the
    clock has wrapped around since the last attempt, a call of [_read]
    runs a hardware attempt exactly when the time since that attempt,
    taken modulo [2 ^ 32], is at least 2000 ms.  An attempt stamps the
    driver with the clock reading and polls the pin; a cached answer
    changes nothing in the driver and touches no pin. *)
Theorem hardware_attempt_iff_interval_elapsed (s : Sys) (elapsed : Z) :
  wf_dev (dev s) ->
  now s = u32 (_lastreadtime (dev s) + elapsed) ->
  exists (r : bool) (s' : Sys),
    _read s = Some (r, s') /\
    _lastresult (dev s') = r /\
    if 2000 <=? elapsed mod 2 ^ 32
    then _lastreadtime (dev s') = now s /\
         log (hw s') = attempt_events ++ log (hw s) /\
         (polls (hw s) < polls (hw s'))%nat
    else r = _lastresult (dev s) /\ dev s' = dev s /\
         log (hw s') = log (hw s) /\ polls (hw s') = polls (hw s).
Proof.
  intros Hwf E. pose proof (due_elapsed s elapsed E) as D.
  destruct (2000 <=? elapsed mod 2 ^ 32).
  - rewrite (_read_due s Hwf D).
    exists (fst (fst (attempt s))), (after_attempt s).
    rewrite after_attempt_dev, after_attempt_log, after_attempt_polls.
    cbn [_lastresult _lastreadtime].
    pose proof (attempt_next s). repeat split; try reflexivity. lia.
  - rewrite (_read_cached s D).
    exists (_lastresult (dev s)), (after_cached s).
    repeat split; reflexivity.
Qed.

Lemma hardware_attempt_iff_interval_elapsed_witness :
  wf_dev (dev stale) /\
  now stale = u32 (_lastreadtime (dev stale) + (2 ^ 32 + 1500)) /\
  exists (r : bool) (s' : Sys),
    _read stale = Some (r, s') /\
    _lastresult (dev s') = r /\
    if 2000 <=? (2 ^ 32 + 1500) mod 2 ^ 32
    then _lastreadtime (dev s') = now stale /\
         log (hw s') = attempt_events ++ log (hw stale) /\
         (polls (hw stale) < polls (hw s'))%nat
    else r = _lastresult (dev stale) /\ dev s' = dev stale /\
         log (hw s') = log (hw stale) /\ polls (hw s') = polls (hw stale).
Proof.
  assert (H1 : wf_dev (dev stale)) by bench_wf.
  assert (H2 : now stale = u32 (_lastreadtime (dev stale) + (2 ^ 32 + 1500)))
    by reflexivity.
  exact (conj H1 (conj H2
           (hardware_attempt_iff_interval_elapsed stale (2 ^ 32 + 1500) H1 H2))).
Defined.

(** ** Interrupts *)

Lemma masked_after_attempt (l : list Event) :
  masked (attempt_events ++ l) = false.
Proof. reflexivity. Qed.

Lemma no_delay_masked_after_attempt (l : list Event) :
  masked l = false ->
  no_delay_masked (attempt_events ++ l) = no_delay_masked l.
Proof. intros H. cbn. rewrite H. reflexivity. Qed.

(** X2: [_read] never returns with interrupts masked and never calls
    [delay] while they are: whichever way an attempt ends (no
    acknowledgement, a missing pulse, a wrong checksum, a good frame), the
    scope of the lock has been left, and the waits of 250 ms and 20 ms
    come before the lock is taken. *)
Theorem read_releases_interrupts (s s' : Sys) (r : bool) :
  wf_dev (dev s) ->
  masked (log (hw s)) = false ->
  no_delay_masked (log (hw s)) = true ->
  _read s = Some (r, s') ->
  masked (log (hw s')) = false /\
  no_delay_masked (log (hw s')) = true /\
  (due s = true -> log (hw s') = attempt_events ++ log (hw s)).
Proof.
  intros Hwf Hm Hd. destruct (due s) eqn:D.
  - rewrite (_read_due s Hwf D). intros [= _ <-].
    rewrite after_attempt_log, masked_after_attempt,
      (no_delay_masked_after_attempt _ Hm).
    auto.
  - rewrite (_read_cached s D). intros [= _ <-].
    repeat split; try assumption. discriminate.
Qed.

Lemma read_releases_interrupts_witness :
  wf_dev (dev garbled) /\
  masked (log (hw garbled)) = false /\
  no_delay_masked (log (hw garbled)) = true /\
  _read garbled = Some (false, after_attempt garbled) /\
  masked (log (hw (after_attempt garbled))) = false /\
  no_delay_masked (log (hw (after_attempt garbled))) = true /\
  (due garbled = true ->
   log (hw (after_attempt garbled)) = attempt_events ++ log (hw garbled)).
Proof.
  assert (H1 : wf_dev (dev garbled)) by bench_wf.
  assert (H2 : masked (log (hw garbled)) = false) by reflexivity.
  assert (H3 : no_delay_masked (log (hw garbled)) = true) by reflexivity.
  assert (H4 : _read garbled = Some (false, after_attempt garbled))
    by (vm_compute; reflexivity).
  exact (conj H1 (conj H2 (conj H3 (conj H4
           (read_releases_interrupts garbled (after_attempt garbled) false
              H1 H2 H3 H4))))).
Defined.

(** ** The polling budget *)

(** X3: a call of [_read] polls the pin at most [82 * (_maxcycles + 1)]
    times, that is 82 pulse waits of at most [_maxcycles + 1] polls each;
    an attempt polls at least once, and a cached answer never. *)
Theorem read_polls_bounded (s s' : Sys) (r : bool) :
  wf_dev (dev s) ->
  _read s = Some (r, s') ->
  (polls (hw s) <= polls (hw s')
   <= polls (hw s) + 82 * S (Z.to_nat (_maxcycles (dev s))))%nat /\
  (polls (hw s') = polls (hw s) <-> due s = false).
Proof.
  intros Hwf. pose proof (attempt_next s) as B. destruct (due s) eqn:D.
  - rewrite (_read_due s Hwf D). intros [= _ <-].
    rewrite after_attempt_polls. split; [lia|].
    split; [lia | discriminate].
  - rewrite (_read_cached s D). intros [= _ <-].
    cbn [after_cached upd hw polls]. split; [lia|]. split; reflexivity.
Qed.

Lemma read_polls_bounded_witness :
  wf_dev (dev shorted) /\
  _read shorted = Some (false, after_attempt shorted) /\
  ((polls (hw shorted) <= polls (hw (after_attempt shorted))
    <= polls (hw shorted) + 82 * S (Z.to_nat (_maxcycles (dev shorted))))%nat /\
   (polls (hw (after_attempt shorted)) = polls (hw shorted) <-> due shorted = false)).
Proof.
  assert (H1 : wf_dev (dev shorted)) by bench_wf.
  assert (H2 : _read shorted = Some (false, after_attempt shorted))
    by (vm_compute; reflexivity).
  exact (conj H1 (conj H2
           (read_polls_bounded shorted (after_attempt shorted) false H1 H2))).
Defined.

(** ** A line that does not answer *)

(** X4: an attempt on a line that idles high, as an unplugged sensor
    leaves it under the pull-up, fails at its very first poll, without
    waiting for any timeout; on a line held low it fails once the wait for
    the acknowledgement has used its [_maxcycles + 1] polls.  Either way
    the frame is left zeroed. *)
Theorem silent_line_fails (s : Sys) :
  wf_dev (dev s) ->
  due s = true ->
  pin (hw s) (polls (hw s)) = HIGH \/ stuck_at LOW s = true ->
  exists s' : Sys,
    _read s = Some (false, s') /\
    data (dev s') = [0; 0; 0; 0; 0] /\
    _lastresult (dev s') = false /\
    polls (hw s') =
    (polls (hw s) +
     if pin (hw s) (polls (hw s)) then 1 else S (Z.to_nat (_maxcycles (dev s))))%nat.
Proof.
  intros Hwf Hdue Hline.
  set (m := Z.to_nat (_maxcycles (dev s))).
  assert (P : pulse (pin (hw s)) (_maxcycles (dev s)) LOW (polls (hw s)) =
              (0, (polls (hw s) +
                   if pin (hw s) (polls (hw s)) then 1 else S m)%nat)).
  { rewrite pulse_run. cbv zeta. fold m.
    pose proof (run_length_zero (pin (hw s)) LOW (polls (hw s)) m) as Hz.
    pose proof (run_length_full (pin (hw s)) LOW (S m) (polls (hw s))) as Hf.
    destruct Hline as [Hh|Hs].
    - rewrite Hh. apply Hz in Hh. rewrite Hh. reflexivity.
    - unfold stuck_at in Hs. fold m in Hs.
      assert (Hl : pin (hw s) (polls (hw s)) = LOW).
      { cbn [seq forallb] in Hs. apply andb_true_iff in Hs as [Hs _].
        apply eqb_prop in Hs. exact Hs. }
      apply Hf in Hs. rewrite Hs, Hl.
      destruct (Nat.leb_spec (S m) m); [lia | reflexivity]. }
  assert (A : attempt s =
              (false, [0; 0; 0; 0; 0],
               (polls (hw s) + if pin (hw s) (polls (hw s)) then 1 else S m)%nat)).
  { unfold attempt. rewrite P. reflexivity. }
  exists (after_attempt s).
  rewrite (_read_due s Hwf Hdue), after_attempt_dev, after_attempt_polls, A.
  repeat split; reflexivity.
Qed.

Lemma silent_line_fails_witness :
  wf_dev (dev shorted) /\
  due shorted = true /\
  (pin (hw shorted) (polls (hw shorted)) = HIGH \/ stuck_at LOW shorted = true) /\
  exists s' : Sys,
    _read shorted = Some (false, s') /\
    data (dev s') = [0; 0; 0; 0; 0] /\
    _lastresult (dev s') = false /\
    polls (hw s') =
    (polls (hw shorted) +
     if pin (hw shorted) (polls (hw shorted))
     then 1 else S (Z.to_nat (_maxcycles (dev shorted))))%nat.
Proof.
  assert (H1 : wf_dev (dev shorted)) by bench_wf.
  assert (H2 : due shorted = true) by reflexivity.
  assert (H3 : pin (hw shorted) (polls (hw shorted)) = HIGH
               \/ stuck_at LOW shorted = true) by (right; reflexivity).
  exact (conj H1 (conj H2 (conj H3 (silent_line_fails shorted H1 H2 H3)))).
Defined.

(** ** Any timing *)

Lemma pulse_pairs_on_widths (maxc : Z) (widths : list (nat * nat)) :
  Forall (fun w => Z.of_nat (fst w) <= maxc /\ Z.of_nat (snd w) <= maxc) widths ->
  forall pre post : list bool,
    pulse_pairs (wire (pre ++ flat_map timed_bit widths ++ post)) maxc
      (length pre) (length widths) =
    (flat_map width_cycles widths, length (pre ++ flat_map timed_bit widths)).
Proof.
  induction 1 as [|[lo hi] widths [Hlo Hhi] HF IH]; intros pre post.
  - cbn. rewrite app_nil_r. reflexivity.
  - cbn [fst snd] in Hlo, Hhi.
    set (l := pre ++ flat_map timed_bit ((lo, hi) :: widths) ++ post).
    set (pre1 := pre ++ pulse_trace LOW lo).
    set (pre2 := pre1 ++ pulse_trace HIGH hi).
    assert (E1 : l = pre ++ pulse_trace LOW lo ++
                       (pulse_trace HIGH hi ++ flat_map timed_bit widths ++ post)).
    { unfold l. cbn [flat_map].
      change (timed_bit (lo, hi)) with (pulse_trace LOW lo ++ pulse_trace HIGH hi).
      rewrite <- !app_assoc. reflexivity. }
    assert (E2 : l = pre1 ++ pulse_trace HIGH hi ++ (flat_map timed_bit widths ++ post))
      by (rewrite E1; unfold pre1; rewrite <- !app_assoc; reflexivity).
    assert (E3 : l = pre2 ++ flat_map timed_bit widths ++ post)
      by (rewrite E2; unfold pre2; rewrite <- !app_assoc; reflexivity).
    assert (P1 : pulse (wire l) maxc LOW (length pre) = (Z.of_nat lo, length pre1))
      by (rewrite E1; apply (pulse_on_trace LOW lo); exact Hlo).
    assert (P2 : pulse (wire l) maxc HIGH (length pre1) = (Z.of_nat hi, length pre2))
      by (rewrite E2; apply pulse_on_trace; exact Hhi).
    assert (P3 : pulse_pairs (wire l) maxc (length pre2) (length widths) =
                 (flat_map width_cycles widths,
                  length (pre2 ++ flat_map timed_bit widths)))
      by (rewrite E3; apply IH).
    cbn [length pulse_pairs]. rewrite P1, P2, P3.
    cbn [flat_map width_cycles app fst snd]. f_equal.
    unfold pre2, pre1.
    change (timed_bit (lo, hi)) with (pulse_trace LOW lo ++ pulse_trace HIGH hi).
    rewrite <- !app_assoc. reflexivity.
Qed.

Lemma width_cycles_nth (widths : list (nat * nat)) :
  forall i : nat,
    (i < length widths)%nat ->
    nth (2 * i) (flat_map width_cycles widths) 0 =
      Z.of_nat (fst (nth i widths (O, O))) /\
    nth (2 * i + 1) (flat_map width_cycles widths) 0 =
      Z.of_nat (snd (nth i widths (O, O))).
Proof.
  induction widths as [|w widths IH]; intros [|i] Hi; cbn [length] in Hi; try lia.
  - split; reflexivity.
  - replace (2 * S i)%nat with (S (S (2 * i))) by lia.
    replace (S (S (2 * i)) + 1)%nat with (S (S (2 * i + 1))) by lia.
    cbn [flat_map width_cycles app nth]. apply IH. lia.
Qed.

Lemma width_cycles_length (widths : list (nat * nat)) :
  length (flat_map width_cycles widths) = (2 * length widths)%nat.
Proof.
  induction widths as [|w widths IH]; [reflexivity|].
  cbn [flat_map width_cycles app length]. lia.
Qed.

Lemma sends_nth (maxc : Z) (bits : list bool) (widths : list (nat * nat)) :
  Forall2 (sends maxc) bits widths ->
  length bits = length widths /\
  forall i : nat, (i < length widths)%nat ->
    sends maxc (nth i bits false) (nth i widths (O, O)).
Proof.
  induction 1 as [|b w bits widths Hbw HF [IHl IH]].
  - split; [reflexivity|]. cbn. lia.
  - split; [cbn; lia|]. intros [|i] Hi; cbn [nth]; [exact Hbw|].
    apply IH. cbn [length] in Hi. lia.
Qed.

(** The buffer that the decode loop builds from 80 non-zero samples which
    encode the bits of [frame]. *)
Lemma decode_of_bits (cycles frame : list Z) :
  length cycles = 80%nat ->
  Forall (fun c => c <> 0) cycles ->
  length frame = 5%nat ->
  Forall is_u8 frame ->
  (forall i, 0 <= i < 40 ->
     bit_at cycles i = nth (Z.to_nat i) (flat_map byte_bits frame) false) ->
  decode_pure 40 0 cycles [0; 0; 0; 0; 0] = (frame, true).
Proof.
  intros Hc HF Hlen Hu8 Hbits.
  destruct (decode_zeros cycles Hc HF) as (C & L & R & B).
  destruct (decode_pure 40 0 cycles [0; 0; 0; 0; 0]) as [d complete].
  cbn [fst snd] in *. subst complete. f_equal.
  apply (nth_ext _ _ 0 0); [congruence|].
  intros j Hj. rewrite L in Hj.
  assert (Hk : 0 <= Z.of_nat j < 5) by lia.
  assert (Rf : 0 <= nth j frame 0 < 256).
  { apply (proj1 (Forall_nth is_u8 frame) Hu8). lia. }
  specialize (R (Z.of_nat j) Hk). unfold cell in R. rewrite Nat2Z.id in R.
  apply Z.bits_inj'. intros n Hn.
  destruct (Z_lt_le_dec n 8) as [Hn8|Hn8].
  - specialize (B (8 * Z.of_nat j + 7 - n) ltac:(lia)).
    replace ((8 * Z.of_nat j + 7 - n) / 8) with (Z.of_nat j) in B
      by (apply (Z.div_unique _ 8 _ (7 - n)); lia).
    replace ((8 * Z.of_nat j + 7 - n) mod 8) with (7 - n) in B
      by (apply (Z.mod_unique _ 8 (Z.of_nat j)); lia).
    replace (7 - (7 - n)) with n in B by lia.
    unfold cell in B. rewrite Nat2Z.id in B. rewrite B.
    rewrite Hbits by lia.
    destruct frame as [|b0 [|b1 [|b2 [|b3 [|b4 [|]]]]]]; try discriminate Hlen.
    rewrite (frame_bits b0 b1 b2 b3 b4 (Z.of_nat j) n) by lia.
    unfold cell. rewrite Nat2Z.id. reflexivity.
  - rewrite !byte_high_bits by lia. reflexivity.
Qed.

(** What an attempt makes of a transmission with the widths [widths]. *)
Lemma attempt_on_timed_trace (s : Sys) (frame : list Z)
    (ack : nat * nat) (widths : list (nat * nat)) (pre : list bool) :
  length frame = 5%nat ->
  Forall is_u8 frame ->
  pin (hw s) = wire (pre ++ timed_trace ack widths) ->
  polls (hw s) = length pre ->
  seen (_maxcycles (dev s)) ack ->
  Forall2 (sends (_maxcycles (dev s))) (flat_map byte_bits frame) widths ->
  attempt s = (checksum_ok frame, frame, length (pre ++ timed_trace ack widths)).
Proof.
  intros Hlen Hu8 Hpin Hpolls Hack Hsends.
  destruct ack as [alo ahi].
  destruct Hack as (A1 & A2 & A3 & A4). cbn [fst snd] in A1, A2, A3, A4.
  destruct (sends_nth _ _ _ Hsends) as [Hl Hn].
  assert (L : length widths = 40%nat).
  { rewrite <- Hl.
    destruct frame as [|b0 [|b1 [|b2 [|b3 [|b4 [|]]]]]]; try discriminate Hlen.
    reflexivity. }
  set (maxc := _maxcycles (dev s)) in *.
  set (l := pre ++ timed_trace (alo, ahi) widths) in *.
  set (pre1 := pre ++ pulse_trace LOW alo).
  set (pre2 := pre1 ++ pulse_trace HIGH ahi).
  assert (E1 : l = pre ++ pulse_trace LOW alo ++
                     (pulse_trace HIGH ahi ++ flat_map timed_bit widths))
    by reflexivity.
  assert (E2 : l = pre1 ++ pulse_trace HIGH ahi ++ flat_map timed_bit widths)
    by (rewrite E1; unfold pre1; rewrite <- !app_assoc; reflexivity).
  assert (E3 : l = pre2 ++ flat_map timed_bit widths ++ [])
    by (rewrite app_nil_r, E2; unfold pre2; rewrite <- !app_assoc; reflexivity).
  assert (E4 : l = pre2 ++ flat_map timed_bit widths)
    by (rewrite E3, app_nil_r; reflexivity).
  assert (P1 : pulse (wire l) maxc LOW (length pre) = (Z.of_nat alo, length pre1))
    by (rewrite E1; apply (pulse_on_trace LOW alo); exact A2).
  assert (P2 : pulse (wire l) maxc HIGH (length pre1) = (Z.of_nat ahi, length pre2))
    by (rewrite E2; apply (pulse_on_trace HIGH ahi); exact A4).
  assert (P3 : pulse_pairs (wire l) maxc (length pre2) 40 =
               (flat_map width_cycles widths, length l)).
  { rewrite E4 at 2. rewrite E3, <- L. apply pulse_pairs_on_widths.
    apply Forall_forall. intros w Hw.
    destruct (In_nth _ _ (O, O) Hw) as (i & Hi & <-).
    destruct (Hn i Hi) as ((_ & B2 & _ & B4) & _). split; assumption. }
  set (cycles := flat_map width_cycles widths) in *.
  assert (Hc : length cycles = 80%nat)
    by (unfold cycles; rewrite width_cycles_length, L; reflexivity).
  assert (HF : Forall (fun c => c <> 0) cycles).
  { apply Forall_forall. intros c Hin.
    destruct (In_nth _ _ 0 Hin) as (j & Hj & <-). rewrite Hc in Hj.
    destruct (width_cycles_nth widths (j / 2) ltac:(rewrite L; apply Nat.Div0.div_lt_upper_bound; lia))
      as [W1 W2].
    destruct (Hn (j / 2)%nat ltac:(rewrite L; apply Nat.Div0.div_lt_upper_bound; lia))
      as ((B1 & _ & B3 & _) & _).
    pose proof (Nat.div_mod_eq j 2) as Hdm.
    pose proof (Nat.mod_upper_bound j 2 ltac:(lia)) as Hm.
    destruct (Nat.eq_dec (j mod 2) 0) as [Z0|Z0].
    - replace j with (2 * (j / 2))%nat by lia. fold cycles in W1. rewrite W1. lia.
    - replace j with (2 * (j / 2) + 1)%nat by lia. fold cycles in W2. rewrite W2. lia. }
  assert (Hbits : forall i, 0 <= i < 40 ->
            bit_at cycles i = nth (Z.to_nat i) (flat_map byte_bits frame) false).
  { intros i Hi. unfold bit_at, cell.
    destruct (width_cycles_nth widths (Z.to_nat i) ltac:(lia)) as [W1 W2].
    destruct (Hn (Z.to_nat i) ltac:(lia)) as (_ & B5).
    replace (Z.to_nat (2 * i)) with (2 * Z.to_nat i)%nat by lia.
    replace (Z.to_nat (2 * i + 1)) with (2 * Z.to_nat i + 1)%nat by lia.
    fold cycles in W1, W2. rewrite W1, W2, B5. unfold bit_of.
    set (a := fst (nth (Z.to_nat i) widths (O, O))).
    set (b := snd (nth (Z.to_nat i) widths (O, O))).
    destruct (Nat.ltb_spec a b); destruct (Z.gtb_spec (Z.of_nat b) (Z.of_nat a));
      (reflexivity || lia). }
  pose proof (decode_of_bits cycles frame Hc HF Hlen Hu8 Hbits) as Hd.
  unfold attempt. rewrite Hpin, Hpolls. fold maxc. fold l. rewrite P1.
  destruct (Z.eqb_spec (Z.of_nat alo) 0); [lia|].
  rewrite P2.
  destruct (Z.eqb_spec (Z.of_nat ahi) 0); [lia|].
  rewrite P3, Hd. reflexivity.
Qed.

(** X5: the decoder is independent of the sensor's and the processor's
    speed.  Whatever number of polls each pulse lasts, as long as every
    pulse is seen for at least one poll and for no more than [_maxcycles],
    and the high pulse of a bit outlasts its low pulse exactly when the
    bit is a one, an attempt leaves the five bytes sent in the buffer,
    most significant bit first, accepts them exactly when their checksum
    fits, and has polled the pin once per poll of the transmission. *)
Theorem any_timing_decodes (s : Sys) (frame : list Z)
    (ack : nat * nat) (widths : list (nat * nat)) (pre : list bool) :
  wf_dev (dev s) ->
  due s = true ->
  length frame = 5%nat ->
  Forall is_u8 frame ->
  pin (hw s) = wire (pre ++ timed_trace ack widths) ->
  polls (hw s) = length pre ->
  seen (_maxcycles (dev s)) ack ->
  Forall2 (sends (_maxcycles (dev s))) (flat_map byte_bits frame) widths ->
  exists s' : Sys,
    _read s = Some (checksum_ok frame, s') /\
    data (dev s') = frame /\
    _lastresult (dev s') = checksum_ok frame /\
    polls (hw s') = length (pre ++ timed_trace ack widths).
Proof.
  intros Hwf Hdue Hlen Hu8 Hpin Hpolls Hack Hsends.
  pose proof (attempt_on_timed_trace s frame ack widths pre
                Hlen Hu8 Hpin Hpolls Hack Hsends) as A.
  exists (after_attempt s).
  rewrite (_read_due s Hwf Hdue), after_attempt_dev, after_attempt_polls, A.
  repeat split; reflexivity.
Qed.

Lemma leisurely_sends (bits : list bool) :
  Forall2 (sends 80000) bits (map leisurely bits).
Proof.
  induction bits as [|b bits IH]; constructor; [|exact IH].
  destruct b; repeat split; cbn; lia.
Qed.

Lemma any_timing_decodes_witness :
  wf_dev (dev slow_sensor) /\
  due slow_sensor = true /\
  length good_frame = 5%nat /\
  Forall is_u8 good_frame /\
  pin (hw slow_sensor) =
    wire (earlier_traffic
            ++ timed_trace (80, 80)%nat (map leisurely (flat_map byte_bits good_frame))) /\
  polls (hw slow_sensor) = length earlier_traffic /\
  seen (_maxcycles (dev slow_sensor)) (80, 80)%nat /\
  Forall2 (sends (_maxcycles (dev slow_sensor)))
    (flat_map byte_bits good_frame) (map leisurely (flat_map byte_bits good_frame)) /\
  exists s' : Sys,
    _read slow_sensor = Some (checksum_ok good_frame, s') /\
    data (dev s') = good_frame /\
    _lastresult (dev s') = checksum_ok good_frame /\
    polls (hw s') =
    length (earlier_traffic
              ++ timed_trace (80, 80)%nat
                   (map leisurely (flat_map byte_bits good_frame))).
Proof.
  assert (H1 : wf_dev (dev slow_sensor)) by bench_wf.
  assert (H2 : due slow_sensor = true) by reflexivity.
  assert (H3 : length good_frame = 5%nat) by reflexivity.
  assert (H4 : Forall is_u8 good_frame)
    by (repeat constructor; unfold is_u8; lia).
  assert (H5 : pin (hw slow_sensor) =
               wire (earlier_traffic
                       ++ timed_trace (80, 80)%nat
                            (map leisurely (flat_map byte_bits good_frame))))
    by reflexivity.
  assert (H6 : polls (hw slow_sensor) = length earlier_traffic)
    by (vm_compute; reflexivity).
  assert (H7 : seen (_maxcycles (dev slow_sensor)) (80, 80)%nat)
    by (repeat split; cbn; lia).
  assert (H8 : Forall2 (sends (_maxcycles (dev slow_sensor)))
                 (flat_map byte_bits good_frame)
                 (map leisurely (flat_map byte_bits good_frame)))
    by (apply leisurely_sends).
  exact (conj H1 (conj H2 (conj H3 (conj H4 (conj H5 (conj H6 (conj H7 (conj H8
           (any_timing_decodes slow_sensor good_frame (80, 80)%nat
              (map leisurely (flat_map byte_bits good_frame)) earlier_traffic
              H1 H2 H3 H4 H5 H6 H7 H8))))))))).
Defined.

(** ** A true result and the checksum *)

Lemma attempt_true_checksum (s : Sys) :
  fst (fst (attempt s)) = true -> checksum_ok (snd (fst (attempt s))) = true.
Proof.
  unfold attempt.
  destruct (pulse (pin (hw s)) (_maxcycles (dev s)) LOW (polls (hw s))) as [lo p1].
  destruct (lo =? 0); [discriminate|].
  destruct (pulse (pin (hw s)) (_maxcycles (dev s)) HIGH p1) as [hi p2].
  destruct (hi =? 0); [discriminate|].
  destruct (pulse_pairs (pin (hw s)) (_maxcycles (dev s)) p2 40) as [cycles p3].
  destruct (decode_pure 40 0 cycles [0; 0; 0; 0; 0]) as [d complete].
  cbn [fst snd]. intros E. apply andb_true_iff in E. apply E.
Qed.

Lemma _read_checksum (s s' : Sys) (r : bool) :
  wf_dev (dev s) ->
  (_lastresult (dev s) = true -> checksum_ok (data (dev s)) = true) ->
  _read s = Some (r, s') ->
  _lastresult (dev s') = true -> checksum_ok (data (dev s')) = true.
Proof.
  intros Hwf Inv. destruct (due s) eqn:D.
  - rewrite (_read_due s Hwf D). intros [= _ <-].
    rewrite after_attempt_dev. cbn [_lastresult data].
    apply attempt_true_checksum.
  - rewrite (_read_cached s D). intros [= _ <-]. exact Inv.
Qed.

(** X6: the flag [_lastresult] vouches for the buffer.  If, before a call
    of [_read], a true flag goes with a buffer whose checksum fits, then
    so it does after the call, whether the call ran an attempt or was
    answered from the cache; and a call that returns true leaves a buffer
    whose fifth byte is the sum of the other four modulo 256. *)
Theorem true_result_means_checksummed_frame (s s' : Sys) (r : bool) :
  wf_dev (dev s) ->
  (_lastresult (dev s) = true -> checksum_ok (data (dev s)) = true) ->
  _read s = Some (r, s') ->
  (_lastresult (dev s') = true -> checksum_ok (data (dev s')) = true) /\
  (r = true ->
   cell (data (dev s')) 4 =
   (cell (data (dev s')) 0 + cell (data (dev s')) 1
    + cell (data (dev s')) 2 + cell (data (dev s')) 3) mod 256).
Proof.
  intros Hwf Inv E.
  pose proof (_read_checksum s s' r Hwf Inv E) as Inv'.
  split; [exact Inv'|].
  intros ->. destruct (_read_step s s' true Hwf E) as (_ & _ & R).
  specialize (Inv' R). unfold checksum_ok in Inv'.
  apply Z.eqb_eq in Inv'. rewrite land_255 in Inv'. exact Inv'.
Qed.

Lemma true_result_means_checksummed_frame_witness :
  wf_dev (dev stale) /\
  (_lastresult (dev stale) = true -> checksum_ok (data (dev stale)) = true) /\
  _read stale = Some (true, after_cached stale) /\
  (_lastresult (dev (after_cached stale)) = true ->
   checksum_ok (data (dev (after_cached stale))) = true) /\
  (true = true ->
   cell (data (dev (after_cached stale))) 4 =
   (cell (data (dev (after_cached stale))) 0 + cell (data (dev (after_cached stale))) 1
    + cell (data (dev (after_cached stale))) 2
    + cell (data (dev (after_cached stale))) 3) mod 256).
Proof.
  assert (H1 : wf_dev (dev stale)) by bench_wf.
  assert (H2 : _lastresult (dev stale) = true -> checksum_ok (data (dev stale)) = true)
    by (intros _; reflexivity).
  assert (H3 : _read stale = Some (true, after_cached stale))
    by (vm_compute; reflexivity).
  exact (conj H1 (conj H2 (conj H3
           (true_result_means_checksummed_frame stale (after_cached stale) true
              H1 H2 H3)))).
Defined.

(** ** The retry loop, whatever the sensor does *)

(** With [n] calls of [_read] left before the loop gives up, the loop
    returns: either a call succeeds, or the last of them fails too. *)
Lemma retry_loop_returns (n : nat) :
  forall (fuel : nat) (count : Z) (s : Sys),
    wf_dev (dev s) ->
    (1 <= n <= fuel)%nat ->
    count + Z.of_nat n = 11 ->
    exists (r : option DeviceErrorCode) (s' : Sys),
      retry_loop fuel count s = Some (r, s') /\
      ((_lastresult (dev s) = true -> checksum_ok (data (dev s)) = true) ->
       _lastresult (dev s') = true -> checksum_ok (data (dev s')) = true) /\
      match r with
      | None =>
          _lastresult (dev s') = true /\
          (ticks (hw s) < ticks (hw s') <= ticks (hw s) + n)%nat /\
          (count_delays 100 (log (hw s')) + 1 + ticks (hw s) =
           count_delays 100 (log (hw s)) + ticks (hw s'))%nat
      | Some e =>
          e = ERROR_READ /\
          _lastresult (dev s') = false /\
          ticks (hw s') = (ticks (hw s) + n)%nat /\
          count_delays 100 (log (hw s')) = (count_delays 100 (log (hw s)) + n)%nat
      end.
Proof.
  induction n as [|n IH]; intros [|fuel] count s Hwf Hn Hc; try lia.
  cbn [retry_loop]. unfold bind at 1.
  destruct (_read_total s Hwf) as (r & s1 & E). rewrite E.
  destruct (_read_step s s1 r Hwf E) as (Hwf1 & Ht & Hr).
  pose proof (_read_delays s s1 r Hwf E) as Hd.
  pose proof (_read_checksum s s1 r Hwf) as Hk.
  destruct r; cbn [negb].
  - exists None, s1. split; [reflexivity|]. split.
    + intros Inv. exact (Hk Inv E).
    + repeat split; try assumption; lia.
  - unfold bind at 1. cbn [delay emit].
    destruct (Z.gtb_spec (count + 1) 10) as [G|G].
    + assert (n = O) by lia. subst n.
      eexists; eexists. split; [reflexivity|]. fields. split.
      * intros Inv. exact (Hk Inv E).
      * cbn [count_delays]. change (100 =? 100) with true. cbv iota.
        repeat split; try assumption; lia.
    + set (s2 := {| dev := dev s1;
                    hw := {| clock := clock (hw s1); ticks := ticks (hw s1);
                             pin := pin (hw s1); polls := polls (hw s1);
                             log := EvDelay 100 :: log (hw s1) |} |}).
      destruct (IH fuel (count + 1) s2) as (r & s' & E' & Inv' & R');
        [exact Hwf1 | lia | lia |].
      exists r, s'. split; [exact E'|].
      unfold s2 in Inv', R'. fields.
      cbn [dev hw ticks log count_delays] in Inv', R'.
      change (100 =? 100) with true in R'. cbv iota in R'.
      split.
      * intros Inv. apply Inv'. intros L. exact (Hk Inv E L).
      * destruct r as [e|].
        -- destruct R' as (-> & R1 & R2 & R3). repeat split; try assumption; lia.
        -- destruct R' as (R1 & R2 & R3). repeat split; try assumption; lia.
Qed.

(** X7: [read] and [readAll] always return, after at least one and at
    most eleven calls of [_read], with a wait of 100 ms after each call
    that failed.  With [DEVICE_OK] the last call succeeded and the
    strings are made from bytes 2 and 0 of the buffer as it then stands,
    the temperature converted to Fahrenheit; with [ERROR_READ] all eleven
    calls failed and the string is "Error reading".  If a true
    [_lastresult] went with a checksummed buffer before, [DEVICE_OK] is
    only ever returned over a checksummed buffer. *)
Theorem read_always_returns `{ArduinoCore} (s : Sys) :
  wf_dev (dev s) ->
  exists (e : DeviceErrorCode) (text text' : string) (s' : Sys),
    read s = Some ((e, text), s') /\
    readAll s = Some ((e, text'), s') /\
    let calls := (ticks (hw s') - ticks (hw s))%nat in
    let waits :=
      (count_delays 100 (log (hw s')) - count_delays 100 (log (hw s)))%nat in
    match e with
    | DEVICE_OK =>
        (1 <= calls <= 11)%nat /\ waits = (calls - 1)%nat /\
        _lastresult (dev s') = true /\
        text = String_of_float (convertCtoF (float_of_Z (cell (data (dev s')) 2))) /\
        text' = ("Temp: " ++ text ++ "  Humidity: "
                   ++ String_of_float (float_of_Z (cell (data (dev s')) 0)))%string /\
        ((_lastresult (dev s) = true -> checksum_ok (data (dev s)) = true) ->
         checksum_ok (data (dev s')) = true)
    | ERROR_READ =>
        calls = 11%nat /\ waits = 11%nat /\
        _lastresult (dev s') = false /\
        text = "Error reading"%string /\ text' = "Error reading"%string
    end.
Proof.
  intros Hwf.
  destruct (retry_loop_returns 11 11 0 s Hwf) as (r & s' & E & Inv & R); try lia.
  destruct r as [e|].
  - destruct R as (-> & R1 & R2 & R3).
    exists ERROR_READ, "Error reading"%string, "Error reading"%string, s'.
    split; [unfold read, bind; rewrite E; reflexivity|].
    split; [unfold readAll, bind; rewrite E; reflexivity|].
    cbv zeta. repeat split; try assumption; lia.
  - destruct R as (R1 & R2 & R3).
    eexists DEVICE_OK, _, _, s'.
    split; [unfold read, bind; rewrite E; reflexivity|].
    split; [unfold readAll, bind; rewrite E; reflexivity|].
    cbv zeta. repeat split; try assumption; try lia.
    intros I. exact (Inv I R1).
Qed.

Lemma read_always_returns_witness :
  wf_dev (dev answering) /\
  exists (e : DeviceErrorCode) (text text' : string) (s' : Sys),
    read answering = Some ((e, text), s') /\
    readAll answering = Some ((e, text'), s') /\
    let calls := (ticks (hw s') - ticks (hw answering))%nat in
    let waits :=
      (count_delays 100 (log (hw s')) - count_delays 100 (log (hw answering)))%nat in
    match e with
    | DEVICE_OK =>
        (1 <= calls <= 11)%nat /\ waits = (calls - 1)%nat /\
        _lastresult (dev s') = true /\
        text = String_of_float (convertCtoF (float_of_Z (cell (data (dev s')) 2))) /\
        text' = ("Temp: " ++ text ++ "  Humidity: "
                   ++ String_of_float (float_of_Z (cell (data (dev s')) 0)))%string /\
        ((_lastresult (dev answering) = true ->
          checksum_ok (data (dev answering)) = true) ->
         checksum_ok (data (dev s')) = true)
    | ERROR_READ =>
        calls = 11%nat /\ waits = 11%nat /\
        _lastresult (dev s') = false /\
        text = "Error reading"%string /\ text' = "Error reading"%string
    end.
Proof.
  assert (H1 : wf_dev (dev answering)) by bench_wf.
  exact (conj H1 (read_always_returns answering H1)).
Defined.

(** ** Retries inside the interval *)

Lemma repeat_snoc {A : Type} (x : A) (n : nat) (l : list A) :
  repeat x n ++ x :: l = x :: repeat x n ++ l.
Proof.
  induction n as [|n IH]; [reflexivity|].
  cbn [repeat app]. rewrite IH. reflexivity.
Qed.

(** [k] calls in a row that the rate limiter answers with a cached
    failure, each followed by its wait. *)
Lemma cached_failures (k : nat) :
  forall (fuel : nat) (count : Z) (s : Sys),
    (1 <= k <= fuel)%nat ->
    count + Z.of_nat k = 11 ->
    _lastresult (dev s) = false ->
    (forall j : nat, (j < k)%nat ->
       u32 (u32 (clock (hw s) (ticks (hw s) + j)) - _lastreadtime (dev s)) < 2000) ->
    retry_loop fuel count s =
    Some (Some ERROR_READ,
          upd s (dev s) (ticks (hw s) + k) (polls (hw s))
            (repeat (EvDelay 100) k ++ log (hw s))).
Proof.
  induction k as [|k IH]; intros [|fuel] count s Hk Hc Hr Hclock; try lia.
  assert (D : due s = false).
  { unfold due, now. apply negb_false_iff, Z.ltb_lt.
    specialize (Hclock O ltac:(lia)). rewrite Nat.add_0_r in Hclock. exact Hclock. }
  cbn [retry_loop]. unfold bind at 1. rewrite (_read_cached s D), Hr.
  cbn [negb]. unfold bind at 1. cbn [delay emit after_cached upd hw dev
    clock ticks pin polls log].
  destruct (Z.gtb_spec (count + 1) 10) as [G|G].
  - assert (k = O) by lia. subst k. unfold ret, upd. cbn [repeat app].
    rewrite Nat.add_1_r. reflexivity.
  - rewrite (IH fuel (count + 1)); fields; try lia; try assumption.
    + unfold upd. fields. rewrite repeat_snoc. cbn [repeat app].
      replace (S (ticks (hw s)) + k)%nat with (ticks (hw s) + S k)%nat by lia.
      reflexivity.
    + intros j Hj. specialize (Hclock (S j) ltac:(lia)).
      replace (S (ticks (hw s)) + j)%nat with (ticks (hw s) + S j)%nat by lia.
      exact Hclock.
Qed.

(** X8: the retries do not reach the sensor while the rate limiter
    holds.  When the first call of [_read] in [read] or [readAll] runs an
    attempt that fails, and the clock readings of the ten following calls
    are all less than 2000 ms after it, those ten calls are answered from
    the cache: the wrapper waits its eleven times 100 ms and returns
    [ERROR_READ] without another write to or poll of the pin, and the
    driver is left as the one attempt left it. *)
Theorem retries_within_interval_are_cached `{ArduinoCore} (s s1 : Sys) :
  wf_dev (dev s) ->
  due s = true ->
  _read s = Some (false, s1) ->
  (forall j : nat, (1 <= j <= 10)%nat ->
     u32 (u32 (clock (hw s) (ticks (hw s) + j)) - now s) < 2000) ->
  exists s' : Sys,
    read s = Some ((ERROR_READ, "Error reading"%string), s') /\
    readAll s = Some ((ERROR_READ, "Error reading"%string), s') /\
    dev s' = dev s1 /\
    polls (hw s') = polls (hw s1) /\
    log (hw s') = repeat (EvDelay 100) 11 ++ log (hw s1) /\
    ticks (hw s') = (ticks (hw s) + 11)%nat.
Proof.
  intros Hwf Hdue E Hclock.
  pose proof E as E1. rewrite (_read_due s Hwf Hdue) in E1.
  injection E1 as Hr Hs1.
  assert (Hd : dev s1 = mkDht11 (_maxcycles (dev s)) (now s) false (snd (fst (attempt s))))
    by (rewrite <- Hs1, after_attempt_dev, Hr; reflexivity).
  assert (Ht : ticks (hw s1) = S (ticks (hw s)))
    by (rewrite <- Hs1; apply after_attempt_ticks).
  assert (Hc : clock (hw s1) = clock (hw s)).
  { rewrite <- Hs1. unfold after_attempt. destruct (attempt s) as [[r d] p].
    reflexivity. }
  set (s2 := {| dev := dev s1;
                hw := {| clock := clock (hw s1); ticks := ticks (hw s1);
                         pin := pin (hw s1); polls := polls (hw s1);
                         log := EvDelay 100 :: log (hw s1) |} |}).
  assert (L : retry_loop 11 0 s =
              Some (Some ERROR_READ,
                    upd s2 (dev s2) (ticks (hw s2) + 10) (polls (hw s2))
                      (repeat (EvDelay 100) 10 ++ log (hw s2)))).
  { cbn [retry_loop]. unfold bind at 1. rewrite E. cbn [negb].
    unfold bind at 1. cbn [delay emit]. change (0 + 1 >? 10) with false. cbv iota.
    fold s2. apply (cached_failures 10 10 1 s2); try lia.
    - unfold s2. fields. rewrite Hd. reflexivity.
    - intros j Hj. unfold s2. fields. rewrite Hd, Hc, Ht. cbn [_lastreadtime].
      replace (S (ticks (hw s)) + j)%nat with (ticks (hw s) + S j)%nat by lia.
      apply Hclock. lia. }
  eexists. split; [unfold read, bind; rewrite L; reflexivity|].
  split; [unfold readAll, bind; rewrite L; reflexivity|].
  unfold s2. fields. rewrite Ht. rewrite repeat_snoc.
  repeat split; try reflexivity. lia.
Qed.

Lemma patient_clock (j : nat) :
  (1 <= j <= 10)%nat ->
  u32 (u32 (clock (hw patient) (ticks (hw patient) + j)) - now patient) < 2000.
Proof.
  intros Hj. unfold patient, board, now. fields. cbn [Nat.add].
  unfold u32. rewrite Zminus_mod_idemp_l.
  rewrite (Z.mod_small (5000 + 100 * Z.of_nat 0)) by (cbn; lia).
  rewrite Z.mod_small; lia.
Qed.

Lemma retries_within_interval_are_cached_witness :
  wf_dev (dev patient) /\
  due patient = true /\
  _read patient = Some (false, after_attempt patient) /\
  (forall j : nat, (1 <= j <= 10)%nat ->
     u32 (u32 (clock (hw patient) (ticks (hw patient) + j)) - now patient) < 2000) /\
  exists s' : Sys,
    read patient = Some ((ERROR_READ, "Error reading"%string), s') /\
    readAll patient = Some ((ERROR_READ, "Error reading"%string), s') /\
    dev s' = dev (after_attempt patient) /\
    polls (hw s') = polls (hw (after_attempt patient)) /\
    log (hw s') = repeat (EvDelay 100) 11 ++ log (hw (after_attempt patient)) /\
    ticks (hw s') = (ticks (hw patient) + 11)%nat.
Proof.
  assert (H1 : wf_dev (dev patient)) by bench_wf.
  assert (H2 : due patient = true) by reflexivity.
  assert (H3 : _read patient = Some (false, after_attempt patient))
    by (vm_compute; reflexivity).
  exact (conj H1 (conj H2 (conj H3 (conj patient_clock
           (retries_within_interval_are_cached patient (after_attempt patient)
              H1 H2 H3 patient_clock))))).
Defined.

(** ** From the constructor to the string *)

Lemma brisk_sends (maxc : Z) (bits : list bool) :
  5 <= maxc ->
  Forall2 (sends maxc) bits (map brisk bits).
Proof.
  intros Hm. induction bits as [|b bits IH]; constructor; [|exact IH].
  destruct b; repeat split; cbn; lia.
Qed.

(** X9: from construction to the text.  Take any storage, any board and
    any clock whose next reading is below [2 ^ 32 - 2000], that is, not
    within the last 2000 ms before the millisecond clock wraps around;
    and a sensor that sends a frame with a fitting checksum, with pulses
    of any widths that the timeout budget of the constructed driver
    allows.  Then the driver constructed there answers the first [read]
    or [readAll] with [DEVICE_OK] after a single call of [_read] and no
    wait: the buffer holds the frame, [read] gives the text of byte 2
    converted to Fahrenheit, and [readAll] joins it with the text of
    byte 0 as the humidity. *)
Theorem read_reports_sensor_frame `{ArduinoCore} (s0 : Sys) (frame : list Z)
    (ack : nat * nat) (widths : list (nat * nat)) (pre : list bool) :
  let budget := u32 (microsecondsToClockCycles 1000) in
  now s0 < 2 ^ 32 - 2000 ->
  length frame = 5%nat ->
  Forall is_u8 frame ->
  checksum_ok frame = true ->
  pin (hw s0) = wire (pre ++ timed_trace ack widths) ->
  polls (hw s0) = length pre ->
  seen budget ack ->
  Forall2 (sends budget) (flat_map byte_bits frame) widths ->
  exists s1 s2 : Sys,
    Dht11_new s0 = Some (tt, s1) /\
    read s1 =
      Some ((DEVICE_OK, String_of_float (convertCtoF (float_of_Z (cell frame 2)))), s2) /\
    readAll s1 =
      Some ((DEVICE_OK,
             ("Temp: " ++ String_of_float (convertCtoF (float_of_Z (cell frame 2)))
                ++ "  Humidity: " ++ String_of_float (float_of_Z (cell frame 0)))%string),
            s2) /\
    data (dev s2) = frame /\
    ticks (hw s2) = S (ticks (hw s0)) /\
    polls (hw s2) = length (pre ++ timed_trace ack widths) /\
    log (hw s2) = attempt_events ++ EvPinMode INPUT_PULLUP :: log (hw s0).
Proof.
  intros budget Hnow Hlen Hu8 Hsum Hpin Hpolls Hack Hsends.
  set (s' := mkSys (mkDht11 budget (_lastreadtime (dev s0))
                      (_lastresult (dev s0)) (data (dev s0))) (hw s0)).
  set (s1 := mkSys (mkDht11 budget (u32 (- MIN_INTERVAL))
                      (_lastresult (dev s0)) (data (dev s0)))
                   (mkBoard (clock (hw s0)) (ticks (hw s0)) (pin (hw s0))
                      (polls (hw s0)) (EvPinMode INPUT_PULLUP :: log (hw s0)))).
  assert (Hwf : wf_dev (dev s1)) by apply u32_range.
  assert (Hb : begin s' = Some (tt, s1)) by reflexivity.
  assert (Hdue : due s1 = true).
  { rewrite (due_after_begin s' s1 Hb). apply Z.ltb_lt. exact Hnow. }
  assert (A : attempt s1 =
              (checksum_ok frame, frame, length (pre ++ timed_trace ack widths)))
    by (apply attempt_on_timed_trace; assumption).
  assert (E : _read s1 = Some (true, after_attempt s1))
    by (rewrite (_read_due s1 Hwf Hdue), A, Hsum; reflexivity).
  assert (D : data (dev (after_attempt s1)) = frame)
    by (rewrite after_attempt_dev, A; reflexivity).
  assert (L : retry_loop 11 0 s1 = Some (None, after_attempt s1))
    by (cbn [retry_loop]; unfold bind at 1; rewrite E; reflexivity).
  exists s1, (after_attempt s1).
  split; [reflexivity|].
  split.
  { unfold read, bind. rewrite L. unfold readTemperature, readHumidity, bind, gets, ret.
    rewrite D. reflexivity. }
  split.
  { unfold readAll, bind. rewrite L. unfold readTemperature, readHumidity, bind, gets, ret.
    rewrite D. reflexivity. }
  split; [exact D|].
  rewrite after_attempt_ticks, after_attempt_log, after_attempt_polls, A.
  repeat split; reflexivity.
Qed.

Lemma read_reports_sensor_frame_witness :
  let s0 := boxed (mkDht11 7 7 true bad_frame) good_frame in
  let widths := map brisk (flat_map byte_bits good_frame) in
  let budget := u32 (microsecondsToClockCycles 1000) in
  now s0 < 2 ^ 32 - 2000 /\
  length good_frame = 5%nat /\
  Forall is_u8 good_frame /\
  checksum_ok good_frame = true /\
  pin (hw s0) = wire ([] ++ timed_trace (4, 4)%nat widths) /\
  polls (hw s0) = length (@nil bool) /\
  seen budget (4, 4)%nat /\
  Forall2 (sends budget) (flat_map byte_bits good_frame) widths /\
  exists s1 s2 : Sys,
    Dht11_new s0 = Some (tt, s1) /\
    read s1 =
      Some ((DEVICE_OK,
             String_of_float (convertCtoF (float_of_Z (cell good_frame 2)))), s2) /\
    readAll s1 =
      Some ((DEVICE_OK,
             ("Temp: " ++ String_of_float (convertCtoF (float_of_Z (cell good_frame 2)))
                ++ "  Humidity: "
                ++ String_of_float (float_of_Z (cell good_frame 0)))%string),
            s2) /\
    data (dev s2) = good_frame /\
    ticks (hw s2) = S (ticks (hw s0)) /\
    polls (hw s2) = length ([] ++ timed_trace (4, 4)%nat widths) /\
    log (hw s2) = attempt_events ++ EvPinMode INPUT_PULLUP :: log (hw s0).
Proof.
  intros s0 widths budget.
  assert (H1 : now s0 < 2 ^ 32 - 2000) by reflexivity.
  assert (H2 : length good_frame = 5%nat) by reflexivity.
  assert (H3 : Forall is_u8 good_frame)
    by (repeat constructor; unfold is_u8; lia).
  assert (H4 : checksum_ok good_frame = true) by reflexivity.
  assert (H5 : pin (hw s0) = wire ([] ++ timed_trace (4, 4)%nat widths))
    by reflexivity.
  assert (H6 : polls (hw s0) = length (@nil bool)) by reflexivity.
  assert (H7 : seen budget (4, 4)%nat)
    by (repeat split; vm_compute; (lia || discriminate)).
  assert (H8 : Forall2 (sends budget) (flat_map byte_bits good_frame) widths)
    by (apply brisk_sends; vm_compute; discriminate).
  exact (conj H1 (conj H2 (conj H3 (conj H4 (conj H5 (conj H6 (conj H7 (conj H8
           (read_reports_sensor_frame s0 good_frame (4, 4)%nat widths []
              H1 H2 H3 H4 H5 H6 H7 H8))))))))).
Defined.

(** ** Readings in Fahrenheit *)

Lemma convertCtoF_bytes :
  forallb (fun c =>
    Qle_bool (Qabs (to_Q (convertCtoF (float_of_Z c)) - fahrenheit c)) (1 # 65536)
    && Bool.eqb (c mod 5 =? 0)
         (Qeq_bool (to_Q (convertCtoF (float_of_Z c))) (fahrenheit c))) bytes = true.
Proof. vm_compute. reflexivity. Qed.

(** X10: [readTemperature] gives degrees Fahrenheit.  For every byte [c]
    in [data[2]], the float returned is finite and within [2 ^ -16], half
    a unit in the last place, of [c * 1.8 + 32]; it is that value if and
    only if [c] is a multiple of 5, and readings of different bytes keep
    their order. *)
Theorem readTemperature_is_fahrenheit (s1 s2 : Sys) :
  let c1 := cell (data (dev s1)) 2 in
  let c2 := cell (data (dev s2)) 2 in
  is_u8 c1 ->
  is_u8 c2 ->
  exists t1 t2 : float,
    readTemperature s1 = Some (t1, s1) /\
    readTemperature s2 = Some (t2, s2) /\
    (Qabs (to_Q t1 - fahrenheit c1) <= 1 # 65536)%Q /\
    (c1 mod 5 = 0 <-> (to_Q t1 == fahrenheit c1)%Q) /\
    (c1 < c2 -> (to_Q t1 < to_Q t2)%Q).
Proof.
  intros c1 c2 H1 H2. unfold is_u8 in H1, H2.
  exists (convertCtoF (float_of_Z c1)), (convertCtoF (float_of_Z c2)).
  split; [reflexivity|]. split; [reflexivity|].
  clearbody c1 c2.
  pose proof (for_bytes _ convertCtoF_bytes c1 ltac:(lia)) as B1.
  pose proof (for_bytes _ convertCtoF_bytes c2 ltac:(lia)) as B2.
  cbv beta in B1, B2.
  apply andb_true_iff in B1 as [A1 E1]. apply andb_true_iff in B2 as [A2 _].
  apply Qle_bool_iff in A1, A2.
  split; [exact A1|]. split.
  - apply eqb_prop in E1. rewrite <- Qeq_bool_iff, <- E1. symmetry. apply Z.eqb_eq.
  - intros Hlt.
    apply Qabs_Qle_condition in A1, A2.
    assert (F : (fahrenheit c1 + 1 <= fahrenheit c2)%Q).
    { unfold fahrenheit.
      assert (I : (inject_Z c1 + 1 <= inject_Z c2)%Q).
      { change 1%Q with (inject_Z 1). rewrite <- inject_Z_plus.
        rewrite <- Zle_Qle. lia. }
      lra. }
    lra.
Qed.

Lemma readTemperature_is_fahrenheit_witness :
  let c1 := cell (data (dev answering)) 2 in
  let c2 := cell (data (dev stale)) 2 in
  is_u8 c1 /\
  is_u8 c2 /\
  exists t1 t2 : float,
    readTemperature answering = Some (t1, answering) /\
    readTemperature stale = Some (t2, stale) /\
    (Qabs (to_Q t1 - fahrenheit c1) <= 1 # 65536)%Q /\
    (c1 mod 5 = 0 <-> (to_Q t1 == fahrenheit c1)%Q) /\
    (c1 < c2 -> (to_Q t1 < to_Q t2)%Q).
Proof.
  assert (H1 : is_u8 (cell (data (dev answering)) 2)) by (vm_compute; split; discriminate || reflexivity).
  assert (H2 : is_u8 (cell (data (dev stale)) 2)) by (vm_compute; split; discriminate || reflexivity).
  exact (conj H1 (conj H2 (readTemperature_is_fahrenheit answering stale H1 H2))).
Defined.

(** ** The heat index of a reading *)

Lemma heat_simple_grid :
  forallb (fun c =>
    forallb (fun h =>
      Bool.eqb
        (fgt (heat_simple (convertCtoF (float_of_Z c)) (float_of_Z h)) (float_of_Z 79))
        (negb (1980 * c + 47 * h <=? 54100))) percents) bytes = true.
Proof.
  change
    ((fun k5 k61 k68 k12 k94 k18 k32 f79 =>
       forallb (fun c =>
         let t := to_double (to_float (dadd (dmul (to_double (float_of_Z c)) k18) k32)) in
         let base := dadd (dadd t k61) (dmul (dsub t k68) k12) in
         forallb (fun h =>
           Bool.eqb
             (fgt (to_float (dmul k5 (dadd base (dmul (to_double (float_of_Z h)) k94)))) f79)
             (negb (1980 * c + 47 * h <=? 54100))) percents) bytes)
      (lit 5 1) (lit 61 0) (lit 68 0) (lit 12 1) (lit 94 3) (lit 18 1)
      (double_of_Z 32) (float_of_Z 79) = true).
  vm_compute. reflexivity.
Qed.

Lemma temperature_bands :
  forallb (fun c =>
    let t := to_double (convertCtoF (float_of_Z c)) in
    Bool.eqb (fge t (lit 800 1)) (27 <=? c)
    && Bool.eqb (fle t (lit 1120 1)) (c <=? 44)
    && Bool.eqb (fle t (lit 870 1)) (c <=? 30)) bytes = true.
Proof. vm_compute. reflexivity. Qed.

Lemma humidity_bands :
  forallb (fun h =>
    Bool.eqb (flt (float_of_Z h) (float_of_Z 13)) (h <? 13)
    && Bool.eqb (fgt (to_double (float_of_Z h)) (lit 850 1)) (85 <? h)) percents = true.
Proof. vm_compute. reflexivity. Qed.

(** X11: the branch of [computeHeatIndex] for every reading that the
    accessors can return.  With the temperature [convertCtoF] of a byte
    [c] and the humidity a whole percentage [h], the simple formula is
    returned exactly when [1980 * c + 47 * h <= 54100], which is the
    condition that it does not exceed 79 on exact numbers; above that the
    regression is used, with the low-humidity term for [h < 13] and [c] in
    27..44 (80.6 to 111.2 degrees), with the high-humidity term for
    [h > 85] and [c] in 27..30 (80.6 to 86 degrees), and bare otherwise.
    This holds for every [pow], [sqrt] and [abs]. *)
Theorem heat_index_of_readings `{ArduinoCore} (c h : Z) :
  0 <= c <= 255 ->
  0 <= h <= 100 ->
  let t := convertCtoF (float_of_Z c) in
  let p := float_of_Z h in
  computeHeatIndex t p =
  if 1980 * c + 47 * h <=? 54100 then heat_simple t p
  else if (h <? 13) && (27 <=? c) && (c <=? 44)
  then low_humidity_adjust (heat_regression t p) t p
  else if (85 <? h) && (27 <=? c) && (c <=? 30)
  then high_humidity_adjust (heat_regression t p) t p
  else heat_regression t p.
Proof.
  intros Hc Hh t p.
  pose proof (for_bytes _ heat_simple_grid c Hc) as G. cbv beta in G.
  pose proof (for_percents _ G h Hh) as G1. cbv beta in G1.
  pose proof (for_bytes _ temperature_bands c Hc) as T. cbv beta zeta in T.
  pose proof (for_percents _ humidity_bands h Hh) as P. cbv beta in P.
  fold t in G1, T. fold p in G1, P.
  apply eqb_prop in G1.
  apply andb_true_iff in T as [T T3]. apply andb_true_iff in T as [T1 T2].
  apply andb_true_iff in P as [P1 P2].
  apply eqb_prop in T1, T2, T3, P1, P2.
  unfold computeHeatIndex, low_humidity, high_humidity.
  rewrite G1, T1, T2, T3, P1, P2.
  destruct (1980 * c + 47 * h <=? 54100); reflexivity.
Qed.

Lemma heat_index_of_readings_witness :
  0 <= 27 <= 255 /\
  0 <= 12 <= 100 /\
  let t := convertCtoF (float_of_Z 27) in
  let p := float_of_Z 12 in
  computeHeatIndex t p =
  if 1980 * 27 + 47 * 12 <=? 54100 then heat_simple t p
  else if (12 <? 13) && (27 <=? 27) && (27 <=? 44)
  then low_humidity_adjust (heat_regression t p) t p
  else if (85 <? 12) && (27 <=? 27) && (27 <=? 30)
  then high_humidity_adjust (heat_regression t p) t p
  else heat_regression t p.
Proof.
  assert (H1 : 0 <= 27 <= 255) by lia.
  assert (H2 : 0 <= 12 <= 100) by lia.
  exact (conj H1 (conj H2 (heat_index_of_readings 27 12 H1 H2))).
Defined.

(** ** Alert texts *)

Lemma append_inj_l (p a b : string) : (p ++ a)%string = (p ++ b)%string -> a = b.
Proof.
  induction p as [|c p IH]; cbn; [auto|].
  intros [= E]. exact (IH E).
Qed.

Lemma prefix_append (p a : string) : String.prefix p (p ++ a) = true.
Proof.
  induction p as [|c p IH]; cbn; [destruct a; reflexivity|].
  destruct (Ascii.ascii_dec c c) as [_|N]; [exact IH | contradiction].
Qed.

Lemma listed_distinct `{Headers} :
  NoDup listed ->
  MAX_RANGE <> MIN_RANGE /\ MAX_RANGE <> OFF_LINE /\ MAX_RANGE <> ON_LINE /\
  MAX_RANGE <> DISCONNECTED /\ MIN_RANGE <> OFF_LINE /\ MIN_RANGE <> ON_LINE /\
  MIN_RANGE <> DISCONNECTED /\ OFF_LINE <> ON_LINE /\ OFF_LINE <> DISCONNECTED /\
  ON_LINE <> DISCONNECTED.
Proof.
  unfold listed. intros N.
  inversion_clear N as [|? ? N1 M1]. inversion_clear M1 as [|? ? N2 M2].
  inversion_clear M2 as [|? ? N3 M3]. inversion_clear M3 as [|? ? N4 _].
  cbn in N1, N2, N3, N4.
  repeat split; intros E; rewrite E in *; tauto.
Qed.

(** What the function writes for each of the five enumerators. *)
Lemma createEmailMessage_listed `{Headers} (subject message : string) :
  NoDup listed ->
  createEmailMessage subject message MAX_RANGE =
    ((deviceName ++ " MAX Temp Warning")%string,
     (deviceName ++ "  has triggered the maximum temperature range.")%string) /\
  createEmailMessage subject message MIN_RANGE =
    ((deviceName ++ " MIN Temp Warning")%string,
     (deviceName ++ "  has triggered the minimum temperature range.")%string) /\
  createEmailMessage subject message OFF_LINE =
    ((deviceName ++ " Offline Warning")%string,
     (deviceName ++ " is now offline.")%string) /\
  createEmailMessage subject message ON_LINE =
    ((deviceName ++ " Online")%string,
     (deviceName ++ " is now online.")%string) /\
  createEmailMessage subject message DISCONNECTED =
    ((deviceName ++ " Disconnected Warning")%string,
     (deviceName ++ " sensor is disconnected.")%string).
Proof.
  intros N.
  destruct (listed_distinct N) as (D1 & D2 & D3 & D4 & D5 & D6 & D7 & D8 & D9 & D10).
  unfold createEmailMessage.
  rewrite !Z.eqb_refl.
  rewrite (proj2 (Z.eqb_neq MIN_RANGE MAX_RANGE)) by auto.
  rewrite (proj2 (Z.eqb_neq OFF_LINE MAX_RANGE)) by auto.
  rewrite (proj2 (Z.eqb_neq OFF_LINE MIN_RANGE)) by auto.
  rewrite (proj2 (Z.eqb_neq ON_LINE MAX_RANGE)) by auto.
  rewrite (proj2 (Z.eqb_neq ON_LINE MIN_RANGE)) by auto.
  rewrite (proj2 (Z.eqb_neq ON_LINE OFF_LINE)) by auto.
  rewrite (proj2 (Z.eqb_neq DISCONNECTED MAX_RANGE)) by auto.
  rewrite (proj2 (Z.eqb_neq DISCONNECTED MIN_RANGE)) by auto.
  rewrite (proj2 (Z.eqb_neq DISCONNECTED OFF_LINE)) by auto.
  rewrite (proj2 (Z.eqb_neq DISCONNECTED ON_LINE)) by auto.
  repeat split; reflexivity.
Qed.

(** X12: for the five message types that it tests, [createEmailMessage]
    overwrites both strings with texts that begin with the device name,
    whatever the strings held, and different types give different
    subjects and different messages: the type can be read off either
    text. *)
Theorem alert_texts_identify_type `{Headers}
    (k1 k2 : Z) (subject1 message1 subject2 message2 : string) :
  NoDup listed ->
  In k1 listed ->
  In k2 listed ->
  let out1 := createEmailMessage subject1 message1 k1 in
  let out2 := createEmailMessage subject2 message2 k2 in
  (fst out1 = fst out2 <-> k1 = k2) /\
  (snd out1 = snd out2 <-> k1 = k2) /\
  String.prefix deviceName (fst out1) = true /\
  String.prefix deviceName (snd out1) = true.
Proof.
  intros N I1 I2.
  destruct (listed_distinct N) as (D1 & D2 & D3 & D4 & D5 & D6 & D7 & D8 & D9 & D10).
  destruct (createEmailMessage_listed subject1 message1 N) as (A1 & A2 & A3 & A4 & A5).
  destruct (createEmailMessage_listed subject2 message2 N) as (B1 & B2 & B3 & B4 & B5).
  unfold listed in I1, I2. cbn [In] in I1, I2.
  cbv zeta.
  destruct I1 as [<-|[<-|[<-|[<-|[<-|[]]]]]];
    destruct I2 as [<-|[<-|[<-|[<-|[<-|[]]]]]];
    rewrite ?A1, ?A2, ?A3, ?A4, ?A5, ?B1, ?B2, ?B3, ?B4, ?B5; cbn [fst snd];
    (split; [|split; [|split; apply prefix_append]]);
    (split; [intros E | intros E]);
    try reflexivity;
    try (apply append_inj_l in E; discriminate E);
    try (exfalso; auto; fail);
    try (exfalso; symmetry in E; auto; fail).
Qed.

Lemma alert_texts_identify_type_witness :
  NoDup (@listed greenhouse) /\
  In 2 (@listed greenhouse) /\
  In 4 (@listed greenhouse) /\
  let out1 := @createEmailMessage greenhouse "old subject" "old message" 2 in
  let out2 := @createEmailMessage greenhouse EmptyString EmptyString 4 in
  (fst out1 = fst out2 <-> 2 = 4) /\
  (snd out1 = snd out2 <-> 2 = 4) /\
  String.prefix (@deviceName greenhouse) (fst out1) = true /\
  String.prefix (@deviceName greenhouse) (snd out1) = true.
Proof.
  assert (H1 : NoDup (@listed greenhouse)).
  { unfold listed. cbn. repeat constructor; cbn; lia. }
  assert (H2 : In 2 (@listed greenhouse)) by (cbn; tauto).
  assert (H3 : In 4 (@listed greenhouse)) by (cbn; tauto).
  exact (conj H1 (conj H2 (conj H3
           (@alert_texts_identify_type greenhouse 2 4
              "old subject" "old message" EmptyString EmptyString H1 H2 H3)))).
Defined.

(** X13: for a message type that is none of the five, the subject is the
    bare device name and the message is left as the caller passed it:
    nothing is written to it. *)
Theorem unlisted_type_keeps_message `{Headers}
    (k : Z) (subject message : string) :
  ~ In k listed ->
  createEmailMessage subject message k = (deviceName, message).
Proof.
  unfold listed. cbn [In]. intros N. unfold createEmailMessage.
  destruct (Z.eqb_spec k MAX_RANGE) as [E|_]; [exfalso; apply N; auto|].
  destruct (Z.eqb_spec k MIN_RANGE) as [E|_]; [exfalso; apply N; auto|].
  destruct (Z.eqb_spec k OFF_LINE) as [E|_]; [exfalso; apply N; auto|].
  destruct (Z.eqb_spec k ON_LINE) as [E|_]; [exfalso; apply N; auto|].
  destruct (Z.eqb_spec k DISCONNECTED) as [E|_]; [exfalso; apply N; auto 6|].
  reflexivity.
Qed.

Lemma unlisted_type_keeps_message_witness :
  ~ In 5 (@listed greenhouse) /\
  @createEmailMessage greenhouse "old subject" "old message" 5 =
  (@deviceName greenhouse, "old message"%string).
Proof.
  assert (H1 : ~ In 5 (@listed greenhouse)) by (cbn; lia).
  exact (conj H1 (@unlisted_type_keeps_message greenhouse 5
                    "old subject" "old message" H1)).
Defined.

(** ** One wait after another *)

(** X14: each wait consumes the poll that ends it.  On a line that stays
    at [level] for [a] polls and then away from it for [b] polls, a wait
    for [level] returns [a] and the wait for the other level that follows
    returns [b - 1], one less than the polls the second pulse lasted; a
    pulse of a single poll is returned as 0, which [_read] takes for a
    timeout. *)
Theorem consecutive_waits_lose_a_poll (s : Sys) (level : bool) (a b : nat)
    (pre post : list bool) :
  wf_dev (dev s) ->
  pin (hw s) =
    wire (pre ++ repeat level a ++ repeat (negb level) b ++ level :: post) ->
  polls (hw s) = length pre ->
  (1 <= b)%nat ->
  Z.of_nat a <= _maxcycles (dev s) ->
  Z.of_nat b <= _maxcycles (dev s) + 1 ->
  exists s1 s2 : Sys,
    expectPulse level s = Some (Z.of_nat a, s1) /\
    expectPulse (negb level) s1 = Some (Z.of_nat (b - 1), s2) /\
    polls (hw s2) = (length pre + a + b + 1)%nat.
Proof.
  intros Hwf Hpin Hpolls Hb Ha Hb'.
  destruct b as [|b]; [lia|]. cbn [repeat] in Hpin.
  replace (S b - 1)%nat with b by lia.
  set (maxc := _maxcycles (dev s)) in *.
  set (l := pre ++ repeat level a ++ (negb level :: repeat (negb level) b) ++ level :: post)
    in *.
  set (pre1 := pre ++ pulse_trace level a).
  assert (E1 : l = pre ++ pulse_trace level a
                     ++ (pulse_trace (negb level) b ++ post)).
  { unfold l, pulse_trace. rewrite negb_involutive.
    rewrite <- !app_assoc. cbn [app]. reflexivity. }
  assert (E2 : l = pre1 ++ pulse_trace (negb level) b ++ post)
    by (rewrite E1; unfold pre1; rewrite <- !app_assoc; reflexivity).
  assert (P1 : pulse (wire l) maxc level (length pre) = (Z.of_nat a, length pre1))
    by (rewrite E1; apply pulse_on_trace; exact Ha).
  assert (P2 : pulse (wire l) maxc (negb level) (length pre1) =
               (Z.of_nat b, length (pre1 ++ pulse_trace (negb level) b)))
    by (rewrite E2; apply pulse_on_trace; lia).
  exists (set_polls s (length pre1)),
         (set_polls s (length (pre1 ++ pulse_trace (negb level) b))).
  split; [|split].
  - rewrite (expectPulse_spec level s Hwf), Hpin, Hpolls. fold maxc.
    rewrite P1. reflexivity.
  - rewrite (expectPulse_spec (negb level) (set_polls s (length pre1)) Hwf).
    fields. rewrite Hpin. fold maxc. rewrite P2. reflexivity.
  - fields. unfold pre1, pulse_trace. rewrite !length_app, !repeat_length.
    cbn [length]. lia.
Qed.

Lemma consecutive_waits_lose_a_poll_witness :
  wf_dev (dev blip) /\
  pin (hw blip) =
    wire ([] ++ repeat LOW 2 ++ repeat (negb LOW) 1 ++ LOW :: []) /\
  polls (hw blip) = length (@nil bool) /\
  (1 <= 1)%nat /\
  Z.of_nat 2 <= _maxcycles (dev blip) /\
  Z.of_nat 1 <= _maxcycles (dev blip) + 1 /\
  exists s1 s2 : Sys,
    expectPulse LOW blip = Some (Z.of_nat 2, s1) /\
    expectPulse (negb LOW) s1 = Some (Z.of_nat (1 - 1), s2) /\
    polls (hw s2) = (length (@nil bool) + 2 + 1 + 1)%nat.
Proof.
  assert (H1 : wf_dev (dev blip)) by bench_wf.
  assert (H2 : pin (hw blip) =
               wire ([] ++ repeat LOW 2 ++ repeat (negb LOW) 1 ++ LOW :: []))
    by reflexivity.
  assert (H3 : polls (hw blip) = length (@nil bool)) by reflexivity.
  assert (H4 : (1 <= 1)%nat) by lia.
  assert (H5 : Z.of_nat 2 <= _maxcycles (dev blip)) by (vm_compute; discriminate).
  assert (H6 : Z.of_nat 1 <= _maxcycles (dev blip) + 1) by (vm_compute; discriminate).
  exact (conj H1 (conj H2 (conj H3 (conj H4 (conj H5 (conj H6
           (consecutive_waits_lose_a_poll blip LOW 2 1 [] [] H1 H2 H3 H4 H5 H6))))))).
Defined.

(** ** Humidity *)

Lemma humidity_bytes :
  forallb (fun h => Qeq_bool (to_Q (float_of_Z h)) (inject_Z h)) bytes = true.
Proof. vm_compute. reflexivity. Qed.

(** X15: [readHumidity] returns byte 0 of the buffer as a float without
    any rounding, for every byte, and leaves the driver as it is. *)
Theorem readHumidity_is_exact (s : Sys) :
  is_u8 (cell (data (dev s)) 0) ->
  exists h : float,
    readHumidity s = Some (h, s) /\
    (to_Q h == inject_Z (cell (data (dev s)) 0))%Q.
Proof.
  intros H. unfold is_u8 in H.
  exists (float_of_Z (cell (data (dev s)) 0)).
  split; [reflexivity|].
  apply Qeq_bool_iff.
  apply (for_bytes (fun h => Qeq_bool (to_Q (float_of_Z h)) (inject_Z h)) humidity_bytes).
  lia.
Qed.

Lemma readHumidity_is_exact_witness :
  is_u8 (cell (data (dev stale)) 0) /\
  exists h : float,
    readHumidity stale = Some (h, stale) /\
    (to_Q h == inject_Z (cell (data (dev stale)) 0))%Q.
Proof.
  assert (H1 : is_u8 (cell (data (dev stale)) 0))
    by (vm_compute; split; discriminate || reflexivity).
  exact (conj H1 (readHumidity_is_exact stale H1)).
Defined.

(** ** A budget of zero *)

Lemma attempt_zero_budget (s : Sys) :
  _maxcycles (dev s) = 0 ->
  attempt s = (false, [0; 0; 0; 0; 0], S (polls (hw s))).
Proof.
  intros Z0. unfold attempt, pulse. rewrite Z0.
  change (Z.to_nat 0) with O. cbn [first_off].
  destruct (Bool.eqb (pin (hw s) (polls (hw s))) LOW); cbn [option_map];
    cbn [Z.of_nat Z.eqb]; rewrite Nat.add_1_r; reflexivity.
Qed.

Lemma zero_budget_rounds (n : nat) :
  forall (fuel : nat) (count : Z) (s : Sys),
    _maxcycles (dev s) = 0 ->
    _lastresult (dev s) = false \/ due s = true ->
    (1 <= n <= fuel)%nat ->
    count + Z.of_nat n = 11 ->
    exists s' : Sys,
      retry_loop fuel count s = Some (Some ERROR_READ, s') /\
      _maxcycles (dev s') = 0 /\
      _lastresult (dev s') = false /\
      (polls (hw s') <= polls (hw s) + n)%nat.
Proof.
  induction n as [|n IH]; intros [|fuel] count s Z0 Hs Hn Hc; try lia.
  assert (Hwf : wf_dev (dev s)) by (unfold wf_dev, is_u32; rewrite Z0; lia).
  assert (E : exists s1 : Sys,
             _read s = Some (false, s1) /\ _maxcycles (dev s1) = 0 /\
             _lastresult (dev s1) = false /\ (polls (hw s1) <= S (polls (hw s)))%nat).
  { destruct (due s) eqn:D.
    - exists (after_attempt s).
      rewrite (_read_due s Hwf D), after_attempt_dev, after_attempt_polls,
        (attempt_zero_budget s Z0).
      cbn [fst snd _maxcycles _lastresult]. repeat split; auto.
    - destruct Hs as [Hr|Hd]; [|discriminate].
      exists (after_cached s). rewrite (_read_cached s D), Hr.
      cbn [after_cached upd dev hw polls]. repeat split; auto. }
  destruct E as (s1 & E & Z1 & R1 & P1).
  cbn [retry_loop]. unfold bind at 1. rewrite E. cbn [negb].
  unfold bind at 1. cbn [delay emit].
  destruct (Z.gtb_spec (count + 1) 10) as [G|G].
  - eexists. split; [reflexivity|]. fields. repeat split; try assumption. lia.
  - set (s2 := {| dev := dev s1;
                  hw := {| clock := clock (hw s1); ticks := ticks (hw s1);
                           pin := pin (hw s1); polls := polls (hw s1);
                           log := EvDelay 100 :: log (hw s1) |} |}).
    destruct (IH fuel (count + 1) s2) as (s' & L & Z' & R' & P');
      [exact Z1 | left; exact R1 | lia | lia |].
    exists s'. unfold s2 in P'. cbn [hw polls] in P'.
    repeat split; try assumption. lia.
Qed.

(** X16: a driver whose timeout budget [_maxcycles] is zero can never
    read.  Every pulse wait returns 0 at its first poll, so that every
    attempt fails after a single poll whatever the sensor sends, and
    [read] and [readAll], begun when an attempt is due or the last result
    is a failure, return [ERROR_READ] having polled the pin at most
    eleven times. *)
Theorem zero_budget_never_reads `{ArduinoCore} (s : Sys) :
  _maxcycles (dev s) = 0 ->
  _lastresult (dev s) = false \/ due s = true ->
  (exists s' : Sys,
     read s = Some ((ERROR_READ, "Error reading"%string), s') /\
     readAll s = Some ((ERROR_READ, "Error reading"%string), s') /\
     _lastresult (dev s') = false /\
     (polls (hw s') <= polls (hw s) + 11)%nat) /\
  (due s = true ->
   exists s1 : Sys,
     _read s = Some (false, s1) /\
     polls (hw s1) = S (polls (hw s)) /\
     data (dev s1) = [0; 0; 0; 0; 0]).
Proof.
  intros Z0 Hs. split.
  - destruct (zero_budget_rounds 11 11 0 s Z0 Hs) as (s' & L & _ & R & P); try lia.
    exists s'.
    split; [unfold read, bind; rewrite L; reflexivity|].
    split; [unfold readAll, bind; rewrite L; reflexivity|].
    split; assumption.
  - intros D.
    assert (Hwf : wf_dev (dev s)) by (unfold wf_dev, is_u32; rewrite Z0; lia).
    exists (after_attempt s).
    rewrite (_read_due s Hwf D), after_attempt_dev, after_attempt_polls,
      (attempt_zero_budget s Z0).
    repeat split; reflexivity.
Qed.

Lemma zero_budget_never_reads_witness :
  _maxcycles (dev starved) = 0 /\
  (_lastresult (dev starved) = false \/ due starved = true) /\
  (exists s' : Sys,
     read starved = Some ((ERROR_READ, "Error reading"%string), s') /\
     readAll starved = Some ((ERROR_READ, "Error reading"%string), s') /\
     _lastresult (dev s') = false /\
     (polls (hw s') <= polls (hw starved) + 11)%nat) /\
  (due starved = true ->
   exists s1 : Sys,
     _read starved = Some (false, s1) /\
     polls (hw s1) = S (polls (hw starved)) /\
     data (dev s1) = [0; 0; 0; 0; 0]).
Proof.
  assert (H1 : _maxcycles (dev starved) = 0) by reflexivity.
  assert (H2 : _lastresult (dev starved) = false \/ due starved = true)
    by (right; reflexivity).
  exact (conj H1 (conj H2 (zero_budget_never_reads starved H1 H2))).
Defined.
